(** * Currency converter (app-script.js): conversion state and refresh protocol

    A shallow embedding of [src/JS API/app-script.js].  The script keeps four
    module-level variables ([isFetching], [conversionRate],
    [sourceCurrentValue], [targetCurrentValue]) next to a handful of DOM
    elements, and mutates them from event handlers.  The embedding has three
    layers:

    - [JSNumber]: the ECMAScript number/string conversions the script calls
      ([ToNumber] on strings, [parseFloat], [Number::toString],
      [Number.prototype.toFixed]) over IEEE-754 binary64 ([PrimFloat.float]);
    - [Intl]: [new Intl.NumberFormat().format] for a host locale;
    - [App]: the page state and the handlers, one function per handler. *)

From Stdlib Require Import ZArith NArith List String Ascii Bool Lia Floats.
From Stdlib Require Import Decimal DecimalString DecimalN DecimalPos DecimalFacts.
From Stdlib Require Uint63.
Import ListNotations.

Local Open Scope string_scope.
Local Open Scope Z_scope.

(** ** ECMAScript numbers and their string forms *)
Module JSNumber.

(** JavaScript numbers are IEEE-754 binary64 values: [PrimFloat.float]. *)
Definition number := float.

Definition NaN : number := PrimFloat.nan.

(** [round_ratio p q]: the binary64 value nearest to the rational [p / q]
    (ties to even), with overflow to infinity and underflow to zero.  The
    quotient is rounded once, by the reference division of [SpecFloat]. *)
Definition round_ratio (p q : positive) : number :=
  SF2Prim (SFdiv prec emax (S754_finite false p 0) (S754_finite false q 0)).

(** [round_decimal m e]: the binary64 value nearest to [m * 10^e], [m >= 0].
    Exponents far outside the binary64 range are settled without building
    the power of ten. *)
Definition round_decimal (m : N) (e : Z) : number :=
  match m with
  | N0 => PrimFloat.zero
  | Npos p =>
      if 400 <? e then PrimFloat.infinity
      else if e + Z.log2 (Zpos p) + 1 <? -400 then PrimFloat.zero
      else match e with
           | Z0 => round_ratio p 1
           | Zpos k => round_ratio (p * Pos.pow 10 k) 1
           | Zneg k => round_ratio p (Pos.pow 10 k)
           end
  end.

Definition signed (neg : bool) (x : number) : number :=
  if neg then PrimFloat.opp x else x.

(** Whether [m * 10^e] rounds to infinity, that is, reaches
    [(2^54 - 1) * 2^970], halfway between the largest finite binary64 value
    and [2^1024]; and whether it rounds to zero, that is, does not exceed
    [2^-1075], half the smallest positive binary64 value. *)
Definition overflows (m : N) (e : Z) : bool :=
  match m with
  | N0 => false
  | Npos p =>
      if 400 <? e then true
      else
        let bound := (2 ^ 54 - 1) * 2 ^ 970 in
        match e with
        | Z0 => bound <=? Zpos p
        | Zpos k => bound <=? Zpos p * 10 ^ Zpos k
        | Zneg k => bound * 10 ^ Zpos k <=? Zpos p
        end
  end.

Definition underflows (m : N) (e : Z) : bool :=
  match m with
  | N0 => true
  | Npos p =>
      if e + Z.log2 (Zpos p) + 1 <? -400 then true
      else
        match e with
        | Zneg k => Zpos p * 2 ^ 1075 <=? 10 ^ Zpos k
        | _ => false
        end
  end.

(** *** Lexical helpers *)

(** StrWhiteSpaceChar, restricted to the ASCII range: TAB, LF, VT, FF, CR and
    SPACE (strings are byte sequences here; the non-ASCII space characters of
    the grammar are not recognised). *)
Definition is_white (c : ascii) : bool :=
  let n := nat_of_ascii c in
  ((9 <=? n) && (n <=? 13))%nat || (n =? 32)%nat.

Fixpoint trim_start (s : string) : string :=
  match s with
  | String c s' => if is_white c then trim_start s' else s
  | EmptyString => EmptyString
  end.

Fixpoint all_white (s : string) : bool :=
  match s with
  | String c s' => is_white c && all_white s'
  | EmptyString => true
  end.

Fixpoint trim_end (s : string) : string :=
  match s with
  | String c s' => if all_white s then EmptyString else String c (trim_end s')
  | EmptyString => EmptyString
  end.

Definition trim (s : string) : string := trim_end (trim_start s).

Fixpoint take (n : nat) (s : string) : string :=
  match n, s with
  | S n', String c s' => String c (take n' s')
  | _, _ => EmptyString
  end.

Fixpoint drop (n : nat) (s : string) : string :=
  match n, s with
  | S n', String _ s' => drop n' s'
  | _, _ => s
  end.

Fixpoint replicate (n : nat) (c : ascii) : string :=
  match n with
  | O => EmptyString
  | S n' => String c (replicate n' c)
  end.

(** [strip_prefix p s]: the rest of [s] after the prefix [p], if [s] starts
    with [p]. *)
Fixpoint strip_prefix (p s : string) : option string :=
  match p, s with
  | EmptyString, _ => Some s
  | String a p', String b s' =>
      if Ascii.eqb a b then strip_prefix p' s' else None
  | String _ _, EmptyString => None
  end.

(** A decimal digit as a constructor of [Decimal.uint]. *)
Definition digit_char (c : ascii) : option (uint -> uint) :=
  match c with
  | "0"%char => Some D0 | "1"%char => Some D1 | "2"%char => Some D2
  | "3"%char => Some D3 | "4"%char => Some D4 | "5"%char => Some D5
  | "6"%char => Some D6 | "7"%char => Some D7 | "8"%char => Some D8
  | "9"%char => Some D9 | _ => None
  end.

(** The longest run of decimal digits at the head of [s], most significant
    digit first, and what follows it. *)
Fixpoint span_digits (s : string) : uint * string :=
  match s with
  | String c s' =>
      match digit_char c with
      | Some d => let (u, r) := span_digits s' in (d u, r)
      | None => (Nil, s)
      end
  | EmptyString => (Nil, s)
  end.

Definition is_nil (u : uint) : bool :=
  match u with Nil => true | _ => false end.

(** The decimal digits of a natural number, ["0"] for zero. *)
Definition digits_of_N (n : N) : string :=
  NilZero.string_of_uint (N.to_uint n).

(** *** StrDecimalLiteral *)

(** StrUnsignedDecimalLiteral: [Infinity], or an integer part, a fraction
    part (either may be empty, not both) and a decimal exponent. *)
Inductive unsigned_literal :=
| LInfinity
| LDecimal (ip fp : uint) (e : Z).

Record literal := Literal { lit_neg : bool; lit_body : unsigned_literal }.

(** ExponentPart, if a complete one starts [s]: [e] or [E], an optional sign
    and at least one digit.  Otherwise exponent 0 and [s] untouched. *)
Definition parse_exponent (s : string) : Z * string :=
  match s with
  | String c s' =>
      if (Ascii.eqb c "e" || Ascii.eqb c "E")%bool then
        let '(neg, s'') :=
          match s' with
          | String "-" t => (true, t)
          | String "+" t => (false, t)
          | _ => (false, s')
          end in
        let (ed, r) := span_digits s'' in
        if is_nil ed then (0, s)
        else ((if neg then - Z.of_N (N.of_uint ed) else Z.of_N (N.of_uint ed)), r)
      else (0, s)
  | EmptyString => (0, s)
  end.

(** The longest prefix of [s] that is a StrUnsignedDecimalLiteral, and the
    rest of [s]. *)
Definition parse_unsigned (s : string) : option (unsigned_literal * string) :=
  match strip_prefix "Infinity" s with
  | Some r => Some (LInfinity, r)
  | None =>
      let (ip, r1) := span_digits s in
      match r1 with
      | String "." r1' =>
          let (fp, r2) := span_digits r1' in
          if (is_nil ip && is_nil fp)%bool then None
          else let (e, r3) := parse_exponent r2 in Some (LDecimal ip fp e, r3)
      | _ =>
          if is_nil ip then None
          else let (e, r3) := parse_exponent r1 in Some (LDecimal ip Nil e, r3)
      end
  end.

(** The longest prefix of [s] that is a StrDecimalLiteral. *)
Definition parse_literal (s : string) : option (literal * string) :=
  let '(neg, body) :=
    match s with
    | String "-" t => (true, t)
    | String "+" t => (false, t)
    | _ => (false, s)
    end in
  match parse_unsigned body with
  | Some (u, r) => Some (Literal neg u, r)
  | None => None
  end.

(** The mathematical value of a finite literal is [mantissa * 10^exponent]. *)
Definition mantissa (ip fp : uint) : N := N.of_uint (Decimal.app ip fp).
Definition exponent (fp : uint) (e : Z) : Z := e - Z.of_nat (nb_digits fp).

(** RoundMVResult, with the sign of the literal. *)
Definition literal_value (l : literal) : number :=
  match lit_body l with
  | LInfinity => signed (lit_neg l) PrimFloat.infinity
  | LDecimal ip fp e =>
      signed (lit_neg l) (round_decimal (mantissa ip fp) (exponent fp e))
  end.

(** *** NonDecimalIntegerLiteral: 0x, 0o, 0b *)

Definition radix_digit (c : ascii) : option N :=
  let n := N_of_ascii c in
  if ((48 <=? n) && (n <=? 57))%N then Some (n - 48)%N
  else if ((97 <=? n) && (n <=? 102))%N then Some (n - 87)%N
  else if ((65 <=? n) && (n <=? 70))%N then Some (n - 55)%N
  else None.

Fixpoint radix_digits (radix : N) (acc : N) (s : string) : option N :=
  match s with
  | EmptyString => Some acc
  | String c s' =>
      match radix_digit c with
      | Some d =>
          if (d <? radix)%N then radix_digits radix (acc * radix + d)%N s'
          else None
      | None => None
      end
  end.

Definition parse_non_decimal (s : string) : option N :=
  match s with
  | String "0" (String c (String d r)) =>
      let body := String d r in
      if (Ascii.eqb c "x" || Ascii.eqb c "X")%bool then radix_digits 16 0 body
      else if (Ascii.eqb c "o" || Ascii.eqb c "O")%bool then radix_digits 8 0 body
      else if (Ascii.eqb c "b" || Ascii.eqb c "B")%bool then radix_digits 2 0 body
      else None
  | _ => None
  end.

(** *** StringToNumber and parseFloat *)

(** [StringToNumber]: [ToNumber] applied to a string.  The whole trimmed
    string must be a numeric literal; the empty string is [+0]. *)
Definition StringToNumber (s : string) : number :=
  let t := trim s in
  match t with
  | EmptyString => PrimFloat.zero
  | _ =>
      match parse_non_decimal t with
      | Some n => round_decimal n 0
      | None =>
          match parse_literal t with
          | Some (l, EmptyString) => literal_value l
          | _ => NaN
          end
      end
  end.

(** [parseFloat]: the longest prefix of the string, after leading white
    space, that is a StrDecimalLiteral; [NaN] when there is none. *)
Definition parseFloat (s : string) : number :=
  match parse_literal (trim_start s) with
  | Some (l, _) => literal_value l
  | None => NaN
  end.

(** *** The exact value of a finite number *)

(** A finite non-zero binary64 value is [m * 2^e] up to its sign
    ([Prim2SF]); as a fraction of positive integers: *)
Definition ratio (m : positive) (e : Z) : positive * positive :=
  match e with
  | Z0 => (m, 1%positive)
  | Zpos k => ((m * Pos.pow 2 k)%positive, 1%positive)
  | Zneg k => (m, Pos.pow 2 k)
  end.

(** [p / q] scaled by [10^t], as a fraction again. *)
Definition scaled (p q : positive) (t : Z) : positive * positive :=
  match t with
  | Z0 => (p, q)
  | Zpos k => ((p * Pos.pow 10 k)%positive, q)
  | Zneg k => (p, (q * Pos.pow 10 k)%positive)
  end.

(** *** Number::toString (radix 10) *)

Fixpoint scale_up (fuel : nat) (p q : positive) (j : Z) : Z :=
  match fuel with
  | O => j
  | S fuel' =>
      if (q <=? p)%positive then j
      else scale_up fuel' (10 * p)%positive q (j + 1)
  end.

(** The integer [n] with [10^(n-1) <= p/q < 10^n]. *)
Definition decimal_exponent (p q : positive) : Z :=
  if (q <=? p)%positive
  then Z.of_nat (nb_digits (N.to_uint (Npos p / Npos q)))
  else 1 - scale_up 400 (10 * p)%positive q 1.

(** [c * 10^e] reads back as [x]. *)
Definition reads_back (x : number) (c : N) (e : Z) : bool :=
  PrimFloat.eqb (round_decimal c e) x.

(** The shortest digits: for k = 1, 2, ... the two k-digit neighbours of
    [p/q] are tried, and the first k at which one of them reads back as [x]
    is kept (the closer neighbour when both do, the even one on a tie).
    Seventeen digits always suffice for binary64. *)
Fixpoint shortest_from (fuel : nat) (k : Z) (x : number) (p q : positive)
  (n0 : Z) : N * Z :=
  let (num, den) := scaled p q (k - n0) in
  let lo := (Npos num / Npos den)%N in
  let r := (Npos num mod Npos den)%N in
  let hi := (lo + 1)%N in
  let e := n0 - k in
  let ok_lo := reads_back x lo e in
  let ok_hi := (negb (r =? 0)%N && reads_back x hi e)%bool in
  if (ok_lo && ok_hi)%bool then
    match (2 * r ?= Npos den)%N with
    | Lt => (lo, e)
    | Gt => (hi, e)
    | Eq => if N.even lo then (lo, e) else (hi, e)
    end
  else if ok_lo then (lo, e)
  else if ok_hi then (hi, e)
  else match fuel with
       | O => (lo, e)
       | S fuel' => shortest_from fuel' (k + 1) x p q n0
       end.

Fixpoint strip_zeros (fuel : nat) (c : N) (e : Z) : N * Z :=
  match fuel with
  | O => (c, e)
  | S fuel' =>
      if ((0 <? c) && (c mod 10 =? 0))%N
      then strip_zeros fuel' (c / 10)%N (e + 1)
      else (c, e)
  end.

(** The digits [s] (as a number), and the exponent [e] with [s * 10^e]
    the shortest decimal that reads back as the positive finite [x]. *)
Definition shortest_decimal (x : number) (m : positive) (e : Z) : N * Z :=
  let (p, q) := ratio m e in
  let (c, e') := shortest_from 16 1 x p q (decimal_exponent p q) in
  strip_zeros 20 c e'.

(** Number::toString steps 5 to 12, from the digits, their count [k] and the
    position [n] of the decimal point. *)
Definition render_decimal (digits : string) (n : Z) : string :=
  let k := Z.of_nat (String.length digits) in
  if ((-5 <=? n) && (n <=? 21))%bool then
    if k <=? n then digits ++ replicate (Z.to_nat (n - k)) "0"
    else if 0 <? n then
      take (Z.to_nat n) digits ++ "." ++ drop (Z.to_nat n) digits
    else "0." ++ replicate (Z.to_nat (- n)) "0" ++ digits
  else
    let e := n - 1 in
    let sign := if e <? 0 then "-" else "+" in
    let ed := digits_of_N (Z.to_N (Z.abs e)) in
    if k =? 1 then digits ++ "e" ++ sign ++ ed
    else take 1 digits ++ "." ++ drop 1 digits ++ "e" ++ sign ++ ed.

Definition sign_text (neg : bool) : string := if neg then "-" else "".

Definition toString_finite (x : number) (m : positive) (e : Z) : string :=
  let (c, e') := shortest_decimal x m e in
  let digits := digits_of_N c in
  render_decimal digits (e' + Z.of_nat (String.length digits)).

Definition Number_toString (x : number) : string :=
  match Prim2SF x with
  | S754_nan => "NaN"
  | S754_zero _ => "0"
  | S754_infinity s => if s then "-Infinity" else "Infinity"
  | S754_finite s m e => sign_text s ++ toString_finite (PrimFloat.abs x) m e
  end.

(** *** Number.prototype.toFixed *)

(** The integer [n] for which [n / 10^f] is closest to [p / q], the larger
    one when two are equally close (toFixed, step 10.a). *)
Definition nearest_scaled (f : nat) (p q : positive) : N :=
  ((2 * (Npos p * 10 ^ N.of_nat f) + Npos q) / (2 * Npos q))%N.

(** Digit sequences are [Decimal.uint], most significant digit first;
    [str] spells one out. *)
Definition str (u : uint) : string := NilEmpty.string_of_uint u.

(** The digits of [n], padded with zeros on the left to more than [f]
    digits. *)
Definition padded_digits (f : nat) (n : N) : uint :=
  let u := N.to_uint n in
  let k := nb_digits u in
  if (k <=? f)%nat then Nat.iter (f + 1 - k) D0 u else u.

(** All but the last [f] digits, and the last [f] digits. *)
Definition integer_digits (f : nat) (u : uint) : uint := del_tail f u.
Definition fraction_digits (f : nat) (u : uint) : uint :=
  del_head (nb_digits u - f) u.

(** toFixed steps 10.b to 10.c: the digits of [n] with a point before the
    last [f] of them, padded with zeros on the left to [f + 1] digits. *)
Definition fixed_digits (f : nat) (n : N) : string :=
  match f with
  | O => digits_of_N n
  | _ =>
      let u := padded_digits f n in
      str (integer_digits f u) ++ "." ++ str (fraction_digits f u)
  end.

(** [x.toFixed(f)] for [0 <= f <= 100].  A magnitude of [10^21] or more is
    printed by Number::toString (step 9); so are [NaN] and the infinities. *)
Definition toFixed (f : nat) (x : number) : string :=
  match Prim2SF x with
  | S754_nan => "NaN"
  | S754_infinity s => if s then "-Infinity" else "Infinity"
  | S754_zero _ => fixed_digits f 0
  | S754_finite s m e =>
      let (p, q) := ratio m e in
      sign_text s ++
      (if (Pos.pow 10 21 * q <=? p)%positive
       then toString_finite (PrimFloat.abs x) m e
       else fixed_digits f (nearest_scaled f p q))
  end.

(** [x] is finite and its magnitude is below [10^21]: the numbers toFixed
    prints in fixed-point notation. *)
Definition below_1e21 (x : number) : bool :=
  match Prim2SF x with
  | S754_zero _ => true
  | S754_finite _ m e =>
      let (p, q) := ratio m e in negb (Pos.pow 10 21 * q <=? p)%positive
  | _ => false
  end.

End JSNumber.

(** ** ECMAScript values held by the script's variables *)
Module JSValue.
Import JSNumber.

(** The primitive values a variable of the script can hold: [undefined]
    (a missing property of the parsed response), [null], booleans, numbers
    and strings.  Objects and arrays never reach the arithmetic of the
    script unless the rate service answers with one; they are not modelled. *)
Inductive value :=
| VUndefined
| VNull
| VBoolean (b : bool)
| VNumber (x : number)
| VString (s : string).

Definition ToNumber (v : value) : number :=
  match v with
  | VUndefined => NaN
  | VNull => PrimFloat.zero
  | VBoolean b => if b then PrimFloat.one else PrimFloat.zero
  | VNumber x => x
  | VString s => StringToNumber s
  end.

Definition ToString (v : value) : string :=
  match v with
  | VUndefined => "undefined"
  | VNull => "null"
  | VBoolean b => if b then "true" else "false"
  | VNumber x => Number_toString x
  | VString s => s
  end.

(** ToBoolean of a number: false for [+0], [-0] and [NaN]. *)
Definition truthy (x : number) : bool :=
  negb (PrimFloat.is_zero x || PrimFloat.is_nan x).

(** [x || y] on numbers. *)
Definition or_else (x y : number) : number := if truthy x then x else y.

(** [a * b] and [a / b] after ToNumeric of both operands. *)
Definition js_mul (a b : value) : number :=
  PrimFloat.mul (ToNumber a) (ToNumber b).
Definition js_div (a b : value) : number :=
  PrimFloat.div (ToNumber a) (ToNumber b).

(** [a > b] and [a <= b]: both false when either side converts to [NaN]. *)
Definition js_gt (a b : value) : bool := PrimFloat.ltb (ToNumber b) (ToNumber a).
Definition js_le (a b : value) : bool := PrimFloat.leb (ToNumber a) (ToNumber b).

End JSValue.

(** ** Intl.NumberFormat with default options *)
Module Intl.
Import JSNumber JSValue.

(** What a locale contributes to the [decimal] style. *)
Record locale := Locale {
  decimal_separator : string;
  group_separator : string;
  minus_sign : string;
  nan_symbol : string;
  infinity_symbol : string;
  minimum_grouping_digits : nat
}.

Definition en_US : locale :=
  {| decimal_separator := ".";
     group_separator := ",";
     minus_sign := "-";
     nan_symbol := "NaN";
     infinity_symbol := "∞";
     minimum_grouping_digits := 1 |}.

(** The value to format (ToIntlMathematicalValue): a string is read as the
    exact decimal it spells, not as the binary64 value nearest to it. *)
Inductive mathematical_value :=
| NotANumber
| PositiveInfinity
| NegativeInfinity
| NegativeZero
| Finite (neg : bool) (m : N) (e : Z).

(** ToIntlMathematicalValue, step 9: a decimal whose magnitude rounds to
    infinity or to zero as a binary64 value is formatted as such; any other
    is kept exactly. *)
Definition classify_decimal (neg : bool) (m : N) (e : Z) : mathematical_value :=
  if overflows m e
  then (if neg then NegativeInfinity else PositiveInfinity)
  else if underflows m e
  then (if neg then NegativeZero else Finite false 0 0)
  else Finite neg m e.

Definition StringIntlMV (str : string) : mathematical_value :=
  let t := trim str in
  match t with
  | EmptyString => Finite false 0 0
  | _ =>
      match parse_non_decimal t with
      | Some n => classify_decimal false n 0
      | None =>
          match parse_literal t with
          | Some (Literal neg LInfinity, EmptyString) =>
              if neg then NegativeInfinity else PositiveInfinity
          | Some (Literal neg (LDecimal ip fp e), EmptyString) =>
              classify_decimal neg (mantissa ip fp) (exponent fp e)
          | _ => NotANumber
          end
      end
  end.

Definition ToIntlMathematicalValue (v : value) : mathematical_value :=
  match v with
  | VString str => StringIntlMV str
  | _ =>
      let x := ToNumber v in
      if (PrimFloat.is_zero x && PrimFloat.get_sign x)%bool then NegativeZero
      else StringIntlMV (Number_toString x)
  end.

(** ToRawFixed with at most [f] fraction digits, rounding mode half-expand:
    the integer [n] with [n / 10^f] nearest to [m * 10^e], ties away from
    zero. *)
Definition round_half_expand (f : nat) (m : N) (e : Z) : N :=
  match (e + Z.of_nat f)%Z with
  | Z0 => m
  | Zpos k => (m * 10 ^ Npos k)%N
  | Zneg k =>
      let d := (10 ^ Npos k)%N in
      let n1 := (m / d)%N in
      if (d <=? 2 * (m mod d))%N then (n1 + 1)%N else n1
  end.

Fixpoint group_aux (sep : string) (until : nat) (s : string) : string :=
  match s with
  | EmptyString => EmptyString
  | String c s' =>
      match until with
      | O => sep ++ String c (group_aux sep 2 s')
      | S u => String c (group_aux sep u s')
      end
  end.

(** Groups of three integer digits, counted from the right, once the
    integer part has at least [3 + minimum_grouping_digits] digits. *)
Definition group (l : locale) (digits : string) : string :=
  let len := String.length digits in
  if (len <? 3 + minimum_grouping_digits l)%nat then digits
  else
    let r := (len mod 3)%nat in
    group_aux (group_separator l) (if (r =? 0)%nat then 3 else r)%nat digits.

(** The magnitude [n / 10^f] with grouped integer digits and a fraction
    without its trailing zeros (minimumFractionDigits is 0); no separator
    when nothing is left of the fraction. *)
Definition format_magnitude (l : locale) (f : nat) (n : N) : string :=
  let u := padded_digits f n in
  let ip := integer_digits f u in
  match nztail (fraction_digits f u) with
  | Nil => group l (str ip)
  | fp => group l (str ip) ++ decimal_separator l ++ str fp
  end.

(** [new Intl.NumberFormat(l).format(v)]: style [decimal], at least one
    integer digit, zero to three fraction digits, grouping [auto],
    sign display [auto]. *)
Definition format (l : locale) (v : value) : string :=
  match ToIntlMathematicalValue v with
  | NotANumber => nan_symbol l
  | PositiveInfinity => infinity_symbol l
  | NegativeInfinity => minus_sign l ++ infinity_symbol l
  | NegativeZero => minus_sign l ++ format_magnitude l 3 0
  | Finite neg m e =>
      (if neg then minus_sign l else "") ++
      format_magnitude l 3 (round_half_expand 3 m e)
  end.

End Intl.

(** ** The page: state and event handlers of app-script.js

    The markup of the page is not among the sources.  The amount field is
    taken as a text field, whose [value] reads back as it was assigned (a
    number field would turn a text that is no number into the empty text);
    the two dropdowns are taken to offer the same codes, so that exchanging
    their values selects existing options; and [src] of an image reads back
    as it was assigned. *)
Module App.
Import JSNumber JSValue.

(** The DOM properties the script reads and writes, and its four
    module-level variables (lines 46 to 55).  [targetCurrentValue] starts as
    the number 0 and holds a string after the first recomputation;
    [conversionRate] holds whatever the response carried. *)
Record state := State {
  inputSourceCurrency_value : string;
  selectSourceCurrency_value : string;
  selectTargetCurrency_value : string;
  imageSourceCurrency_src : string;
  imageTargetCurrency_src : string;
  exchangeRateText_textContent : string;
  isFetching : bool;
  conversionRate : value;
  sourceCurrentValue : number;
  targetCurrentValue : value
}.

Definition set_input (v : string) (s : state) : state :=
  State v (selectSourceCurrency_value s) (selectTargetCurrency_value s)
    (imageSourceCurrency_src s) (imageTargetCurrency_src s)
    (exchangeRateText_textContent s) (isFetching s) (conversionRate s)
    (sourceCurrentValue s) (targetCurrentValue s).

Definition set_selects (src tgt : string) (s : state) : state :=
  State (inputSourceCurrency_value s) src tgt
    (imageSourceCurrency_src s) (imageTargetCurrency_src s)
    (exchangeRateText_textContent s) (isFetching s) (conversionRate s)
    (sourceCurrentValue s) (targetCurrentValue s).

Definition set_images (src tgt : string) (s : state) : state :=
  State (inputSourceCurrency_value s) (selectSourceCurrency_value s)
    (selectTargetCurrency_value s) src tgt
    (exchangeRateText_textContent s) (isFetching s) (conversionRate s)
    (sourceCurrentValue s) (targetCurrentValue s).

Definition set_text (t : string) (s : state) : state :=
  State (inputSourceCurrency_value s) (selectSourceCurrency_value s)
    (selectTargetCurrency_value s) (imageSourceCurrency_src s)
    (imageTargetCurrency_src s) t (isFetching s) (conversionRate s)
    (sourceCurrentValue s) (targetCurrentValue s).

Definition set_isFetching (b : bool) (s : state) : state :=
  State (inputSourceCurrency_value s) (selectSourceCurrency_value s)
    (selectTargetCurrency_value s) (imageSourceCurrency_src s)
    (imageTargetCurrency_src s) (exchangeRateText_textContent s) b
    (conversionRate s) (sourceCurrentValue s) (targetCurrentValue s).

Definition set_conversionRate (r : value) (s : state) : state :=
  State (inputSourceCurrency_value s) (selectSourceCurrency_value s)
    (selectTargetCurrency_value s) (imageSourceCurrency_src s)
    (imageTargetCurrency_src s) (exchangeRateText_textContent s)
    (isFetching s) r (sourceCurrentValue s) (targetCurrentValue s).

Definition set_amounts (src : number) (tgt : value) (s : state) : state :=
  State (inputSourceCurrency_value s) (selectSourceCurrency_value s)
    (selectTargetCurrency_value s) (imageSourceCurrency_src s)
    (imageTargetCurrency_src s) (exchangeRateText_textContent s)
    (isFetching s) (conversionRate s) src tgt.

(** What a handler does to the world outside the page state. *)
Inductive effect :=
| Alert (message : string)
| Fetch (url : string)
| ConsoleLog (message : string).

(** The two dropdowns. *)
Inductive role := Source | Target.

(** An entry of the imported table [currencyToFlagCode]. *)
Record flag_data := FlagData { name : string; flag : string }.

(** How the two awaits of [handleConvert] (lines 132 and 135) end: [fetch]
    rejects, [response.json()] rejects, or the body parses.  A parsed body is
    [null], or a value whose [conversion_rate] property reads as the carried
    value ([VUndefined] when the property is absent). *)
Inductive response_data :=
| DataNull
| DataWith (conversion_rate : value).

Inductive fetch_outcome :=
| FetchRejected
| BodyNotJSON
| Parsed (data : response_data).

(** The awaits of [handleConvert] end in the [catch] block. *)
Definition raises (o : fetch_outcome) : bool :=
  match o with
  | Parsed (DataWith _) => false
  | _ => true
  end.

(** The amount field does not read as a positive number: the test on line
    111, [inputSourceCurrency.value <= 0]. *)
Definition amount_not_positive (s : state) : bool :=
  js_le (VString (inputSourceCurrency_value s)) (VNumber PrimFloat.zero).

Definition API_Key : string := "b20b342878a7581b47213640".

Definition LF : string := String (ascii_of_nat 10) EmptyString.

Section Handlers.

(** The host's default locale (what [new Intl.NumberFormat()] resolves to)
    and the table of [./currency-to-flag-code.js], which is not part of the
    sources at hand. *)
Variable host_locale : Intl.locale.
Variable currencyToFlagCode : string -> option flag_data.

(** Lines 276 to 278. *)
Definition formatCurrency (number : value) : string :=
  Intl.format host_locale number.

(** Lines 181 to 191. *)
Definition updateExchangeRate (s : state) : state :=
  let source := or_else (parseFloat (inputSourceCurrency_value s)) PrimFloat.zero in
  let target := VString (toFixed 2 (js_mul (VNumber source) (conversionRate s))) in
  let s1 := set_amounts source target s in
  set_text
    (formatCurrency (VNumber source) ++ " " ++ selectSourceCurrency_value s1
       ++ " " ++ LF ++ "    = "
       ++ formatCurrency target ++ " " ++ selectTargetCurrency_value s1)
    s1.

(** Lines 244 to 265. *)
Definition changeFlag (selectElement : role) (s : state) : state :=
  let selectValue :=
    match selectElement with
    | Source => selectSourceCurrency_value s
    | Target => selectTargetCurrency_value s
    end in
  match currencyToFlagCode selectValue with
  | None => s
  | Some flagData =>
      let url := "https://flagcdn.com/w640/" ++ flag flagData ++ ".png" in
      match selectElement with
      | Source => set_images url (imageTargetCurrency_src s) s
      | Target => set_images (imageSourceCurrency_src s) url s
      end
  end.

(** The click handler of [buttonSwap], lines 62 to 79. *)
Definition buttonSwap_click (s : state) : state :=
  let s1 := set_selects (selectTargetCurrency_value s) (selectSourceCurrency_value s) s in
  let s2 := set_images (imageTargetCurrency_src s1) (imageSourceCurrency_src s1) s1 in
  let s3 := set_input (ToString (targetCurrentValue s2)) s2 in
  let s4 :=
    if isFetching s3
    then set_conversionRate (VNumber (js_div (VNumber PrimFloat.one) (conversionRate s3))) s3
    else s3 in
  updateExchangeRate s4.

(** The [input] handler of [inputSourceCurrency], lines 86 to 99; the
    browser has stored the typed text in the field before it runs. *)
Definition inputSourceCurrency_input (s : state) : state :=
  let s1 :=
    if (isFetching s && js_gt (VString (inputSourceCurrency_value s)) (VNumber PrimFloat.zero))%bool
    then updateExchangeRate s
    else s in
  if isFetching s1 then
    let s2 :=
      if String.eqb (inputSourceCurrency_value s1) ""
      then set_input "" s1
      else s1 in
    updateExchangeRate s2
  else s1.

Definition pair_url (src tgt : string) : string :=
  "https://v6.exchangerate-api.com/v6/" ++ API_Key ++ "/pair/" ++ src ++ "/" ++ tgt.

(** [handleConvert] up to its first [await], lines 109 to 132.  [online] is
    [navigator.onLine] at that moment. *)
Definition handleConvert_begin (online : bool) (s : state) : state * list effect :=
  if js_le (VString (inputSourceCurrency_value s)) (VNumber PrimFloat.zero) then
    (s, [Alert "Please enter a valid amount."])
  else if negb online then
    (set_text "No internet connection!" s,
     [Alert "You are offline. Please check your internet connection."])
  else
    let s1 := set_text "Fetching exchange rate, please wait..." s in
    (s1, [Fetch (pair_url (selectSourceCurrency_value s1) (selectTargetCurrency_value s1))]).

(** The [catch] block, lines 145 to 156. *)
Definition handleConvert_catch (online : bool) (s : state) : state * list effect :=
  (set_text
     (if negb online then "No internet connection!" else "Error fetching exchange rate!")
     s,
   [ConsoleLog "Error fetching exchange rate!"]).

(** [handleConvert] from the settlement of its awaits on, lines 132 to 156.
    The page state is read and written only here, whatever happened to it
    while the request was in flight.  Reading [conversion_rate] of [null]
    throws inside the [try]. *)
Definition handleConvert_resume (online : bool) (o : fetch_outcome) (s : state)
  : state * list effect :=
  match o with
  | FetchRejected | BodyNotJSON | Parsed DataNull => handleConvert_catch online s
  | Parsed (DataWith rate) =>
      (updateExchangeRate (set_isFetching true (set_conversionRate rate s)), [])
  end.

(** The [change] handler of a dropdown, lines 211 to 223; the browser has
    stored the chosen code in the dropdown before it runs. *)
Definition selectElement_change (selectElement : role) (s : state) : state :=
  let s1 := set_input (ToString (VNumber PrimFloat.zero)) s in
  let s2 := set_isFetching false s1 in
  let s3 := updateExchangeRate s2 in
  changeFlag selectElement s3.

(** *** The page as an event-driven machine *)

(** The page together with the requests that were issued and have not
    settled yet, oldest first, and everything the handlers did so far. *)
Record world := World {
  page : state;
  in_flight : list string;
  trace : list effect
}.

Inductive event :=
| SwapClick
| InputText (text : string)
| ConvertClick (online : bool)
| EnterKey (online : bool)
| SelectChange (r : role) (code : string)
| Settle (request : nat) (online : bool) (o : fetch_outcome).

Definition fetched (es : list effect) : list string :=
  flat_map (fun e => match e with Fetch url => [url] | _ => [] end) es.

Fixpoint remove_nth {A} (n : nat) (l : list A) : list A :=
  match n, l with
  | _, [] => []
  | O, _ :: l' => l'
  | S n', x :: l' => x :: remove_nth n' l'
  end.

Definition convert (online : bool) (w : world) : world :=
  let (s, es) := handleConvert_begin online (page w) in
  World s (in_flight w ++ fetched es) (trace w ++ es).

Definition step (w : world) (e : event) : world :=
  match e with
  | SwapClick => World (buttonSwap_click (page w)) (in_flight w) (trace w)
  | InputText text =>
      World (inputSourceCurrency_input (set_input text (page w))) (in_flight w) (trace w)
  | ConvertClick online => convert online w
  | EnterKey online => convert online w
  | SelectChange r code =>
      let s :=
        match r with
        | Source => set_selects code (selectTargetCurrency_value (page w)) (page w)
        | Target => set_selects (selectSourceCurrency_value (page w)) code (page w)
        end in
      World (selectElement_change r s) (in_flight w) (trace w)
  | Settle request online o =>
      match nth_error (in_flight w) request with
      | None => w
      | Some _ =>
          let (s, es) := handleConvert_resume online o (page w) in
          World s (remove_nth request (in_flight w)) (trace w ++ es)
      end
  end.

Definition run (w : world) (es : list event) : world := fold_left step es w.

(** The page once the script has run: the variables as initialised on
    lines 46 to 55, the dropdowns on their defaults (lines 226 to 233), and
    what the markup gives the other elements. *)
Definition initial (input image_source image_target text : string) : world :=
  World
    (State input "USD" "PHP" image_source image_target text
       false (VNumber PrimFloat.zero) PrimFloat.zero (VNumber PrimFloat.zero))
    [] [].

End Handlers.

End App.

(** ** A table and a page for the worked examples *)
Module Example.
Import JSNumber JSValue App.

(** Three entries in the shape of [currencyToFlagCode]. *)
Definition table (code : string) : option flag_data :=
  if String.eqb code "USD" then Some (FlagData "United States Dollar" "us")
  else if String.eqb code "PHP" then Some (FlagData "Philippine Peso" "ph")
  else if String.eqb code "EUR" then Some (FlagData "Euro" "eu")
  else None.

(** The page right after loading, with an empty amount field. *)
Definition fresh : world :=
  initial "" "https://flagcdn.com/w640/us.png" "https://flagcdn.com/w640/ph.png" "".

Definition step := App.step Intl.en_US table.
Definition run := App.run Intl.en_US table.

(** The page after the user typed 100, asked for the rate, and the service
    answered 56 for USD/PHP. *)
Definition converted : world :=
  run fresh
    [InputText "100"; ConvertClick true;
     Settle 0 true (Parsed (DataWith (VNumber 56%float)))].

End Example.

(** ** What the rounding and the formatting are compared with *)
Module Spec.
Import JSNumber.

(** [n / 100] is the multiple of one hundredth nearest to [p / q], the
    larger of the two when [p / q] lies halfway between them. *)
Definition nearest_hundredth (p q : positive) (n : N) : Prop :=
  2 * Z.of_N n * Zpos q - Zpos q <= 200 * Zpos p < 2 * Z.of_N n * Zpos q + Zpos q.

(** [s] spells [n / 100] in fixed-point notation with exactly two decimals:
    a sign, the digits [ip], a point and two digits [fp], where the digits
    [ip fp] read together are [n]. *)
Definition spells_hundredths (neg : bool) (n : N) (s : string) : Prop :=
  exists ip fp : uint,
    s = sign_text neg ++ str ip ++ "." ++ str fp /\
    ip <> Nil /\ nb_digits fp = 2%nat /\ N.of_uint (app ip fp) = n.

(** [s] is the number [x] rounded to two decimals: a finite [x] of magnitude
    below [10^21] is spelled as its nearest hundredth; any other [x]
    (an integer of 22 digits or more, an infinity, [NaN]) has no decimals to
    round and is printed as it is. *)
Definition rounded_to_hundredths (x : number) (s : string) : Prop :=
  match Prim2SF x with
  | S754_zero _ => spells_hundredths false 0 s
  | S754_finite sg m e =>
      let (p, q) := ratio m e in
      if (Pos.pow 10 21 * q <=? p)%positive then s = Number_toString x
      else exists n, nearest_hundredth p q n /\ spells_hundredths sg n s
  | _ => s = Number_toString x
  end.

(** A text at which a run of digits ends. *)
Definition stops_digits (rest : string) : Prop :=
  match rest with
  | EmptyString => True
  | String c _ => digit_char c = None
  end.

(** A text without white space. *)
Fixpoint no_white (s : string) : bool :=
  match s with
  | EmptyString => true
  | String c s' => negb (is_white c) && no_white s'
  end.

(** The digits [u] followed by one zero. *)
Definition tenfold (u : uint) : uint := app u (D0 Nil).

(** A text that starts with a minus sign. *)
Definition negative_text (s : string) : bool :=
  match s with
  | String "-" _ => true
  | _ => false
  end.

(** The sign of a binary64 value that is neither [NaN] nor a zero. *)
Definition sign_of (x : spec_float) : option bool :=
  match x with
  | S754_infinity s => Some s
  | S754_finite s _ _ => Some s
  | _ => None
  end.

(** The binary64 value 1, decoded. *)
Definition one_sf : spec_float := S754_finite false 4503599627370496 (-52).

(** The rates at which two reciprocals in a row stay among the normal
    numbers: from [2^-1021] up to, and without, [2^1022]. *)
Definition rate_lo : number := SF2Prim (S754_finite false 4503599627370496 (-1073)).
Definition rate_hi : number := SF2Prim (S754_finite false 4503599627370496 970).

Definition ordinary_rate (r : number) : bool :=
  PrimFloat.leb rate_lo r && PrimFloat.ltb r rate_hi.

(** [x] and [y] are finite and positive, and their exact values differ by at
    most [y * 2^-52] (the [Number.EPSILON] of the language, relative to [y]):
    both are written over the smaller of the two exponents and the integers
    are compared. *)
Definition within_epsilon (x y : number) : bool :=
  match Prim2SF x, Prim2SF y with
  | S754_finite false mx ex, S754_finite false my ey =>
      let e := Z.min ex ey in
      let X := Zpos mx * 2 ^ (ex - e) in
      let Y := Zpos my * 2 ^ (ey - e) in
      2 ^ 52 * Z.abs (X - Y) <=? Y
  | _, _ => false
  end.

End Spec.

(** ** The dropdowns, their options, and what holds of the page between events *)
Module Page.
Import JSNumber JSValue App.

(** [Number.isFinite]: neither [NaN] nor an infinity. *)
Definition finite_number (x : number) : bool :=
  match Prim2SF x with
  | S754_zero _ | S754_finite _ _ _ => true
  | _ => false
  end.

(** The value and the image of a dropdown, and the other dropdown. *)
Definition select_value (r : role) (s : state) : string :=
  match r with
  | Source => selectSourceCurrency_value s
  | Target => selectTargetCurrency_value s
  end.

Definition image_src (r : role) (s : state) : string :=
  match r with
  | Source => imageSourceCurrency_src s
  | Target => imageTargetCurrency_src s
  end.

Definition other (r : role) : role :=
  match r with Source => Target | Target => Source end.

(** The address [changeFlag] gives an image (lines 260 and 263). *)
Definition flag_url (flagData : flag_data) : string :=
  "https://flagcdn.com/w640/" ++ flag flagData ++ ".png".

(** The image of dropdown [r] is the flag the table gives its code. *)
Definition shows_flag (table : string -> option flag_data) (r : role) (s : state) : bool :=
  match table (select_value r s) with
  | Some flagData => String.eqb (image_src r s) (flag_url flagData)
  | None => false
  end.

Definition flags_match (table : string -> option flag_data) (s : state) : bool :=
  shows_flag table Source s && shows_flag table Target s.

(** The code a user picks is one the table has. *)
Definition offered (table : string -> option flag_data) (e : event) : bool :=
  match e with
  | SelectChange _ code =>
      match table code with Some _ => true | None => false end
  | _ => true
  end.

(** A request settles with a body that has, or lacks, a rate: the outcome
    that takes the success path of [handleConvert]. *)
Definition answers_with_rate (e : event) : bool :=
  match e with
  | Settle _ _ (Parsed (DataWith _)) => true
  | _ => false
  end.

(** No rate was stored yet: the variables hold what lines 46 to 55 gave
    them, or the zero amounts a recomputation makes of them. *)
Definition without_rate (s : state) : Prop :=
  isFetching s = false /\
  conversionRate s = VNumber PrimFloat.zero /\
  sourceCurrentValue s = PrimFloat.zero /\
  (targetCurrentValue s = VNumber PrimFloat.zero \/
   targetCurrentValue s = VString "0.00").

(** An [option] element of a dropdown. *)
Record option_element := OptionElement {
  option_value : string;
  option_textContent : string
}.

(** The table [currencyToFlagCode] written as the list of its entries, in
    the order [Object.entries] lists them: [property entries code] is
    [currencyToFlagCode[code]] for a code the table has as a property of its
    own, and nothing for any other. *)
Fixpoint property (entries : list (string * flag_data)) (code : string)
  : option flag_data :=
  match entries with
  | [] => None
  | (currency, flagCode) :: rest =>
      if String.eqb currency code then Some flagCode else property rest code
  end.

(** Lines 203 to 208 for one dropdown that holds [options]: an option is
    created for each entry and appended. *)
Definition appendOptions (entries : list (string * flag_data))
  (options : list option_element) : list option_element :=
  fold_left
    (fun selectElement entry =>
       let '(currency, flagCode) := entry in
       let newOptionElement := OptionElement currency (name flagCode) in
       (selectElement ++ [newOptionElement])%list)
    entries options.

(** Three entries in the shape of [currencyToFlagCode]. *)
Definition sample_entries : list (string * flag_data) :=
  [("USD", FlagData "United States Dollar" "us");
   ("PHP", FlagData "Philippine Peso" "ph");
   ("EUR", FlagData "Euro" "eu")].

End Page.

(** ** What the page counts as an amount *)
Module Amount.
Import JSNumber JSValue.

(** The amount the page computes from the text of the field (line 182):
    [parseFloat(text) || 0]. *)
Definition inputAmount (text : string) : number :=
  or_else (parseFloat text) PrimFloat.zero.

(** The field is blank: nothing but white space. *)
Definition blank_text (text : string) : bool :=
  match trim text with EmptyString => true | _ => false end.

(** The text is a decimal literal as a whole, white space around it set
    aside: an optional sign, then [Infinity] or digits with an optional
    point and an optional exponent. *)
Definition decimal_text (text : string) : bool :=
  match parse_literal (trim text) with
  | Some (_, EmptyString) => true
  | _ => false
  end.

(** The text is a [0x], [0o] or [0b] literal of value zero. *)
Definition zero_radix_text (text : string) : bool :=
  match parse_non_decimal (trim text) with
  | Some N0 => true
  | _ => false
  end.

(** The field is blank, or holds a number (the whole text reads as one)
    whose amount is zero or negative. *)
Definition number_not_positive (text : string) : bool :=
  blank_text text || zero_radix_text text
  || (decimal_text text && PrimFloat.leb (inputAmount text) PrimFloat.zero).

End Amount.

(** ** What a formatted amount shows *)
Module Shown.
Import JSNumber JSValue Intl Spec.

(** [thousands sep digits out]: [out] is [digits] cut into groups of three
    counted from the right, the first group of one to three digits, with
    [sep] between the groups. *)
Inductive thousands (sep : string) : string -> string -> Prop :=
| thousands_first (g : string) :
    (1 <= String.length g <= 3)%nat -> thousands sep g g
| thousands_next (digits out g : string) :
    String.length g = 3%nat -> thousands sep digits out ->
    thousands sep (digits ++ g) (out ++ sep ++ g).

(** The integer digits as the locale shows them: in groups of three once
    there are [3 + minimum_grouping_digits] of them, as they are before. *)
Definition integer_shown (l : locale) (digits out : string) : Prop :=
  if (String.length digits <? 3 + minimum_grouping_digits l)%nat
  then out = digits
  else thousands (group_separator l) digits out.

(** [out] shows [n / 10^f]: the integer part [n / 10^f] in decimal digits
    as the locale groups them, then, unless [n] is a multiple of [10^f], the
    decimal separator and the [f] decimals [n mod 10^f] without their
    trailing zeros. *)
Definition shows_scaled (l : locale) (f : nat) (n : N) (out : string) : Prop :=
  exists (fp : uint) (g : string),
    nb_digits fp = f /\
    N.of_uint fp = (n mod 10 ^ N.of_nat f)%N /\
    integer_shown l (digits_of_N (n / 10 ^ N.of_nat f)) g /\
    out = g ++ match DecimalFacts.nztail fp with
               | Nil => ""
               | fr => decimal_separator l ++ str fr
               end.

(** [n / 10^f] is the multiple of [10^-f] nearest to [c * 10^k], the larger
    one when two are equally near. *)
Definition nearest_decimal (f : nat) (c : N) (k : Z) (n : N) : Prop :=
  let P := 10 ^ Z.max (k + Z.of_nat f) 0 in
  let D := 10 ^ Z.max (- (k + Z.of_nat f)) 0 in
  2 * Z.of_N n * D - D <= 2 * Z.of_N c * P < 2 * Z.of_N n * D + D.

(** The decimal [c * 10^k] a non-negative number prints as
    (Number::toString): 0 for a zero, the shortest decimal that reads back
    for a finite number. *)
Definition printed (x : number) : N * Z :=
  match Prim2SF x with
  | S754_finite _ m e => shortest_decimal (PrimFloat.abs x) m e
  | _ => (0%N, 0)
  end.

(** [h / 100] is the hundredth nearest to the exact value of [x]. *)
Definition hundredths (x : number) (h : N) : Prop :=
  match Prim2SF x with
  | S754_zero _ => h = 0%N
  | S754_finite _ m e => let (p, q) := ratio m e in nearest_hundredth p q h
  | _ => False
  end.

(** The values the statement about [formatCurrency] covers: [+0] and the
    positive finite numbers (the sign bit is clear). *)
Definition finite_not_negative (x : number) : bool :=
  match Prim2SF x with
  | S754_zero s | S754_finite s _ _ => negb s
  | _ => false
  end.

End Shown.

(** ** Notions used in the proofs *)
Module Bounds.
Import JSNumber.



(** What follows a leading point, and a text split into its sign and the
    rest: the two case distinctions of the literal parser. *)
Definition dot_tail (r : string) : option string :=
  match r with
  | String "." x => Some x
  | _ => None
  end.


(** [str] through the list of digits. *)
Fixpoint lstr (l : list digits) : string :=
  match l with
  | [] => ""
  | d :: l' =>
      String (match d with
              | d0 => "0" | d1 => "1" | d2 => "2" | d3 => "3" | d4 => "4"
              | d5 => "5" | d6 => "6" | d7 => "7" | d8 => "8" | d9 => "9"
              end)%char (lstr l')
  end.

(** The exponent part that Number::toString prints. *)
Definition exponent_text (e : Z) : string :=
  "e" ++ (if e <? 0 then "-" else "+") ++ digits_of_N (Z.to_N (Z.abs e)).

(** [10^e] for a positive [e] and [10^-e] for a negative one, 1 otherwise. *)
Definition pow_up (e : Z) : Z := 10 ^ Z.max e 0.
Definition pow_down (e : Z) : Z := 10 ^ Z.max (- e) 0.

(** [c * 10^e] lies between half of [p / q] and twice [p / q], and [c] is
    not zero. *)
Definition near (p q : positive) (c : N) (e : Z) : Prop :=
  1 <= Z.of_N c /\
  Z.of_N c * pow_up e * Zpos q <= 2 * Zpos p * pow_down e /\
  Zpos p * pow_down e < 2 * Z.of_N c * pow_up e * Zpos q.

(** [p / q * 10^t] is at least 1. *)
Definition ge_one (p q : positive) (t : Z) : Prop :=
  Zpos q * pow_down t <= Zpos p * pow_up t.

(** [c * 10^e] is below [(2^54 - 1) * 2^970], the least magnitude that
    rounds to infinity. *)
Definition below_overflow (c : N) (e : Z) : Prop :=
  Z.of_N c * pow_up e < (2 ^ 54 - 1) * 2 ^ 970 * pow_down e.

End Bounds.

(** ** Properties of the number and digit functions *)

Import JSNumber JSValue Intl Spec.
Import Page.
Import Amount Shown Bounds.

Lemma nearest_scaled_nearest (p q : positive) :
  nearest_hundredth p q (nearest_scaled 2 p q).
Proof.
  unfold nearest_hundredth, nearest_scaled.
  change (10 ^ N.of_nat 2)%N with 100%N.
  set (A := (2 * (N.pos p * 100) + N.pos q)%N).
  set (D := (2 * N.pos q)%N).
  assert (HD : D <> 0%N) by (subst D; lia).
  pose proof (N.div_mod A D HD) as Hdm.
  pose proof (N.mod_lt A D HD) as Hlt.
  set (n := (A / D)%N) in *. set (r := (A mod D)%N) in *.
  assert (HA : Z.of_N A = 200 * Zpos p + Zpos q) by (subst A; lia).
  assert (HDz : Z.of_N D = 2 * Zpos q) by (subst D; lia).
  assert (Hz : Z.of_N A = Z.of_N D * Z.of_N n + Z.of_N r) by (rewrite Hdm at 1; lia).
  rewrite HDz in Hz.
  assert (Hr : 0 <= Z.of_N r < 2 * Zpos q) by lia.
  split; nia.
Qed.

Lemma padded_digits_long (f : nat) (n : N) : (f < nb_digits (padded_digits f n))%nat.
Proof.
  unfold padded_digits.
  destruct (Nat.leb_spec (nb_digits (N.to_uint n)) f) as [H|H].
  - rewrite nb_digits_iter_D0. lia.
  - exact H.
Qed.

Lemma padded_digits_value (f : nat) (n : N) : N.of_uint (padded_digits f n) = n.
Proof.
  unfold padded_digits.
  destruct (nb_digits (N.to_uint n) <=? f)%nat.
  - rewrite <- DecimalN.Unsigned.of_uint_norm, unorm_iter_D0,
      DecimalN.Unsigned.of_uint_norm. apply DecimalN.Unsigned.of_to.
  - apply DecimalN.Unsigned.of_to.
Qed.

Lemma split_digits (f : nat) (u : uint) :
  (f < nb_digits u)%nat ->
  app (integer_digits f u) (fraction_digits f u) = u /\
  integer_digits f u <> Nil /\
  nb_digits (fraction_digits f u) = f.
Proof.
  intros H. unfold integer_digits, fraction_digits. repeat split.
  - apply app_del_tail_head. lia.
  - now apply del_tail_nonnil.
  - apply nb_digits_del_head_sub. lia.
Qed.

Lemma fixed_digits_spells (n : N) : spells_hundredths false n (fixed_digits 2 n).
Proof.
  destruct (split_digits 2 _ (padded_digits_long 2 n)) as (Happ & Hnil & Hnb).
  exists (integer_digits 2 (padded_digits 2 n)), (fraction_digits 2 (padded_digits 2 n)).
  repeat split; auto.
  rewrite Happ. apply padded_digits_value.
Qed.

Lemma span_digits_stop (rest : string) :
  stops_digits rest -> span_digits rest = (Nil, rest).
Proof. destruct rest as [|c r]; simpl; [reflexivity | now intros ->]. Qed.

Lemma span_digits_str (u : uint) (rest : string) :
  stops_digits rest -> span_digits (str u ++ rest) = (u, rest).
Proof.
  intros Hstop. unfold str.
  induction u; cbn [NilEmpty.string_of_uint append span_digits digit_char];
    try (rewrite IHu; reflexivity).
  now apply span_digits_stop.
Qed.

Lemma str_app_nil (u : uint) : str u ++ "" = str u.
Proof. unfold str. induction u; cbn; congruence. Qed.

Lemma no_white_app (s t : string) : no_white (s ++ t) = no_white s && no_white t.
Proof. induction s as [|c s IH]; cbn; [reflexivity | now rewrite IH, andb_assoc]. Qed.

Lemma no_white_str (u : uint) : no_white (str u) = true.
Proof. unfold str. induction u; cbn; auto. Qed.

Lemma all_white_no_white (c : ascii) (s : string) :
  no_white (String c s) = true -> all_white (String c s) = false.
Proof. cbn. destruct (is_white c); [discriminate | reflexivity]. Qed.

Lemma trim_no_white (s : string) : no_white s = true -> trim s = s.
Proof.
  intros H. unfold trim.
  assert (Hs : trim_start s = s).
  { destruct s as [|c s]; [reflexivity|]. cbn in *.
    destruct (is_white c); [discriminate | reflexivity]. }
  rewrite Hs. clear Hs.
  induction s as [|c s IH]; [reflexivity|].
  cbn [trim_end]. rewrite (all_white_no_white c s H).
  cbn in H. apply andb_prop in H as [_ H]. now rewrite IH.
Qed.



Lemma parse_exponent_nil : parse_exponent "" = (0, "").
Proof. reflexivity. Qed.

Lemma parse_unsigned_fixed (ip fp : uint) :
  ip <> Nil ->
  parse_unsigned (str ip ++ "." ++ str fp) = Some (LDecimal ip fp 0, "").
Proof.
  intros Hip. unfold parse_unsigned.
  assert (Hinf : strip_prefix "Infinity" (str ip ++ "." ++ str fp) = None).
  { unfold str. destruct ip; [contradiction | reflexivity ..]. }
  rewrite Hinf.
  rewrite span_digits_str by reflexivity.
  cbn [append].
  rewrite <- (str_app_nil fp), span_digits_str by exact I.
  destruct ip; [contradiction | ..]; cbn [is_nil andb]; reflexivity.
Qed.

Lemma parse_literal_fixed (neg : bool) (ip fp : uint) :
  ip <> Nil ->
  parse_literal (sign_text neg ++ str ip ++ "." ++ str fp)
  = Some (Literal neg (LDecimal ip fp 0), "").
Proof.
  intros Hip. unfold parse_literal.
  destruct neg; unfold sign_text.
  - change ("-" ++ str ip ++ "." ++ str fp)
      with (String "-" (str ip ++ "." ++ str fp)).
    cbv iota beta. now rewrite parse_unsigned_fixed.
  - change ("" ++ str ip ++ "." ++ str fp) with (str ip ++ "." ++ str fp).
    assert (Hhead : match str ip ++ "." ++ str fp with
                    | String "-" t => (true, t)
                    | String "+" t => (false, t)
                    | _ => (false, str ip ++ "." ++ str fp)
                    end = (false, str ip ++ "." ++ str fp)).
    { unfold str. destruct ip; [contradiction | reflexivity ..]. }
    rewrite Hhead. now rewrite parse_unsigned_fixed.
Qed.

Lemma parse_non_decimal_fixed (neg : bool) (ip fp : uint) :
  ip <> Nil ->
  parse_non_decimal (sign_text neg ++ str ip ++ "." ++ str fp) = None.
Proof.
  intros Hip. destruct neg; [reflexivity |].
  change (sign_text false ++ str ip ++ "." ++ str fp) with (str ip ++ "." ++ str fp).
  unfold str.
  destruct ip as [|ip|ip|ip|ip|ip|ip|ip|ip|ip|ip];
    [contradiction | | reflexivity ..].
  destruct ip; cbn [NilEmpty.string_of_uint append];
    match goal with
    | |- parse_non_decimal (String _ (String _ ?t)) = None => destruct t; reflexivity
    end.
Qed.

Lemma fixed_text_no_white (neg : bool) (ip fp : uint) :
  no_white (sign_text neg ++ str ip ++ "." ++ str fp) = true.
Proof.
  rewrite !no_white_app, !no_white_str. now destruct neg.
Qed.

Lemma fixed_text_not_empty (neg : bool) (ip fp : uint) :
  ip <> Nil ->
  exists c r, sign_text neg ++ str ip ++ "." ++ str fp = String c r.
Proof.
  intros Hip. destruct neg; [now eexists; eexists |].
  unfold str. destruct ip; [contradiction | now eexists; eexists ..].
Qed.

(** The exact decimal read off a fixed-point text. *)
Lemma StringIntlMV_fixed (neg : bool) (ip fp : uint) :
  ip <> Nil ->
  StringIntlMV (sign_text neg ++ str ip ++ "." ++ str fp)
  = classify_decimal neg (mantissa ip fp) (exponent fp 0).
Proof.
  intros Hip. unfold StringIntlMV.
  rewrite (trim_no_white _ (fixed_text_no_white neg ip fp)).
  rewrite parse_non_decimal_fixed, parse_literal_fixed by assumption.
  destruct (fixed_text_not_empty neg ip fp Hip) as (c & r & ->).
  reflexivity.
Qed.

Lemma classify_hundredths (neg : bool) (n : N) :
  (n <= 10 ^ 23)%N ->
  classify_decimal neg n (-2)
  = if (n =? 0)%N then (if neg then NegativeZero else Finite false 0 0)
    else Finite neg n (-2).
Proof.
  intros Hn. unfold classify_decimal.
  destruct n as [|p]; [reflexivity |].
  assert (Hover : overflows (Npos p) (-2) = false).
  { cbn [overflows]. change (400 <? -2) with false. cbv iota.
    apply Z.leb_gt. apply Z.le_lt_trans with (Z.of_N (10 ^ 23)).
    - exact (proj1 (N2Z.inj_le (Npos p) (10 ^ 23)) Hn).
    - vm_compute. reflexivity. }
  assert (Hunder : underflows (Npos p) (-2) = false).
  { cbn [underflows].
    assert (H0 : (-2 + Z.log2 (Zpos p) + 1 <? -400) = false).
    { apply Z.ltb_ge. pose proof (Z.log2_nonneg (Zpos p)). lia. }
    rewrite H0. apply Z.leb_gt.
    apply Z.lt_le_trans with (1 * 2 ^ 1075); [vm_compute; reflexivity |].
    apply Z.mul_le_mono_nonneg_r; [apply Z.pow_nonneg |]; lia. }
  now rewrite Hover, Hunder.
Qed.

Lemma to_list_tenfold (u : uint) : to_list (tenfold u) = (to_list u ++ [d0])%list.
Proof. unfold tenfold. now rewrite app_spec. Qed.

Lemma rev_tenfold (u : uint) : rev (tenfold u) = D0 (rev u).
Proof.
  apply to_list_inj. cbn [to_list].
  now rewrite !rev_spec, to_list_tenfold, List.rev_app_distr.
Qed.

Lemma nb_digits_tenfold (u : uint) : nb_digits (tenfold u) = S (nb_digits u).
Proof.
  rewrite !nb_digits_spec, to_list_tenfold, List.length_app. cbn. lia.
Qed.

Lemma of_uint_tenfold (u : uint) : N.of_uint (tenfold u) = (10 * N.of_uint u)%N.
Proof.
  unfold N.of_uint.
  now rewrite !DecimalPos.Unsigned.of_uint_alt, rev_tenfold.
Qed.

Lemma tenfold_cons (u : uint) :
  tenfold (D0 u) = D0 (tenfold u) /\ tenfold (D1 u) = D1 (tenfold u) /\
  tenfold (D2 u) = D2 (tenfold u) /\ tenfold (D3 u) = D3 (tenfold u) /\
  tenfold (D4 u) = D4 (tenfold u) /\ tenfold (D5 u) = D5 (tenfold u) /\
  tenfold (D6 u) = D6 (tenfold u) /\ tenfold (D7 u) = D7 (tenfold u) /\
  tenfold (D8 u) = D8 (tenfold u) /\ tenfold (D9 u) = D9 (tenfold u).
Proof.
  repeat split; apply to_list_inj; cbn [to_list];
    rewrite !to_list_tenfold; reflexivity.
Qed.

Lemma iter_D0_tenfold (k : nat) (u : uint) :
  Nat.iter k D0 (tenfold u) = tenfold (Nat.iter k D0 u).
Proof.
  induction k as [|k IH]; [reflexivity |].
  change (D0 (Nat.iter k D0 (tenfold u)) = tenfold (D0 (Nat.iter k D0 u))).
  rewrite IH. symmetry. apply tenfold_cons.
Qed.

Lemma unorm_tenfold (u : uint) :
  u <> Nil -> nzhead u = u -> unorm (tenfold u) = tenfold u.
Proof.
  intros Hnil Hnz.
  destruct (tenfold_cons u) as (_ & H1 & H2 & H3 & H4 & H5 & H6 & H7 & H8 & H9).
  destruct u as [|u|u|u|u|u|u|u|u|u|u];
    [contradiction | exfalso; exact (nzhead_nonzero _ _ Hnz) | ..];
    match goal with
    | |- unorm (tenfold (?k u)) = _ =>
        destruct (tenfold_cons u) as (E0 & E1 & E2 & E3 & E4 & E5 & E6 & E7 & E8 & E9)
    end;
    first [rewrite E1 | rewrite E2 | rewrite E3 | rewrite E4 | rewrite E5
          | rewrite E6 | rewrite E7 | rewrite E8 | rewrite E9];
    reflexivity.
Qed.

Lemma to_uint_pos_nzhead (p : positive) : nzhead (Pos.to_uint p) = Pos.to_uint p.
Proof.
  pose proof (DecimalPos.Unsigned.to_of (Pos.to_uint p)) as H.
  rewrite DecimalPos.Unsigned.of_to in H. cbn [N.to_uint] in H.
  unfold unorm in H.
  destruct (nzhead (Pos.to_uint p)) eqn:E; try (now symmetry).
  exfalso. apply (DecimalPos.Unsigned.to_uint_nonzero p). exact H.
Qed.

Lemma to_uint_tenfold (n : N) :
  (0 < n)%N -> N.to_uint (n * 10) = tenfold (N.to_uint n).
Proof.
  intros Hn.
  rewrite <- (DecimalN.Unsigned.of_to n) at 1.
  rewrite N.mul_comm, <- of_uint_tenfold, DecimalN.Unsigned.to_of.
  destruct n as [|p]; [lia |].
  cbn [N.to_uint].
  apply unorm_tenfold.
  - apply DecimalPos.Unsigned.to_uint_nonnil.
  - apply to_uint_pos_nzhead.
Qed.

Lemma del_tail_tenfold (f : nat) (u : uint) :
  del_tail (S f) (tenfold u) = del_tail f u.
Proof. unfold del_tail. now rewrite rev_tenfold. Qed.

Lemma nztail_tenfold (u : uint) :
  DecimalFacts.nztail (tenfold u) = DecimalFacts.nztail u.
Proof.
  induction u;
    [reflexivity | destruct (tenfold_cons u) as (E0 & E1 & E2 & E3 & E4 & E5 & E6 & E7 & E8 & E9) ..];
    first [rewrite E0 | rewrite E1 | rewrite E2 | rewrite E3 | rewrite E4
          | rewrite E5 | rewrite E6 | rewrite E7 | rewrite E8 | rewrite E9];
    cbn [DecimalFacts.nztail]; now rewrite IHu.
Qed.

Lemma padded_digits_tenfold (f : nat) (n : N) :
  (0 < n)%N -> padded_digits (S f) (n * 10) = tenfold (padded_digits f n).
Proof.
  intros Hn. unfold padded_digits.
  rewrite to_uint_tenfold by assumption.
  rewrite nb_digits_tenfold.
  change (S (nb_digits (N.to_uint n)) <=? S f)%nat
    with (nb_digits (N.to_uint n) <=? f)%nat.
  destruct (nb_digits (N.to_uint n) <=? f)%nat; [| reflexivity].
  replace (S f + 1 - S (nb_digits (N.to_uint n)))%nat
    with (f + 1 - nb_digits (N.to_uint n))%nat by lia.
  apply iter_D0_tenfold.
Qed.

Lemma format_magnitude_tenfold (l : locale) (f : nat) (n : N) :
  (0 < n)%N -> format_magnitude l (S f) (n * 10) = format_magnitude l f n.
Proof.
  intros Hn. unfold format_magnitude.
  rewrite padded_digits_tenfold by assumption.
  pose proof (padded_digits_long f n) as Hlong.
  set (u := padded_digits f n) in *.
  unfold integer_digits, fraction_digits.
  rewrite del_tail_tenfold, nb_digits_tenfold.
  replace (S (nb_digits u) - S f)%nat with (nb_digits u - f)%nat by lia.
  unfold tenfold at 1. rewrite del_head_app by lia.
  fold (tenfold (del_head (nb_digits u - f) u)).
  now rewrite nztail_tenfold.
Qed.

Lemma append_empty_r (s : string) : s ++ "" = s.
Proof. induction s as [|c s IH]; cbn; congruence. Qed.

Lemma fixed_digits_split (n : N) :
  let u := padded_digits 2 n in
  fixed_digits 2 n = str (integer_digits 2 u) ++ "." ++ str (fraction_digits 2 u) /\
  integer_digits 2 u <> Nil /\
  nb_digits (fraction_digits 2 u) = 2%nat /\
  N.of_uint (app (integer_digits 2 u) (fraction_digits 2 u)) = n.
Proof.
  cbv zeta.
  destruct (split_digits 2 _ (padded_digits_long 2 n)) as (Happ & Hnil & Hnb).
  repeat split; auto.
  rewrite Happ. apply padded_digits_value.
Qed.

Lemma format_fixed (l : locale) (neg : bool) (n : N) :
  (n <= 10 ^ 23)%N ->
  format l (VString (sign_text neg ++ fixed_digits 2 n))
  = (if neg then minus_sign l else "") ++ format_magnitude l 2 n.
Proof.
  intros Hn.
  destruct (fixed_digits_split n) as (Htext & Hnil & Hnb & Hval).
  unfold format, ToIntlMathematicalValue.
  rewrite Htext, StringIntlMV_fixed by assumption.
  unfold mantissa, exponent. rewrite Hval, Hnb.
  change (0 - Z.of_nat 2) with (-2).
  rewrite classify_hundredths by assumption.
  destruct (N.eqb_spec n 0) as [-> | Hpos].
  - destruct neg; reflexivity.
  - change (round_half_expand 3 n (-2)) with (n * 10 ^ 1)%N.
    rewrite N.pow_1_r, format_magnitude_tenfold by lia.
    reflexivity.
Qed.

Lemma nearest_scaled_bound (p q : positive) :
  (Pos.pow 10 21 * q <=? p)%positive = false ->
  (nearest_scaled 2 p q <= 10 ^ 23)%N.
Proof.
  intros H. apply Pos.leb_gt in H.
  unfold nearest_scaled. change (10 ^ N.of_nat 2)%N with 100%N.
  apply N.lt_succ_r. apply N.Div0.div_lt_upper_bound.
  assert (Hp : (N.pos p < 10 ^ 21 * N.pos q)%N).
  { change (10 ^ 21)%N with (N.pos (Pos.pow 10 21)). lia. }
  change (N.succ (10 ^ 23)) with (10 ^ 21 * 100 + 1)%N.
  nia.
Qed.

(** [toFixed(2)] rounds to the nearest hundredth, halves upwards in
    magnitude, and spells the result with two decimals. *)
Lemma toFixed_rounds (x : number) : rounded_to_hundredths x (toFixed 2 x).
Proof.
  unfold rounded_to_hundredths, toFixed, Number_toString.
  destruct (Prim2SF x) as [sg | sg | | sg m e]; try reflexivity.
  - apply fixed_digits_spells.
  - destruct (ratio m e) as [p q].
    destruct (Pos.pow 10 21 * q <=? p)%positive; [reflexivity |].
    exists (nearest_scaled 2 p q). split; [apply nearest_scaled_nearest |].
    destruct (fixed_digits_spells (nearest_scaled 2 p q)) as (ip & fp & Htext & Hrest).
    exists ip, fp. split; [| exact Hrest].
    now rewrite Htext.
Qed.

(** A product of a non-negative and a positive number is not negative. *)
Lemma binary_round_aux_sign (s : bool) (m e : Z) (l : location) :
  sign_of (binary_round_aux prec emax s m e l) = Some s \/
  sign_of (binary_round_aux prec emax s m e l) = None.
Proof.
  unfold binary_round_aux.
  destruct (shr_fexp prec emax m e l) as [mrs' e'].
  destruct (shr_fexp prec emax _ e' loc_Exact) as [mrs'' e''].
  destruct (shr_m mrs''); cbn [sign_of]; auto.
  destruct (e'' <=? emax - prec); cbn [sign_of]; auto.
Qed.

Lemma product_not_negative (a r : number) :
  PrimFloat.leb PrimFloat.zero a = true ->
  PrimFloat.ltb PrimFloat.zero r = true ->
  sign_of (Prim2SF (PrimFloat.mul a r)) = Some false \/
  sign_of (Prim2SF (PrimFloat.mul a r)) = None.
Proof.
  rewrite leb_spec, ltb_spec, mul_spec.
  change (Prim2SF PrimFloat.zero) with (S754_zero false).
  unfold SF64mul.
  destruct (Prim2SF a) as [sa | sa | | sa ma ea];
    destruct (Prim2SF r) as [sr | sr | | sr mr er]; cbn;
    try discriminate; auto;
    try (destruct sa; try discriminate); try (destruct sr; try discriminate);
    cbn; auto.
  intros _ _. apply binary_round_aux_sign.
Qed.

Lemma str_head (u : uint) :
  u <> Nil -> exists c r, str u = String c r /\ digit_char c <> None.
Proof.
  unfold str. destruct u; [contradiction | ..]; intros _;
    eexists; eexists; (split; [reflexivity | discriminate]).
Qed.

Lemma digits_of_N_head (n : N) :
  exists c r, digits_of_N n = String c r /\ digit_char c <> None.
Proof.
  unfold digits_of_N, NilZero.string_of_uint.
  destruct (N.to_uint n) eqn:E;
    try (eexists; eexists; (split; [reflexivity | discriminate])).
Qed.

Lemma digit_not_minus (c : ascii) (r : string) :
  digit_char c <> None -> negative_text (String c r) = false.
Proof.
  intros H. cbn.
  destruct c as [[] [] [] [] [] [] [] []]; try reflexivity.
  now elim H.
Qed.

Lemma render_decimal_head (digits : string) (n : Z) :
  (exists c r, digits = String c r /\ digit_char c <> None) ->
  negative_text (render_decimal digits n) = false.
Proof.
  intros (c & r & -> & Hc). unfold render_decimal.
  set (k := Z.of_nat (String.length (String c r))).
  assert (Hk : 0 < k) by (subst k; cbn [String.length]; lia).
  destruct ((-5 <=? n) && (n <=? 21))%bool.
  - destruct (k <=? n) eqn:Hkn.
    + cbn [append]. now apply digit_not_minus.
    + destruct (0 <? n) eqn:Hn.
      * apply Z.ltb_lt in Hn.
        destruct (Z.to_nat n) eqn:E; [lia |].
        cbn [take append]. now apply digit_not_minus.
      * reflexivity.
  - destruct (k =? 1); cbn [take append]; now apply digit_not_minus.
Qed.

Lemma toString_finite_head (x : number) (m : positive) (e : Z) :
  negative_text (toString_finite x m e) = false.
Proof.
  unfold toString_finite. destruct (shortest_decimal x m e) as [c e'].
  apply render_decimal_head, digits_of_N_head.
Qed.

Lemma fixed_digits_head (n : N) : negative_text (fixed_digits 2 n) = false.
Proof.
  cbn [fixed_digits].
  destruct (split_digits 2 _ (padded_digits_long 2 n)) as (_ & Hnil & _).
  destruct (str_head _ Hnil) as (c & r & -> & Hc).
  cbn [append]. now apply digit_not_minus.
Qed.

Lemma toFixed_not_negative (a r : number) :
  PrimFloat.leb PrimFloat.zero a = true ->
  PrimFloat.ltb PrimFloat.zero r = true ->
  negative_text (toFixed 2 (PrimFloat.mul a r)) = false.
Proof.
  intros Ha Hr. pose proof (product_not_negative a r Ha Hr) as Hsign.
  unfold toFixed.
  destruct (Prim2SF (PrimFloat.mul a r)) as [sg | sg | | sg m e]; cbn in Hsign.
  - apply fixed_digits_head.
  - destruct Hsign as [[= ->] | [=]]. reflexivity.
  - reflexivity.
  - destruct Hsign as [[= ->] | [=]].
    destruct (ratio m e) as [p q]. cbn [sign_text append].
    destruct (Pos.pow 10 21 * q <=? p)%positive.
    + apply toString_finite_head.
    + apply fixed_digits_head.
Qed.

(** A converted amount, once formatted: grouped integer digits, then the
    decimals that are left after the trailing zeros are dropped. *)
Lemma format_converted (l : locale) (x : number) :
  below_1e21 x = true ->
  exists (neg : bool) (n : N),
    toFixed 2 x = sign_text neg ++ fixed_digits 2 n /\
    format l (VString (toFixed 2 x))
    = (if neg then minus_sign l else "") ++ format_magnitude l 2 n.
Proof.
  unfold below_1e21, toFixed.
  destruct (Prim2SF x) as [sg | sg | | sg m e]; try discriminate; intros Hx.
  - exists false, 0%N. split; [reflexivity |].
    apply (format_fixed l false 0). discriminate.
  - destruct (ratio m e) as [p q].
    destruct (Pos.pow 10 21 * q <=? p)%positive eqn:Hbig; [discriminate |].
    exists sg, (nearest_scaled 2 p q). split; [reflexivity |].
    apply format_fixed. now apply nearest_scaled_bound.
Qed.

(** ** Two reciprocals in a row *)

(** The number of binary digits of a mantissa, and what it bounds. *)
Lemma digits2_size (p : positive) : digits2_pos p = Pos.size p.
Proof. induction p; cbn; congruence. Qed.

Lemma digits_bounds (p : positive) :
  2 ^ (Zpos (digits2_pos p) - 1) <= Zpos p < 2 ^ Zpos (digits2_pos p).
Proof.
  rewrite digits2_size.
  pose proof (Pos.size_gt p) as Hgt. pose proof (Pos.size_le p) as Hle.
  apply Pos2Z.pos_lt_pos in Hgt. apply Pos2Z.pos_le_pos in Hle.
  rewrite Pos2Z.inj_pow in Hgt, Hle.
  change (Z.pos p~0) with (2 * Z.pos p) in Hle.
  split; [| exact Hgt].
  replace (Z.pos (Pos.size p)) with (Z.succ (Z.pos (Pos.size p) - 1)) in Hle by lia.
  rewrite Z.pow_succ_r in Hle by lia. lia.
Qed.

Lemma digits_normal (p : positive) :
  2 ^ 52 <= Zpos p < 2 ^ 53 -> digits2_pos p = 53%positive.
Proof.
  intros [Hlo Hhi]. destruct (digits_bounds p) as [Hd1 Hd2].
  set (d := Zpos (digits2_pos p)) in *.
  assert (Hd : d = 53).
  { assert (d - 1 < 53).
    { apply (Z.pow_lt_mono_r_iff 2); lia. }
    assert (52 < d).
    { apply (Z.pow_lt_mono_r_iff 2); lia. }
    lia. }
  subst d. congruence.
Qed.

Lemma normal_of_digits (p : positive) :
  digits2_pos p = 53%positive -> 2 ^ 52 <= Zpos p < 2 ^ 53.
Proof.
  intros H. pose proof (digits_bounds p) as Hb. rewrite H in Hb. exact Hb.
Qed.

(** The exponent a 53-digit and a 54-digit integer are rounded at. *)
Lemma fexp_53 (e : Z) : -1074 <= e -> fexp prec emax (53 + e) = e.
Proof. unfold fexp, emin, prec, emax. lia. Qed.

Lemma fexp_54 (e : Z) : -1074 <= e -> fexp prec emax (54 + e) = e + 1.
Proof. unfold fexp, emin, prec, emax. lia. Qed.

Lemma loc_of_record_of_loc (m : Z) (l : location) :
  loc_of_shr_record (shr_record_of_loc m l) = l /\
  shr_m (shr_record_of_loc m l) = m.
Proof. destruct l as [|[]]; split; reflexivity. Qed.

(** Rounding to nearest keeps the truncated quotient or adds one. *)
Lemma round_nearest_even_cases (q : Z) (l : location) :
  round_nearest_even q l = q \/ round_nearest_even q l = q + 1.
Proof.
  destruct l as [|[]]; cbn; auto. destruct (Z.even q); auto.
Qed.

(** Rounding a 53-digit quotient: no shift is needed before rounding, and at
    most one after it. *)
Lemma binary_round_aux_normal (q e' : Z) (l : location) :
  2 ^ 52 <= q < 2 ^ 53 -> -1074 <= e' <= 970 ->
  binary_round_aux prec emax false q e' l
  = if round_nearest_even q l <? 2 ^ 53
    then S754_finite false (Z.to_pos (round_nearest_even q l)) e'
    else S754_finite false (Z.to_pos (2 ^ 52)) (e' + 1).
Proof.
  intros Hq He.
  destruct q as [|pq|pq]; try lia.
  unfold binary_round_aux, shr_fexp.
  cbn [Zdigits2]. rewrite (digits_normal pq Hq).
  rewrite fexp_53 by lia. rewrite Z.sub_diag. cbn [shr].
  destruct (loc_of_record_of_loc (Zpos pq) l) as [-> ->].
  destruct (round_nearest_even_cases (Zpos pq) l) as [-> | Hr].
  - cbn [Zdigits2]. rewrite (digits_normal pq Hq).
    rewrite fexp_53 by lia. rewrite Z.sub_diag. cbn [shr shr_record_of_loc shr_m].
    assert (Hlt : (Zpos pq <? 2 ^ 53) = true) by (apply Z.ltb_lt; lia).
    rewrite Hlt.
    assert (Hle : (e' <=? emax - prec) = true)
      by (apply Z.leb_le; unfold emax, prec; lia).
    now rewrite Hle.
  - rewrite Hr.
    destruct (Z.ltb_spec (Zpos pq + 1) (2 ^ 53)) as [Hlt | Hge].
    + assert (Hq' : 2 ^ 52 <= Zpos pq + 1 < 2 ^ 53) by lia.
      destruct (Zpos pq + 1) as [|pr|pr] eqn:E; try lia.
      cbn [Zdigits2]. rewrite (digits_normal pr Hq').
      rewrite fexp_53 by lia. rewrite Z.sub_diag. cbn [shr shr_record_of_loc shr_m].
      assert (Hle : (e' <=? emax - prec) = true)
        by (apply Z.leb_le; unfold emax, prec; lia).
      now rewrite Hle.
    + assert (E : Zpos pq + 1 = 2 ^ 53) by lia.
      rewrite E. change (Zdigits2 (2 ^ 53)) with 54.
      rewrite fexp_54 by lia.
      replace (e' + 1 - e') with 1 by lia.
      cbn [shr iter_pos shr_record_of_loc].
      change (shr_m (shr_1 {| shr_m := 2 ^ 53; shr_r := false; shr_s := false |}))
        with (2 ^ 52).
      change (2 ^ 52) with (Zpos (Z.to_pos (2 ^ 52))) at 1. cbv iota.
      assert (Hle : (e' + 1 <=? emax - prec) = true)
        by (apply Z.leb_le; unfold emax, prec; lia).
      now rewrite Hle.
Qed.

(** The quotient [2^53] is renormalised to [2^52] one exponent higher. *)
Lemma binary_round_aux_2p53 (e' : Z) :
  -1074 <= e' <= 970 ->
  binary_round_aux prec emax false (2 ^ 53) e' loc_Exact
  = S754_finite false (Z.to_pos (2 ^ 52)) (e' + 1).
Proof.
  intros He. unfold binary_round_aux, shr_fexp.
  change (Zdigits2 (2 ^ 53)) with 54.
  rewrite fexp_54 by lia.
  replace (e' + 1 - e') with 1 by lia.
  cbn [shr iter_pos shr_record_of_loc].
  change (shr_1 {| shr_m := 2 ^ 53; shr_r := false; shr_s := false |})
    with {| shr_m := 2 ^ 52; shr_r := false; shr_s := false |}.
  cbn [shr_m loc_of_shr_record round_nearest_even].
  change (Zdigits2 (2 ^ 52)) with 53.
  rewrite fexp_53 by lia. rewrite Z.sub_diag.
  cbn [shr shr_record_of_loc shr_m].
  change (2 ^ 52) with (Zpos (Z.to_pos (2 ^ 52))) at 1. cbv iota.
  assert (Hle : (e' + 1 <=? emax - prec) = true)
    by (apply Z.leb_le; unfold emax, prec; lia).
  now rewrite Hle.
Qed.

(** Rounding the quotient [M / m] to nearest: the location computed from the
    remainder tells on which side of the half the quotient lies. *)
Lemma round_nearest_even_error (M m q r : Z) :
  0 < m -> M = m * q + r -> 0 <= r < m ->
  2 * Z.abs (round_nearest_even q (new_location m r) * m - M) <= m.
Proof.
  intros Hm HM Hr. unfold new_location, new_location_even, new_location_odd.
  destruct (Z.even m) eqn:Heven.
  - destruct (Z.eqb_spec r 0) as [-> | Hr0]; cbn [round_nearest_even]; [nia |].
    destruct (Z.compare_spec (2 * r) m); [destruct (Z.even q) | |]; nia.
  - destruct (Z.eqb_spec r 0) as [-> | Hr0]; cbn [round_nearest_even]; [nia |].
    destruct (Z.compare_spec (2 * r + 1) m); nia.
Qed.

(** The reciprocal of a normal number [m * 2^e]: a normal number again,
    within half a unit in the last place of [1 / (m * 2^e)]. *)
Lemma reciprocal_normal (m : positive) (e : Z) :
  2 ^ 52 <= Zpos m < 2 ^ 53 -> -1074 <= e <= 969 ->
  exists (my : positive) (k : Z),
    (k = 0 \/ k = 1) /\
    SFdiv prec emax one_sf (S754_finite false m e)
    = S754_finite false my (-105 - e + k) /\
    2 ^ 52 <= Zpos my < 2 ^ 53 /\
    2 * Z.abs (2 ^ k * Zpos my * Zpos m - 2 ^ 105) <= Zpos m.
Proof.
  intros Hm He. unfold one_sf, SFdiv, SFdiv_core_binary.
  change (Zdigits2 (Zpos 4503599627370496)) with 53.
  cbn [Zdigits2]. rewrite (digits_normal m Hm). cbn [xorb].
  assert (He' : Z.min (fexp prec emax (53 + -52 - (53 + e))) (-52 - e) = -105 - e).
  { unfold fexp, emin, prec, emax. lia. }
  rewrite He'.
  replace (-52 - e - (-105 - e)) with 53 by lia. cbv iota.
  change (Z.shiftl 4503599627370496 53) with (2 ^ 105).
  pose proof (Z_div_mod (2 ^ 105) (Zpos m) eq_refl) as Hdiv.
  destruct (Z.div_eucl (2 ^ 105) (Zpos m)) as [q r].
  destruct Hdiv as [HM Hr].
  assert (Hq : 2 ^ 52 <= q <= 2 ^ 53) by nia.
  pose proof (round_nearest_even_error (2 ^ 105) (Zpos m) q r eq_refl HM Hr) as Herr.
  destruct (Z.eq_dec q (2 ^ 53)) as [-> | Hq53].
  - (* only for m = 2^52, with no remainder *)
    assert (Hr0 : r = 0) by nia. subst r.
    assert (Hloc : new_location (Zpos m) 0 = loc_Exact).
    { unfold new_location, new_location_even, new_location_odd.
      now destruct (Z.even (Zpos m)). }
    rewrite Hloc in *. cbn [round_nearest_even] in Herr.
    rewrite binary_round_aux_2p53 by lia.
    exists (Z.to_pos (2 ^ 52)), 1.
    refine (conj (or_intror eq_refl) (conj _ (conj _ _))).
    + f_equal; lia.
    + cbn. lia.
    + change (2 ^ 1 * Zpos (Z.to_pos (2 ^ 52))) with (2 ^ 53). exact Herr.
  - rewrite binary_round_aux_normal by lia.
    set (mr := round_nearest_even q (new_location (Zpos m) r)) in *.
    assert (Hmr : mr = q \/ mr = q + 1) by apply round_nearest_even_cases.
    destruct (Z.ltb_spec mr (2 ^ 53)) as [Hlt | Hge].
    + exists (Z.to_pos mr), 0.
      assert (Hpos : Zpos (Z.to_pos mr) = mr) by (apply Z2Pos.id; lia).
      refine (conj (or_introl eq_refl) (conj _ (conj _ _))).
      * f_equal; lia.
      * lia.
      * rewrite Hpos. change (2 ^ 0) with 1. rewrite Z.mul_1_l. exact Herr.
    + assert (E : mr = 2 ^ 53) by lia.
      exists (Z.to_pos (2 ^ 52)), 1.
      refine (conj (or_intror eq_refl) (conj _ (conj _ _))).
      * f_equal; lia.
      * cbn. lia.
      * change (2 ^ 1 * Zpos (Z.to_pos (2 ^ 52))) with (2 ^ 53).
        rewrite <- E. exact Herr.
Qed.

(** Two reciprocals in a row come back within one unit in the last place. *)
Lemma double_reciprocal (m : positive) (e : Z) :
  2 ^ 52 <= Zpos m < 2 ^ 53 -> -1073 <= e <= 969 ->
  exists (mz : positive) (k1 k2 : Z),
    (k1 = 0 \/ k1 = 1) /\ (k2 = 0 \/ k2 = 1) /\
    SFdiv prec emax one_sf (SFdiv prec emax one_sf (S754_finite false m e))
    = S754_finite false mz (e - k1 + k2) /\
    2 ^ 52 <= Zpos mz < 2 ^ 53 /\
    Z.abs (2 ^ k2 * Zpos mz - 2 ^ k1 * Zpos m) <= 1.
Proof.
  intros Hm He.
  destruct (reciprocal_normal m e Hm) as (my & k1 & Hk1 & Hy & Hmy & Herr1); [lia |].
  destruct (reciprocal_normal my (-105 - e + k1) Hmy) as (mz & k2 & Hk2 & Hz & Hmz & Herr2);
    [lia |].
  exists mz, k1, k2.
  refine (conj Hk1 (conj Hk2 (conj _ (conj Hmz _)))).
  - rewrite Hy, Hz. f_equal; lia.
  - set (A := 2 ^ k2 * Zpos mz) in *. set (M := 2 ^ k1 * Zpos m) in *.
    replace (2 ^ k1 * Zpos my * Zpos m) with (Zpos my * M) in Herr1 by (subst M; ring).
    replace (A * Zpos my) with (Zpos my * A) in Herr2 by ring.
    assert (Hzm' : Zpos m < 2 * Zpos my) by lia.
    destruct (Z.le_gt_cases (Z.abs (A - M)) 1) as [H | H]; [exact H | exfalso].
    assert (H2 : 2 * Zpos my <= Zpos my * Z.abs (A - M)) by nia.
    assert (H3 : 2 * (Zpos my * Z.abs (A - M)) <= Zpos my + Zpos m).
    { replace (Zpos my * Z.abs (A - M)) with (Z.abs (Zpos my * A - Zpos my * M)).
      - lia.
      - rewrite <- Z.mul_sub_distr_l, Z.abs_mul. f_equal. }
    lia.
Qed.

(** The two ends of the range of ordinary rates, decoded. *)
Lemma Prim2SF_rate_lo : Prim2SF rate_lo = S754_finite false 4503599627370496 (-1073).
Proof. vm_compute. reflexivity. Qed.

Lemma Prim2SF_rate_hi : Prim2SF rate_hi = S754_finite false 4503599627370496 970.
Proof. vm_compute. reflexivity. Qed.

(** A canonical mantissa above the lowest exponent has 53 digits. *)
Lemma canonical_normal (m : positive) (e : Z) :
  canonical_mantissa prec emax m e = true -> -1073 <= e ->
  2 ^ 52 <= Zpos m < 2 ^ 53.
Proof.
  unfold canonical_mantissa, fexp, emin, prec, emax. intros H He.
  apply Z.eqb_eq in H.
  assert (Hdigits : Zpos (digits2_pos m) = 53) by lia.
  apply normal_of_digits. congruence.
Qed.

(** What the two comparisons of [ordinary_rate] say of sign and exponent. *)
Lemma above_rate_lo (s : bool) (m : positive) (e : Z) :
  SFleb (S754_finite false 4503599627370496 (-1073)) (S754_finite s m e) = true ->
  s = false /\ -1073 <= e.
Proof.
  unfold SFleb, SFcompare. destruct s; [discriminate |].
  destruct (Z.compare_spec (-1073) e) as [H | H | H]; intros Hle.
  - split; [reflexivity | clear Hle; lia].
  - split; [reflexivity | clear Hle; lia].
  - discriminate Hle.
Qed.

Lemma SFltb_finite (m n : positive) (e en : Z) :
  SFltb (S754_finite false m e) (S754_finite false n en) = true ->
  e < en \/ (e = en /\ Zpos m < Zpos n).
Proof.
  unfold SFltb, SFcompare.
  destruct (Z.compare_spec e en) as [H | H | H]; intros Hlt.
  - right. split; [exact H |]. apply Pos2Z.pos_lt_pos.
    rewrite Pos.compare_cont_spec in Hlt. unfold Pos.switch_Eq in Hlt.
    destruct (Pos.compare_spec m n) as [Hcmp | Hcmp | Hcmp];
      try discriminate Hlt.
    exact Hcmp.
  - left. exact H.
  - discriminate Hlt.
Qed.

Lemma below_rate_hi (m : positive) (e : Z) :
  SFltb (S754_finite false m e) (S754_finite false 4503599627370496 970) = true ->
  2 ^ 52 <= Zpos m -> e <= 969.
Proof.
  intros Hlt Hm. apply SFltb_finite in Hlt.
  assert (H52 : Zpos 4503599627370496 = 2 ^ 52) by (vm_compute; reflexivity).
  rewrite H52 in Hlt. lia.
Qed.

(** An ordinary rate is a positive normal number [m * 2^e] with
    [-1073 <= e <= 969]. *)
Lemma ordinary_rate_normal (r : number) :
  ordinary_rate r = true ->
  exists (m : positive) (e : Z),
    Prim2SF r = S754_finite false m e /\
    2 ^ 52 <= Zpos m < 2 ^ 53 /\ -1073 <= e <= 969.
Proof.
  unfold ordinary_rate. rewrite andb_true_iff, leb_spec, ltb_spec.
  rewrite Prim2SF_rate_lo, Prim2SF_rate_hi.
  pose proof (Prim2SF_valid r) as Hvalid.
  destruct (Prim2SF r) as [s | s | | s m e]; intros [Hlo Hhi].
  - discriminate Hlo.
  - destruct s; discriminate.
  - discriminate Hlo.
  - destruct (above_rate_lo s m e Hlo) as [-> He].
    cbn [valid_binary] in Hvalid. unfold bounded in Hvalid.
    apply andb_true_iff in Hvalid as [Hcanon _].
    pose proof (canonical_normal m e Hcanon He) as Hm.
    pose proof (below_rate_hi m e Hhi (proj1 Hm)) as He'.
    exists m, e. repeat split; try assumption; apply Hm.
Qed.

Lemma Prim2SF_one : Prim2SF PrimFloat.one = one_sf.
Proof. vm_compute. reflexivity. Qed.

(** [1 / (1 / r)] is within [r * 2^-52] of an ordinary rate [r]. *)
Lemma reciprocal_twice (r : number) :
  ordinary_rate r = true ->
  within_epsilon (PrimFloat.div PrimFloat.one (PrimFloat.div PrimFloat.one r)) r = true.
Proof.
  intros Hr. destruct (ordinary_rate_normal r Hr) as (m & e & Hsf & Hm & He).
  destruct (double_reciprocal m e Hm He)
    as (mz & k1 & k2 & Hk1 & Hk2 & Hdiv & Hmz & Hclose).
  unfold within_epsilon.
  rewrite !div_spec, Prim2SF_one, Hsf. unfold SF64div. rewrite Hdiv.
  apply Z.leb_le.
  destruct Hk1 as [-> | ->], Hk2 as [-> | ->].
  - replace (e - 0 + 0) with e by lia.
    rewrite Z.min_id, Z.sub_diag. change (2 ^ 0) with 1 in *. lia.
  - replace (Z.min (e - 0 + 1) e) with e by lia.
    replace (e - 0 + 1 - e) with 1 by lia. rewrite Z.sub_diag.
    change (2 ^ 0) with 1 in *. change (2 ^ 1) with 2 in *. lia.
  - replace (Z.min (e - 1 + 0) e) with (e - 1) by lia.
    replace (e - 1 + 0 - (e - 1)) with 0 by lia.
    replace (e - (e - 1)) with 1 by lia.
    change (2 ^ 0) with 1 in *. change (2 ^ 1) with 2 in *. lia.
  - replace (e - 1 + 1) with e by lia.
    rewrite Z.min_id, Z.sub_diag. change (2 ^ 0) with 1 in *.
    change (2 ^ 1) with 2 in *. lia.
Qed.

(** ** Zero amounts and amounts read back *)

Lemma toFixed_zero_product (x : number) :
  toFixed 2 (PrimFloat.mul PrimFloat.zero x)
  = if finite_number x then "0.00" else "NaN".
Proof.
  unfold toFixed, finite_number. rewrite mul_spec.
  change (Prim2SF PrimFloat.zero) with (S754_zero false).
  destruct (Prim2SF x) as [s | s | | s m e]; reflexivity.
Qed.

Lemma format_zero (l : locale) :
  format l (VNumber PrimFloat.zero) = "0" /\
  format l (VString "0.00") = "0" /\
  format l (VString "NaN") = nan_symbol l.
Proof. repeat apply conj; reflexivity. Qed.

Lemma trim_start_no_white (s : string) : no_white s = true -> trim_start s = s.
Proof.
  destruct s as [|c s]; [reflexivity |]. cbn.
  destruct (is_white c); [discriminate | reflexivity].
Qed.

Lemma parseFloat_fixed (neg : bool) (n : N) :
  parseFloat (sign_text neg ++ fixed_digits 2 n)
  = signed neg (round_decimal n (-2)).
Proof.
  destruct (fixed_digits_split n) as (Htext & Hip & Hfp & Hn).
  rewrite Htext. unfold parseFloat.
  rewrite (trim_start_no_white _ (fixed_text_no_white neg _ _)).
  rewrite parse_literal_fixed by exact Hip.
  unfold literal_value. cbn [lit_body lit_neg].
  unfold mantissa, exponent. rewrite Hn, Hfp. reflexivity.
Qed.

(** ** Amounts that are zero or negative *)










(** *** Texts that read as a number *)









Lemma parse_unsigned_dot (s : string) :
  parse_unsigned s
  = match strip_prefix "Infinity" s with
    | Some r => Some (LInfinity, r)
    | None =>
        let (ip, r1) := span_digits s in
        match dot_tail r1 with
        | Some r1' =>
            let (fp, r2) := span_digits r1' in
            if (is_nil ip && is_nil fp)%bool then None
            else let (e, r3) := parse_exponent r2 in Some (LDecimal ip fp e, r3)
        | None =>
            if is_nil ip then None
            else let (e, r3) := parse_exponent r1 in Some (LDecimal ip Nil e, r3)
        end
    end.
Proof.
  unfold parse_unsigned. destruct (strip_prefix "Infinity" s); [reflexivity |].
  destruct (span_digits s) as [ip r1].
  destruct r1 as [| c r1]; [reflexivity |].
  destruct c as [[] [] [] [] [] [] [] []]; reflexivity.
Qed.



(** A text that is a decimal literal as a whole is no [0x], [0o] or [0b]
    literal. *)
Lemma decimal_not_radix (t : string) (l : literal) :
  parse_literal t = Some (l, "") -> parse_non_decimal t = None.
Proof.
  destruct t as [| a t]; [reflexivity |].
  destruct a as [[] [] [] [] [] [] [] []]; try reflexivity.
  destruct t as [| c [| d r]]; try reflexivity.
  unfold parse_non_decimal. intros Hlit.
  assert (Hrest : forall x : ascii,
            digit_char x = None -> x <> "."%char ->
            Ascii.eqb x "e" = false -> Ascii.eqb x "E" = false ->
            parse_literal (String "0" (String x (String d r)))
            = Some (Literal false (LDecimal (D0 Nil) Nil 0), String x (String d r))).
  { intros x Hx Hdot He HE. unfold parse_literal. rewrite parse_unsigned_dot.
    cbn [strip_prefix Ascii.eqb Bool.eqb]. cbn [span_digits digit_char].
    rewrite Hx.
    assert (Hd : dot_tail (String x (String d r)) = None).
    { destruct x as [[] [] [] [] [] [] [] []]; try reflexivity. now contradiction Hdot. }
    rewrite Hd. cbn [is_nil parse_exponent]. rewrite He, HE. reflexivity. }
  destruct (Ascii.eqb_spec c "x") as [-> | _];
    [rewrite Hrest in Hlit by (reflexivity || discriminate); discriminate |].
  destruct (Ascii.eqb_spec c "X") as [-> | _];
    [rewrite Hrest in Hlit by (reflexivity || discriminate); discriminate |].
  destruct (Ascii.eqb_spec c "o") as [-> | _];
    [rewrite Hrest in Hlit by (reflexivity || discriminate); discriminate |].
  destruct (Ascii.eqb_spec c "O") as [-> | _];
    [rewrite Hrest in Hlit by (reflexivity || discriminate); discriminate |].
  destruct (Ascii.eqb_spec c "b") as [-> | _];
    [rewrite Hrest in Hlit by (reflexivity || discriminate); discriminate |].
  destruct (Ascii.eqb_spec c "B") as [-> | _];
    [rewrite Hrest in Hlit by (reflexivity || discriminate); discriminate |].
  reflexivity.
Qed.





(** ** Digit sequences and their values *)

Lemma usize_nb_digits (u : uint) : Unsigned.usize u = N.of_nat (nb_digits u).
Proof.
  induction u; cbn [Unsigned.usize nb_digits]; try rewrite IHu; lia.
Qed.

Lemma rev_app (u v : uint) : rev (app u v) = revapp v (rev u).
Proof.
  apply to_list_inj.
  rewrite revapp_spec, !rev_spec, app_spec, List.rev_app_distr.
  now rewrite List.rev_append_rev.
Qed.

(** The digits [u] followed by the digits [v]. *)
Lemma of_uint_app (u v : uint) :
  N.of_uint (app u v)
  = (N.of_uint u * 10 ^ N.of_nat (nb_digits v) + N.of_uint v)%N.
Proof.
  unfold N.of_uint. rewrite !Unsigned.of_uint_alt, rev_app.
  rewrite Unsigned.of_lu_revapp, usize_nb_digits. lia.
Qed.

Lemma of_lu_bound (d : uint) : (Unsigned.of_lu d < 10 ^ Unsigned.usize d)%N.
Proof.
  induction d; cbn [Unsigned.of_lu Unsigned.usize];
    try (rewrite N.pow_succ_r'; lia).
  cbn. lia.
Qed.

Lemma nb_digits_app (u v : uint) : nb_digits (app u v) = (nb_digits u + nb_digits v)%nat.
Proof. now rewrite !nb_digits_spec, app_spec, List.length_app. Qed.

Lemma of_uint_bound (u : uint) : (N.of_uint u < 10 ^ N.of_nat (nb_digits u))%N.
Proof.
  unfold N.of_uint. rewrite Unsigned.of_uint_alt.
  pose proof (of_lu_bound (rev u)) as H.
  now rewrite usize_nb_digits, nb_digits_rev in H.
Qed.

(** Digits split after the first [nb_digits u - f]: quotient and remainder
    by [10^f]. *)
Lemma of_uint_split (ip fp : uint) :
  N.of_uint ip = (N.of_uint (app ip fp) / 10 ^ N.of_nat (nb_digits fp))%N /\
  N.of_uint fp = (N.of_uint (app ip fp) mod 10 ^ N.of_nat (nb_digits fp))%N.
Proof.
  rewrite of_uint_app. pose proof (of_uint_bound fp) as Hfp.
  set (d := (10 ^ N.of_nat (nb_digits fp))%N) in *.
  assert (Hd : d <> 0%N) by (subst d; apply N.pow_nonzero; lia).
  split.
  - apply N.div_unique with (N.of_uint fp); [exact Hfp | lia].
  - apply N.mod_unique with (N.of_uint ip); [exact Hfp | lia].
Qed.

Lemma to_uint_unorm (n : N) : unorm (N.to_uint n) = N.to_uint n.
Proof.
  rewrite <- (DecimalN.Unsigned.of_to n) at 2.
  now rewrite DecimalN.Unsigned.to_of.
Qed.

Lemma to_uint_nonnil (n : N) : N.to_uint n <> Nil.
Proof. rewrite <- to_uint_unorm. apply unorm_nonnil. Qed.

Lemma digits_of_N_str (n : N) : digits_of_N n = str (N.to_uint n).
Proof.
  unfold digits_of_N, str, NilZero.string_of_uint.
  pose proof (to_uint_nonnil n). now destruct (N.to_uint n).
Qed.

Lemma str_length (u : uint) : String.length (str u) = nb_digits u.
Proof. unfold str. induction u; cbn; congruence. Qed.

Lemma str_lstr (u : uint) : str u = lstr (to_list u).
Proof.
  unfold str.
  induction u; cbn [NilEmpty.string_of_uint to_list lstr]; now rewrite ?IHu.
Qed.

Lemma lstr_app (a b : list digits) : lstr (a ++ b) = lstr a ++ lstr b.
Proof. induction a as [| d a IH]; cbn; [reflexivity | now rewrite IH]. Qed.

Lemma str_app (u v : uint) : str (app u v) = str u ++ str v.
Proof. now rewrite !str_lstr, app_spec, lstr_app. Qed.

Lemma str_zeros (j : nat) : str (Nat.iter j D0 Nil) = replicate j "0".
Proof.
  unfold str. induction j as [| j IH]; [reflexivity |].
  rewrite Unsigned.nat_iter_S. cbn [NilEmpty.string_of_uint replicate].
  now rewrite IH.
Qed.

Lemma of_uint_zeros (j : nat) : N.of_uint (Nat.iter j D0 Nil) = 0%N.
Proof.
  rewrite <- DecimalN.Unsigned.of_uint_norm, unorm_iter_D0. reflexivity.
Qed.

Lemma nb_digits_zeros (j : nat) : nb_digits (Nat.iter j D0 Nil) = j.
Proof. rewrite nb_digits_iter_D0. cbn. lia. Qed.

Lemma take_app (a b : string) : take (String.length a) (a ++ b) = a.
Proof. induction a as [| c a IH]; cbn; [now destruct b | now rewrite IH]. Qed.

Lemma drop_app (a b : string) : drop (String.length a) (a ++ b) = b.
Proof. induction a as [| c a IH]; cbn; [reflexivity | exact IH]. Qed.

Lemma take_drop (n : nat) (s : string) : take n s ++ drop n s = s.
Proof.
  revert s. induction n as [| n IH]; intros s; [reflexivity |].
  destruct s as [| c s]; [reflexivity |]. cbn. now rewrite IH.
Qed.

Lemma take_length (n : nat) (s : string) :
  (n <= String.length s)%nat -> String.length (take n s) = n.
Proof.
  revert s. induction n as [| n IH]; intros s H; [reflexivity |].
  destruct s as [| c s]; cbn in *; [lia |]. rewrite IH; lia.
Qed.

Lemma drop_length (n : nat) (s : string) :
  String.length (drop n s) = (String.length s - n)%nat.
Proof.
  revert s. induction n as [| n IH]; intros s; [cbn; lia |].
  destruct s as [| c s]; [reflexivity |]. cbn. apply IH.
Qed.

Lemma append_assoc (a b c : string) : (a ++ b) ++ c = a ++ b ++ c.
Proof. induction a as [| x a IH]; cbn; [reflexivity | now rewrite IH]. Qed.

Lemma append_length (a b : string) :
  String.length (a ++ b) = (String.length a + String.length b)%nat.
Proof. induction a as [| x a IH]; cbn; [reflexivity | now rewrite IH]. Qed.

(** ** Groups of three digits *)

Lemma group_aux_short (sep : string) (u : nat) (s : string) :
  (String.length s <= u)%nat -> group_aux sep u s = s.
Proof.
  revert u. induction s as [| c s IH]; intros u H; [reflexivity |].
  cbn in H. destruct u as [| u]; [lia |].
  cbn [group_aux]. rewrite IH; [reflexivity | lia].
Qed.

Lemma group_aux_app (sep : string) (s g : string) (u i : nat) :
  String.length s = (u + 3 * i)%nat ->
  group_aux sep u (s ++ g) = group_aux sep u s ++ group_aux sep 0 g.
Proof.
  revert u i. induction s as [| c s IH]; intros u i H.
  - cbn in H. assert (u = 0%nat) by lia. subst u. reflexivity.
  - cbn [String.length] in H. cbn [append group_aux]. destruct u as [| u].
    + destruct i as [| i]; [lia |].
      rewrite (IH 2%nat i) by lia.
      now rewrite append_assoc.
    + rewrite (IH u i) by lia. reflexivity.
Qed.

Lemma group_aux_three (sep g : string) :
  String.length g = 3%nat -> group_aux sep 0 g = sep ++ g.
Proof.
  destruct g as [| a [| b [| c [| d g]]]]; cbn; try discriminate. reflexivity.
Qed.

Lemma thousands_group_aux (sep : string) (i : nat) :
  forall (s : string) (u : nat),
    (1 <= u <= 3)%nat -> String.length s = (u + 3 * i)%nat ->
    thousands sep s (group_aux sep u s).
Proof.
  induction i as [| i IH]; intros s u Hu Hlen.
  - rewrite group_aux_short by lia. apply thousands_first. lia.
  - rewrite <- (take_drop (u + 3 * i) s).
    assert (Htake : String.length (take (u + 3 * i) s) = (u + 3 * i)%nat)
      by (apply take_length; lia).
    assert (Hdrop : String.length (drop (u + 3 * i) s) = 3%nat)
      by (rewrite drop_length; lia).
    rewrite (group_aux_app sep _ _ u i Htake), (group_aux_three sep _ Hdrop).
    apply thousands_next; [exact Hdrop |]. now apply IH.
Qed.

Lemma group_shown (l : locale) (digits : string) :
  integer_shown l digits (group l digits).
Proof.
  unfold integer_shown, group.
  destruct (Nat.ltb_spec (String.length digits) (3 + minimum_grouping_digits l))
    as [Hlt | Hge]; [reflexivity |].
  set (len := String.length digits) in *.
  pose proof (Nat.div_mod_eq len 3) as Hdiv.
  pose proof (Nat.mod_upper_bound len 3 ltac:(lia)) as Hmod.
  destruct (Nat.eqb_spec (len mod 3) 0) as [H0 | H0].
  - apply (thousands_group_aux _ (len / 3 - 1)); lia.
  - apply (thousands_group_aux _ (len / 3)); lia.
Qed.

(** The integer digits of a padded number are the digits of its quotient. *)
Lemma integer_digits_normal (f : nat) (n : N) :
  unorm (integer_digits f (padded_digits f n)) = integer_digits f (padded_digits f n).
Proof.
  unfold padded_digits, integer_digits.
  destruct (Nat.leb_spec (nb_digits (N.to_uint n)) f) as [Hle | Hgt].
  - set (u := Nat.iter (f + 1 - nb_digits (N.to_uint n)) D0 (N.to_uint n)).
    assert (Hnb : nb_digits u = S f) by (subst u; rewrite nb_digits_iter_D0; lia).
    assert (Hhead : exists u', u = D0 u').
    { subst u. destruct (f + 1 - nb_digits (N.to_uint n))%nat as [| j] eqn:E; [lia |].
      rewrite Unsigned.nat_iter_S. now eexists. }
    destruct Hhead as (u' & Hu).
    pose proof (app_del_tail_head f u ltac:(lia)) as Happ.
    pose proof (nb_digits_del_head_sub u f ltac:(lia)) as Hfp.
    assert (Hip : nb_digits (del_tail f u) = 1%nat).
    { pose proof (nb_digits_app (del_tail f u) (del_head (nb_digits u - f) u)) as H.
      rewrite Happ in H. lia. }
    destruct (del_tail f u) as [| t | t | t | t | t | t | t | t | t | t] eqn:Et;
      cbn [nb_digits] in Hip; try lia;
      assert (t = Nil) by (apply nb_digits_0; lia); subst t;
      try reflexivity;
      rewrite Hu in Happ; apply (f_equal to_list) in Happ;
      rewrite app_spec in Happ; cbn [to_list List.app] in Happ; discriminate Happ.
  - rewrite <- (to_uint_unorm n). apply unorm_del_tail_unorm.
    now rewrite to_uint_unorm.
Qed.

Lemma format_magnitude_shown (l : locale) (f : nat) (n : N) :
  shows_scaled l f n (format_magnitude l f n).
Proof.
  unfold format_magnitude.
  destruct (split_digits f _ (padded_digits_long f n)) as (Happ & Hnil & Hnb).
  pose proof (padded_digits_value f n) as Hval.
  set (u := padded_digits f n) in *.
  set (ip := integer_digits f u) in *. set (fp := fraction_digits f u) in *.
  destruct (of_uint_split ip fp) as (Hq & Hr).
  rewrite Happ, Hval, Hnb in Hq, Hr.
  exists fp, (group l (str ip)).
  split; [exact Hnb |]. split; [exact Hr |]. split.
  - rewrite <- Hq, digits_of_N_str, DecimalN.Unsigned.to_of.
    subst ip u. rewrite integer_digits_normal. apply group_shown.
  - destruct (DecimalFacts.nztail fp); try reflexivity.
    now rewrite append_empty_r.
Qed.

(** ** The decimal a number prints as is near the number *)

Lemma pow_up_pos (e : Z) : 0 < pow_up e.
Proof. unfold pow_up. apply Z.pow_pos_nonneg; lia. Qed.

Lemma pow_down_pos (e : Z) : 0 < pow_down e.
Proof. unfold pow_down. apply Z.pow_pos_nonneg; lia. Qed.

Lemma pow_down_opp (e : Z) : pow_down (- e) = pow_up e.
Proof. unfold pow_down, pow_up. now rewrite Z.opp_involutive. Qed.

Lemma pow_up_opp (e : Z) : pow_up (- e) = pow_down e.
Proof. reflexivity. Qed.

Lemma pow_step (e : Z) :
  (pow_up (e + 1) = 10 * pow_up e /\ pow_down (e + 1) = 1 /\ pow_down e = 1) \/
  (pow_up (e + 1) = 1 /\ pow_up e = 1 /\ pow_down e = 10 * pow_down (e + 1)).
Proof.
  unfold pow_up, pow_down. destruct (Z.le_gt_cases 0 e) as [H | H].
  - left.
    replace (Z.max (e + 1) 0) with (e + 1) by lia.
    replace (Z.max e 0) with e by lia.
    replace (Z.max (- (e + 1)) 0) with 0 by lia.
    replace (Z.max (- e) 0) with 0 by lia.
    rewrite Z.pow_add_r by lia. change (10 ^ 1) with 10. change (10 ^ 0) with 1.
    lia.
  - right.
    replace (Z.max (e + 1) 0) with 0 by lia.
    replace (Z.max e 0) with 0 by lia.
    replace (Z.max (- (e + 1)) 0) with (- (e + 1)) by lia.
    replace (Z.max (- e) 0) with (- (e + 1) + 1) by lia.
    rewrite Z.pow_add_r by lia. change (10 ^ 1) with 10. change (10 ^ 0) with 1.
    lia.
Qed.

Lemma scaled_spec (p q : positive) (t : Z) :
  Zpos (fst (scaled p q t)) = Zpos p * pow_up t /\
  Zpos (snd (scaled p q t)) = Zpos q * pow_down t.
Proof.
  unfold scaled, pow_up, pow_down. destruct t as [| k | k]; cbn [fst snd].
  - change (Z.max 0 0) with 0. change (Z.max (- 0) 0) with 0.
    change (10 ^ 0) with 1. lia.
  - rewrite Pos2Z.inj_mul, Pos2Z.inj_pow.
    replace (Z.max (Zpos k) 0) with (Zpos k) by lia.
    replace (Z.max (- Zpos k) 0) with 0 by lia.
    change (10 ^ 0) with 1. lia.
  - rewrite Pos2Z.inj_mul, Pos2Z.inj_pow.
    replace (Z.max (Zneg k) 0) with 0 by lia.
    replace (Z.max (- Zneg k) 0) with (Zpos k) by lia.
    change (10 ^ 0) with 1. lia.
Qed.

Lemma ge_one_succ (p q : positive) (t : Z) :
  ge_one p q t -> ge_one p q (t + 1).
Proof.
  unfold ge_one. intros H.
  pose proof (pow_up_pos t). pose proof (pow_down_pos (t + 1)).
  destruct (pow_step t) as [(-> & -> & Ht) | (-> & Hu & Hd)].
  - rewrite Ht in H. nia.
  - rewrite Hu, Hd in H. nia.
Qed.

Lemma near_step (p q : positive) (c : N) (e : Z) :
  near p q (10 * c) e -> near p q c (e + 1).
Proof.
  unfold near. rewrite N2Z.inj_mul. change (Z.of_N 10) with 10.
  intros (Hc & Hle & Hlt).
  pose proof (pow_up_pos e). pose proof (pow_down_pos (e + 1)).
  assert (Hc1 : 1 <= Z.of_N c) by lia.
  split; [exact Hc1 |].
  destruct (pow_step e) as [(-> & -> & Hd) | (-> & Hu & Hd)].
  - rewrite Hd in Hle, Hlt. split; nia.
  - rewrite Hu, Hd in Hle, Hlt. split; nia.
Qed.

Lemma strip_zeros_near (p q : positive) (fuel : nat) :
  forall (c : N) (e : Z),
    near p q c e ->
    near p q (fst (strip_zeros fuel c e)) (snd (strip_zeros fuel c e)).
Proof.
  induction fuel as [| fuel IH]; intros c e H; [exact H |].
  cbn [strip_zeros].
  destruct ((0 <? c) && (c mod 10 =? 0))%N eqn:E; [| exact H].
  apply andb_true_iff in E as [_ E]. apply N.eqb_eq in E.
  apply IH, near_step.
  replace (10 * (c / 10))%N with c; [exact H |].
  pose proof (N.div_mod c 10 ltac:(lia)). lia.
Qed.

Lemma shortest_from_near (x : number) (p q : positive) (n0 : Z) (fuel : nat) :
  forall k : Z,
    ge_one p q (k - n0) ->
    near p q (fst (shortest_from fuel k x p q n0))
      (snd (shortest_from fuel k x p q n0)).
Proof.
  induction fuel as [| fuel IH]; intros k Hge.
  all: cbn [shortest_from].
  all: destruct (scaled_spec p q (k - n0)) as (Hnum & Hden).
  all: destruct (scaled p q (k - n0)) as [num den]; cbn [fst snd] in Hnum, Hden.
  all: pose proof (N.div_mod (Npos num) (Npos den) ltac:(lia)) as Hdm.
  all: pose proof (N.mod_lt (Npos num) (Npos den) ltac:(lia)) as Hlt.
  all: set (lo := (Npos num / Npos den)%N) in *.
  all: set (r := (Npos num mod Npos den)%N) in *.
  all: unfold ge_one in Hge.
  all: assert (Hlo1 : 1 <= Z.of_N lo) by nia.
  all: assert (Hlo : near p q lo (n0 - k)).
  1, 3: unfold near; replace (n0 - k) with (- (k - n0)) by lia;
        rewrite pow_down_opp, pow_up_opp; split; [exact Hlo1 | split; nia].
  all: assert (Hhi : near p q (lo + 1) (n0 - k)).
  1, 3: unfold near; replace (n0 - k) with (- (k - n0)) by lia;
        rewrite pow_down_opp, pow_up_opp; split; [lia | split; nia].
  all: destruct (reads_back x lo (n0 - k)); cbn [andb].
  all: destruct (negb (r =? 0)%N && reads_back x (lo + 1) (n0 - k))%bool.
  all: try (destruct (2 * r ?= Npos den)%N; [destruct (N.even lo) | |]);
       cbn [fst snd]; try assumption.
  all: apply IH; replace (k + 1 - n0) with (k - n0 + 1) by lia;
    now apply ge_one_succ.
Qed.

(** A number of [k] digits is at least [10^(k-1)]. *)
Lemma digits_lower (n : positive) :
  (10 ^ N.of_nat (nb_digits (N.to_uint (Npos n)) - 1) <= Npos n)%N.
Proof.
  cbn [N.to_uint].
  pose proof (DecimalPos.Unsigned.of_to n) as Hval.
  pose proof (to_uint_pos_nzhead n) as Hnz.
  pose proof (DecimalPos.Unsigned.to_uint_nonnil n) as Hnil.
  change (Pos.of_uint (Pos.to_uint n)) with (N.of_uint (Pos.to_uint n)) in Hval.
  destruct (Pos.to_uint n) as [| u | u | u | u | u | u | u | u | u | u] eqn:E;
    [contradiction | exfalso; exact (nzhead_nonzero _ _ Hnz) | ..];
    cbn [nb_digits]; rewrite Nat.sub_succ, Nat.sub_0_r; rewrite <- Hval;
    match goal with
    | |- (_ <= N.of_uint (?d u))%N =>
        change (d u) with (app (d Nil) u); rewrite of_uint_app;
        change (N.of_uint (d Nil)) with (N.of_uint (d Nil)); cbn [N.of_uint Pos.of_uint];
        set (P := (10 ^ N.of_nat (nb_digits u))%N)
    end; cbn [Pos.of_uint_acc]; lia.
Qed.

Lemma scale_up_spec (q : positive) (fuel : nat) :
  forall (p : positive) (j : Z),
    let j' := scale_up fuel p q j in
    j <= j' /\
    (Zpos q <= Zpos p * 10 ^ (j' - j) \/ j' = j + Z.of_nat fuel).
Proof.
  induction fuel as [| fuel IH]; intros p j; cbv zeta; cbn [scale_up].
  - split; [lia |]. right. lia.
  - destruct (Pos.leb_spec q p) as [Hle | Hgt].
    + split; [lia |]. left. rewrite Z.sub_diag. change (10 ^ 0) with 1. lia.
    + destruct (IH (10 * p)%positive (j + 1)) as (Hj & Hcase).
      split; [lia |]. destruct Hcase as [H | H]; [left | right; lia].
      replace (scale_up fuel (10 * p) q (j + 1) - j)
        with (1 + (scale_up fuel (10 * p) q (j + 1) - (j + 1))) by lia.
      rewrite Z.pow_add_r by lia. change (10 ^ 1) with 10.
      rewrite Pos2Z.inj_mul in H. lia.
Qed.

(** The exponent [Number::toString] starts from is not too large:
    [p / q] is at least [10^(n-1)]. *)
Lemma decimal_exponent_ge_one (p q : positive) :
  Zpos q <= Zpos p * 2 ^ 1074 ->
  ge_one p q (1 - decimal_exponent p q).
Proof.
  intros Hsmall. unfold ge_one, decimal_exponent, pow_up, pow_down.
  destruct (Pos.leb_spec q p) as [Hle | Hgt].
  - assert (Hq : (1 <= Npos p / Npos q)%N).
    { apply N.div_le_lower_bound; lia. }
    destruct (Npos p / Npos q)%N as [| n] eqn:En; [lia |].
    pose proof (digits_lower n) as Hlow.
    pose proof (N.Div0.mul_div_le (Npos p) (Npos q)) as Hmul. rewrite En in Hmul.
    set (k := nb_digits (N.to_uint (Npos n))) in *.
    assert (Hk : (1 <= k)%nat).
    { subst k. pose proof (to_uint_nonnil (Npos n)) as H.
      destruct (N.to_uint (Npos n)); [contradiction | cbn; lia ..]. }
    replace (Z.max (1 - Z.of_nat k) 0) with 0 by lia.
    replace (Z.max (- (1 - Z.of_nat k)) 0) with (Z.of_nat (k - 1)) by lia.
    change (10 ^ 0) with 1.
    assert (Hpow : Z.of_N (10 ^ N.of_nat (k - 1)) = 10 ^ Z.of_nat (k - 1)).
    { rewrite N2Z.inj_pow. now rewrite nat_N_Z. }
    rewrite <- Hpow. nia.
  - destruct (scale_up_spec q 400 (10 * p)%positive 1) as (Hj & Hcase).
    set (j := scale_up 400 (10 * p) q 1) in *.
    replace (1 - (1 - j)) with j by lia.
    replace (Z.max j 0) with j by lia. replace (Z.max (- j) 0) with 0 by lia.
    change (10 ^ 0) with 1.
    destruct Hcase as [H | H].
    + replace j with (1 + (j - 1)) by lia. rewrite Z.pow_add_r by lia.
      change (10 ^ 1) with 10. rewrite Pos2Z.inj_mul in H. lia.
    + rewrite H. change (1 + Z.of_nat 400) with 401.
      assert (Hnum : 2 ^ 1074 <= 10 ^ 401) by (vm_compute; discriminate).
      nia.
Qed.

(** The printed decimal of a number [p / q]. *)
Lemma shortest_decimal_near (x : number) (m : positive) (e : Z) :
  let (p, q) := ratio m e in
  Zpos q <= Zpos p * 2 ^ 1074 ->
  near p q (fst (shortest_decimal x m e)) (snd (shortest_decimal x m e)).
Proof.
  unfold shortest_decimal. destruct (ratio m e) as [p q]. intros Hsmall.
  pose proof (shortest_from_near x p q (decimal_exponent p q) 16 1
                (decimal_exponent_ge_one p q Hsmall)) as H.
  destruct (shortest_from 16 1 x p q (decimal_exponent p q)) as [c e'].
  now apply strip_zeros_near.
Qed.

(** ToRawFixed gives the nearest multiple, the larger one on a tie. *)
Lemma round_half_expand_nearest (f : nat) (c : N) (k : Z) :
  nearest_decimal f c k (round_half_expand f c k).
Proof.
  unfold nearest_decimal, round_half_expand.
  destruct (k + Z.of_nat f) as [| j | j] eqn:E.
  - change (Z.max 0 0) with 0. change (Z.max (- 0) 0) with 0.
    change (10 ^ 0) with 1. lia.
  - replace (Z.max (Z.pos j) 0) with (Z.pos j) by lia.
    replace (Z.max (- Z.pos j) 0) with 0 by lia.
    change (10 ^ 0) with 1.
    rewrite N2Z.inj_mul, N2Z.inj_pow. change (Z.of_N 10) with 10.
    change (Z.of_N (N.pos j)) with (Z.pos j). lia.
  - replace (Z.max (Z.neg j) 0) with 0 by lia.
    replace (Z.max (- Z.neg j) 0) with (Z.pos j) by lia.
    change (10 ^ 0) with 1.
    assert (Hd : (0 < 10 ^ N.pos j)%N) by (apply N.neq_0_lt_0, N.pow_nonzero; discriminate).
    pose proof (N.div_mod c (10 ^ N.pos j)%N ltac:(lia)) as Hdiv.
    pose proof (N.mod_lt c (10 ^ N.pos j)%N ltac:(lia)) as Hmod.
    assert (HD : 10 ^ Z.pos j = Z.of_N (10 ^ N.pos j)).
    { rewrite N2Z.inj_pow. reflexivity. }
    rewrite HD.
    set (d := (10 ^ N.pos j)%N) in *. clearbody d.
    set (n1 := (c / d)%N) in *. set (r := (c mod d)%N) in *. clearbody n1 r.
    destruct (N.leb_spec d (2 * r)) as [Hup | Hdown]; nia.
Qed.

(** A decimal with its exponent worked into the digits rounds alike. *)
Lemma nearest_decimal_flat (f : nat) (c : N) (k : Z) (n : N) :
  0 <= k ->
  nearest_decimal f (c * 10 ^ Z.to_N k) 0 n -> nearest_decimal f c k n.
Proof.
  intros Hk. unfold nearest_decimal.
  replace (Z.max (0 + Z.of_nat f) 0) with (Z.of_nat f) by lia.
  replace (Z.max (- (0 + Z.of_nat f)) 0) with 0 by lia.
  replace (Z.max (k + Z.of_nat f) 0) with (k + Z.of_nat f) by lia.
  replace (Z.max (- (k + Z.of_nat f)) 0) with 0 by lia.
  rewrite N2Z.inj_mul, N2Z.inj_pow, Z2N.id by exact Hk.
  change (Z.of_N 10) with 10.
  rewrite Z.pow_add_r by lia.
  set (a := 10 ^ k). set (b := 10 ^ Z.of_nat f). clearbody a b.
  lia.
Qed.

(** The same for the comparison with a number. *)
Lemma near_flat (p q : positive) (c : N) (k : Z) :
  0 <= k -> near p q c k -> near p q (c * 10 ^ Z.to_N k) 0.
Proof.
  intros Hk. unfold near, pow_up, pow_down.
  replace (Z.max k 0) with k by lia.
  replace (Z.max (- k) 0) with 0 by lia.
  change (Z.max 0 0) with 0. change (Z.max (- 0) 0) with 0.
  change (10 ^ 0) with 1.
  rewrite N2Z.inj_mul, N2Z.inj_pow, Z2N.id by exact Hk.
  change (Z.of_N 10) with 10.
  assert (Ha : 0 < 10 ^ k) by (apply Z.pow_pos_nonneg; lia).
  set (a := 10 ^ k) in *. clearbody a.
  intros (H1 & H2 & H3). repeat split; nia.
Qed.

(** ** Reading back what Number::toString prints *)

Lemma parse_literal_unsigned (ip : uint) (rest : string) :
  ip <> Nil ->
  parse_literal (str ip ++ rest)
  = match parse_unsigned (str ip ++ rest) with
    | Some (u, r) => Some (Literal false u, r)
    | None => None
    end.
Proof.
  intros Hip. unfold parse_literal.
  assert (Hhead : match str ip ++ rest with
                  | String "-" t => (true, t)
                  | String "+" t => (false, t)
                  | _ => (false, str ip ++ rest)
                  end = (false, str ip ++ rest)).
  { unfold str. destruct ip; [contradiction | reflexivity ..]. }
  now rewrite Hhead.
Qed.

Lemma not_Infinity (ip : uint) (rest : string) :
  ip <> Nil -> strip_prefix "Infinity" (str ip ++ rest) = None.
Proof. intros Hip. unfold str. destruct ip; [contradiction | reflexivity ..]. Qed.

Lemma is_nil_false (ip : uint) : ip <> Nil -> is_nil ip = false.
Proof. now destruct ip. Qed.

(** Integer digits, a point, fraction digits and what follows them. *)
Lemma parse_literal_point (ip fp : uint) (rest : string) :
  ip <> Nil -> stops_digits rest ->
  parse_literal (str ip ++ "." ++ str fp ++ rest)
  = Some (Literal false (LDecimal ip fp (fst (parse_exponent rest))),
          snd (parse_exponent rest)).
Proof.
  intros Hip Hrest.
  rewrite parse_literal_unsigned, parse_unsigned_dot, not_Infinity by exact Hip.
  rewrite span_digits_str by reflexivity.
  change (dot_tail ("." ++ str fp ++ rest)) with (Some (str fp ++ rest)).
  cbv iota beta.
  rewrite span_digits_str by exact Hrest.
  rewrite (is_nil_false ip Hip). cbn [andb].
  now destruct (parse_exponent rest).
Qed.

(** Integer digits and what follows them, when that is no point. *)
Lemma parse_literal_integer (ip : uint) (rest : string) :
  ip <> Nil -> stops_digits rest -> dot_tail rest = None ->
  parse_literal (str ip ++ rest)
  = Some (Literal false (LDecimal ip Nil (fst (parse_exponent rest))),
          snd (parse_exponent rest)).
Proof.
  intros Hip Hrest Hdot.
  rewrite parse_literal_unsigned, parse_unsigned_dot, not_Infinity by exact Hip.
  rewrite span_digits_str by exact Hrest.
  rewrite Hdot, (is_nil_false ip Hip).
  now destruct (parse_exponent rest).
Qed.

Lemma parse_exponent_text (e : Z) : parse_exponent (exponent_text e) = (e, "").
Proof.
  unfold exponent_text. rewrite digits_of_N_str.
  set (u := N.to_uint (Z.to_N (Z.abs e))).
  assert (Hu : u <> Nil) by apply to_uint_nonnil.
  assert (Hval : Z.of_N (N.of_uint u) = Z.abs e).
  { subst u. rewrite DecimalN.Unsigned.of_to, Z2N.id; lia. }
  assert (Hspan : span_digits (str u) = (u, "")).
  { rewrite <- (str_app_nil u) at 1. now apply span_digits_str. }
  destruct (Z.ltb_spec e 0) as [Hneg | Hpos].
  - change (parse_exponent ("e" ++ "-" ++ str u))
      with (let (ed, r) := span_digits (str u) in
            if is_nil ed then (0, "e" ++ "-" ++ str u)
            else (- Z.of_N (N.of_uint ed), r)).
    rewrite Hspan, (is_nil_false u Hu), Hval. f_equal. lia.
  - change (parse_exponent ("e" ++ "+" ++ str u))
      with (let (ed, r) := span_digits (str u) in
            if is_nil ed then (0, "e" ++ "+" ++ str u)
            else (Z.of_N (N.of_uint ed), r)).
    rewrite Hspan, (is_nil_false u Hu), Hval. f_equal. lia.
Qed.

Lemma no_white_replicate (j : nat) : no_white (replicate j "0") = true.
Proof. induction j as [| j IH]; [reflexivity | exact IH]. Qed.

Lemma no_white_digits_of_N (n : N) : no_white (digits_of_N n) = true.
Proof. rewrite digits_of_N_str. apply no_white_str. Qed.

Lemma no_white_exponent_text (e : Z) : no_white (exponent_text e) = true.
Proof.
  unfold exponent_text. rewrite !no_white_app, no_white_digits_of_N.
  now destruct (e <? 0).
Qed.

Lemma no_white_take (n : nat) (s : string) :
  no_white s = true -> no_white (take n s) = true.
Proof.
  revert s. induction n as [| n IH]; intros s H; [reflexivity |].
  destruct s as [| c s]; [reflexivity |]. cbn in *.
  apply andb_prop in H as [Hc Hs]. now rewrite Hc, IH.
Qed.

Lemma no_white_drop (n : nat) (s : string) :
  no_white s = true -> no_white (drop n s) = true.
Proof.
  revert s. induction n as [| n IH]; intros s H; [exact H |].
  destruct s as [| c s]; [reflexivity |]. cbn in *.
  apply andb_prop in H as [Hc Hs]. now apply IH.
Qed.

(** The digits [u] cut after the first [j] of them. *)
Lemma cut_digits (u : uint) (j : nat) :
  (0 < j < nb_digits u)%nat ->
  exists ip fp : uint,
    app ip fp = u /\ ip <> Nil /\
    nb_digits ip = j /\ nb_digits fp = (nb_digits u - j)%nat /\
    take j (str u) = str ip /\ drop j (str u) = str fp.
Proof.
  intros Hj.
  pose proof (app_del_tail_head (nb_digits u - j) u ltac:(lia)) as Happ.
  pose proof (nb_digits_del_head_sub u (nb_digits u - j) ltac:(lia)) as Hfp.
  set (ip := del_tail (nb_digits u - j) u) in *.
  set (fp := del_head (nb_digits u - (nb_digits u - j)) u) in *.
  assert (Hnb : nb_digits ip = j).
  { pose proof (nb_digits_app ip fp) as H. rewrite Happ in H. lia. }
  exists ip, fp. repeat split; try assumption.
  - intros E. rewrite E in Hnb. cbn in Hnb. lia.
  - rewrite <- Happ, str_app, <- Hnb, <- (str_length ip). apply take_app.
  - rewrite <- Happ, str_app, <- Hnb, <- (str_length ip). apply drop_app.
Qed.

(** What Number::toString prints for the digits of [c] and the exponent [k]
    is a decimal literal as a whole, and reads as [c * 10^k]: with the
    digits [c] and the exponent [k], or, for an integer printed with its
    zeros, with all its digits and the exponent 0. *)
Lemma render_decimal_reads (c : N) (k : Z) :
  (1 <= c)%N ->
  let text := render_decimal (digits_of_N c)
                (k + Z.of_nat (String.length (digits_of_N c))) in
  no_white text = true /\
  exists (ip fp : uint) (e : Z),
    parse_literal text = Some (Literal false (LDecimal ip fp e), "") /\
    ((mantissa ip fp = c /\ exponent fp e = k) \/
     (0 <= k /\ mantissa ip fp = (c * 10 ^ Z.to_N k)%N /\ exponent fp e = 0)).
Proof.
  intros Hc. rewrite digits_of_N_str, str_length.
  set (u := N.to_uint c).
  assert (Hu : u <> Nil) by apply to_uint_nonnil.
  assert (Hval : N.of_uint u = c) by apply DecimalN.Unsigned.of_to.
  assert (Hlen : (1 <= nb_digits u)%nat).
  { destruct u; [contradiction | cbn; lia ..]. }
  set (K := nb_digits u) in *.
  unfold render_decimal. rewrite str_length. fold K.
  set (n := k + Z.of_nat K).
  destruct ((-5 <=? n) && (n <=? 21))%bool.
  - destruct (Z.leb_spec (Z.of_nat K) n) as [Hint | Hfrac].
    + (* an integer with its zeros *)
      rewrite <- str_zeros, <- str_app.
      set (ip := app u (Nat.iter (Z.to_nat (n - Z.of_nat K)) D0 Nil)).
      assert (Hip : ip <> Nil).
      { intros E. apply (f_equal nb_digits) in E. subst ip.
        rewrite nb_digits_app in E. cbn in E. lia. }
      split; [apply no_white_str |].
      exists ip, Nil, 0. split.
      * rewrite <- (str_app_nil ip).
        now rewrite parse_literal_integer.
      * right. split; [lia |]. split; [| reflexivity].
        unfold mantissa. rewrite of_uint_app. cbn [nb_digits].
        change (10 ^ N.of_nat 0)%N with 1%N. change (N.of_uint Nil) with 0%N.
        subst ip. rewrite of_uint_app, of_uint_zeros, nb_digits_zeros, Hval.
        replace (N.of_nat (Z.to_nat (n - Z.of_nat K))) with (Z.to_N k) by lia.
        lia.
    + destruct (Z.ltb_spec 0 n) as [Hpos | Hneg].
      * (* a point inside the digits *)
        destruct (cut_digits u (Z.to_nat n) ltac:(lia))
          as (ip & fp & Happ & Hip & Hnip & Hnfp & -> & ->).
        split; [rewrite !no_white_app, !no_white_str; reflexivity |].
        exists ip, fp, 0. split.
        -- apply (parse_literal_fixed false ip fp Hip).
        -- left. unfold mantissa, exponent. rewrite Happ, Hnfp. split; [exact Hval | lia].
      * (* zeros between the point and the digits *)
        rewrite <- str_zeros.
        change ("0." ++ str (Nat.iter (Z.to_nat (- n)) D0 Nil) ++ str u)
          with (str (D0 Nil) ++ "." ++ str (Nat.iter (Z.to_nat (- n)) D0 Nil) ++ str u).
        rewrite <- str_app.
        set (fp := app (Nat.iter (Z.to_nat (- n)) D0 Nil) u).
        split; [rewrite !no_white_app, !no_white_str; reflexivity |].
        exists (D0 Nil), fp, 0. split.
        -- apply (parse_literal_fixed false (D0 Nil) fp). discriminate.
        -- left. unfold mantissa, exponent. split.
           ++ rewrite of_uint_app. change (N.of_uint (D0 Nil)) with 0%N.
              subst fp. rewrite of_uint_app, of_uint_zeros, Hval. lia.
           ++ subst fp. rewrite nb_digits_app, nb_digits_zeros. lia.
  - fold (exponent_text (n - 1)).
    destruct (Z.eqb_spec (Z.of_nat K) 1) as [Hone | Hmore].
    + (* one digit and an exponent *)
      split; [rewrite no_white_app, no_white_str, no_white_exponent_text; reflexivity |].
      exists u, Nil, (n - 1). split.
      * rewrite parse_literal_integer, parse_exponent_text;
          [reflexivity | exact Hu | reflexivity | reflexivity].
      * left. unfold mantissa, exponent. cbn [nb_digits]. split; [| lia].
        rewrite <- Hval. f_equal. apply to_list_inj. rewrite app_spec. cbn.
        apply List.app_nil_r.
    + (* one digit, a point, the other digits and an exponent *)
      destruct (cut_digits u 1 ltac:(lia))
        as (ip & fp & Happ & Hip & Hnip & Hnfp & -> & ->).
      split.
      { rewrite !no_white_app, !no_white_str, no_white_exponent_text. reflexivity. }
      exists ip, fp, (n - 1). split.
      * rewrite parse_literal_point, parse_exponent_text;
          [reflexivity | exact Hip | reflexivity].
      * left. unfold mantissa, exponent. rewrite Happ, Hnfp. split; [exact Hval | lia].
Qed.

(** The exact decimal read off a text that is a decimal literal as a
    whole. *)
Lemma StringIntlMV_literal (t : string) (neg : bool) (ip fp : uint) (e : Z) :
  no_white t = true ->
  parse_literal t = Some (Literal neg (LDecimal ip fp e), "") ->
  StringIntlMV t = classify_decimal neg (mantissa ip fp) (exponent fp e).
Proof.
  intros Hwhite Hlit. unfold StringIntlMV.
  rewrite (trim_no_white t Hwhite).
  rewrite (decimal_not_radix t _ Hlit), Hlit.
  destruct t; [discriminate Hlit | reflexivity].
Qed.

(** ** Shifting a mantissa to the right *)

Lemma shr_1_spec (mrs : shr_record) :
  0 <= shr_m mrs ->
  shr_m (shr_1 mrs) = Z.shiftr (shr_m mrs) 1 /\
  shr_r (shr_1 mrs) = Z.testbit (shr_m mrs) 0.
Proof.
  destruct mrs as [m r s]. cbn [shr_m]. intros Hm.
  rewrite Z.bit0_odd, <- Z.div2_spec.
  destruct m as [| [p | p |] | p]; try lia; split; reflexivity.
Qed.

Lemma iter_shr_1_spec (n : positive) :
  forall mrs : shr_record,
    0 <= shr_m mrs ->
    shr_m (iter_pos shr_1 n mrs) = Z.shiftr (shr_m mrs) (Zpos n) /\
    shr_r (iter_pos shr_1 n mrs) = Z.testbit (shr_m mrs) (Zpos n - 1).
Proof.
  induction n as [n IH | n IH |]; intros mrs Hm; cbn [iter_pos].
  - destruct (shr_1_spec mrs Hm) as (Ha & _).
    assert (Ha0 : 0 <= shr_m (shr_1 mrs)) by (rewrite Ha; now apply Z.shiftr_nonneg).
    destruct (IH _ Ha0) as (Hb & _).
    assert (Hb0 : 0 <= shr_m (iter_pos shr_1 n (shr_1 mrs)))
      by (rewrite Hb; now apply Z.shiftr_nonneg).
    destruct (IH _ Hb0) as (Hc & Hr).
    rewrite Hc, Hr, Hb, Ha. split.
    + rewrite !Z.shiftr_shiftr by lia. f_equal. lia.
    + rewrite Z.shiftr_shiftr by lia. rewrite Z.shiftr_spec by lia. f_equal. lia.
  - destruct (IH _ Hm) as (Hb & _).
    assert (Hb0 : 0 <= shr_m (iter_pos shr_1 n mrs))
      by (rewrite Hb; now apply Z.shiftr_nonneg).
    destruct (IH _ Hb0) as (Hc & Hr).
    rewrite Hc, Hr, Hb. split.
    + rewrite !Z.shiftr_shiftr by lia. f_equal. lia.
    + rewrite Z.shiftr_spec by lia. f_equal. lia.
  - destruct (shr_1_spec mrs Hm) as (Ha & Hr). now rewrite Ha, Hr.
Qed.

(** The end of a rounding: a mantissa of 53 digits is kept, [2^53] is
    renormalised; the exponent decides between a number and infinity. *)
Lemma round_tail (m e : Z) :
  2 ^ 52 <= m <= 2 ^ 53 -> -1074 <= e ->
  (let '(mrs, e') := shr_fexp prec emax m e loc_Exact in
   match shr_m mrs with
   | Z0 => S754_zero false
   | Zpos m' => if e' <=? emax - prec then S754_finite false m' e'
                else S754_infinity false
   | Zneg _ => S754_nan
   end)
  = if m <? 2 ^ 53
    then (if e <=? 971 then S754_finite false (Z.to_pos m) e else S754_infinity false)
    else (if e + 1 <=? 971 then S754_finite false (Z.to_pos (2 ^ 52)) (e + 1)
          else S754_infinity false).
Proof.
  intros Hm He. unfold shr_fexp.
  destruct (Z.ltb_spec m (2 ^ 53)) as [Hlt | Hge].
  - destruct m as [| pm | pm]; try lia.
    cbn [Zdigits2]. rewrite (digits_normal pm) by lia.
    rewrite fexp_53 by lia. rewrite Z.sub_diag.
    cbn [shr shr_record_of_loc shr_m]. reflexivity.
  - assert (E : m = 2 ^ 53) by lia. subst m.
    change (Zdigits2 (2 ^ 53)) with 54.
    rewrite fexp_54 by lia.
    replace (e + 1 - e) with 1 by lia.
    cbn [shr iter_pos shr_record_of_loc].
    change (shr_m (shr_1 {| shr_m := 2 ^ 53; shr_r := false; shr_s := false |}))
      with (2 ^ 52).
    change (2 ^ 52) with (Zpos (Z.to_pos (2 ^ 52))) at 1. cbv iota.
    reflexivity.
Qed.

Lemma loc_rounds_up (mrs : shr_record) :
  shr_r mrs = true -> Z.even (shr_m mrs) = false ->
  round_nearest_even (shr_m mrs) (loc_of_shr_record mrs) = shr_m mrs + 1.
Proof.
  destruct mrs as [m r s]. cbn [shr_m shr_r]. intros -> Hodd.
  destruct s; cbn [loc_of_shr_record round_nearest_even]; [reflexivity |].
  now rewrite Hodd.
Qed.

(** An integer of [d] binary digits, cut down to 53 of them. *)
Lemma shift_to_53 (Q d : Z) :
  53 <= d -> 2 ^ (d - 1) <= Q < 2 ^ d ->
  2 ^ 52 <= Z.shiftr Q (d - 53) < 2 ^ 53.
Proof.
  intros Hd (Hlo & Hhi).
  rewrite Z.shiftr_div_pow2 by lia.
  assert (Hn : 0 < 2 ^ (d - 53)) by (apply Z.pow_pos_nonneg; lia).
  assert (H1 : 2 ^ (d - 1) = 2 ^ 52 * 2 ^ (d - 53)).
  { rewrite <- Z.pow_add_r by lia. f_equal. lia. }
  assert (H2 : 2 ^ d = 2 ^ 53 * 2 ^ (d - 53)).
  { rewrite <- Z.pow_add_r by lia. f_equal. lia. }
  split.
  - apply Z.div_le_lower_bound; [exact Hn |]. rewrite Z.mul_comm. lia.
  - apply Z.div_lt_upper_bound; [exact Hn |]. rewrite Z.mul_comm. lia.
Qed.

(** An integer of [(2^54 - 1) * 2^970] or more rounds to infinity. *)
Lemma binary_round_aux_overflow (Q : Z) (l : location) :
  (2 ^ 54 - 1) * 2 ^ 970 <= Q ->
  binary_round_aux prec emax false Q 0 l = S754_infinity false.
Proof.
  intros HQ.
  assert (H1023 : 2 ^ 1023 < (2 ^ 54 - 1) * 2 ^ 970) by (vm_compute; reflexivity).
  destruct Q as [| pq | pq]; try lia.
  destruct (digits_bounds pq) as (Hlo & Hhi).
  set (d := Zpos (digits2_pos pq)) in *.
  assert (Hd : 1024 <= d).
  { destruct (Z.le_gt_cases 1024 d) as [H | H]; [exact H | exfalso].
    assert (2 ^ d <= 2 ^ 1023) by (apply Z.pow_le_mono_r; lia). lia. }
  unfold binary_round_aux.
  assert (Hfirst : shr_fexp prec emax (Zpos pq) 0 l
                   = (iter_pos shr_1 (Z.to_pos (d - 53)) (shr_record_of_loc (Zpos pq) l),
                      d - 53)).
  { unfold shr_fexp. cbn [Zdigits2]. fold d.
    replace (fexp prec emax (d + 0) - 0) with (d - 53)
      by (unfold fexp, emin, prec, emax; lia).
    destruct (d - 53) as [| n | n] eqn:E; try lia. reflexivity. }
  rewrite Hfirst.
  set (mrs := iter_pos shr_1 (Z.to_pos (d - 53)) (shr_record_of_loc (Zpos pq) l)).
  destruct (loc_of_record_of_loc (Zpos pq) l) as (_ & Hm0).
  destruct (iter_shr_1_spec (Z.to_pos (d - 53)) (shr_record_of_loc (Zpos pq) l))
    as (Hm & Hr); [rewrite Hm0; lia |].
  fold mrs in Hm, Hr. rewrite Hm0, Z2Pos.id in Hm, Hr by lia.
  pose proof (shift_to_53 (Zpos pq) d ltac:(lia) (conj Hlo Hhi)) as Hm53.
  rewrite <- Hm in Hm53.
  assert (Hcases : round_nearest_even (shr_m mrs) (loc_of_shr_record mrs) = shr_m mrs \/
                   round_nearest_even (shr_m mrs) (loc_of_shr_record mrs) = shr_m mrs + 1)
    by apply round_nearest_even_cases.
  set (m1 := round_nearest_even (shr_m mrs) (loc_of_shr_record mrs)) in *.
  rewrite (round_tail m1 (d - 53)) by lia.
  destruct (Z.eq_dec d 1024) as [E | Hbig].
  - (* 1024 digits: the mantissa is [2^53 - 1] and is rounded up *)
    assert (Hup : m1 = 2 ^ 53).
    { rewrite E in *. change (1024 - 53) with 971 in *.
      assert (Hmax : shr_m mrs = 2 ^ 53 - 1).
      { assert (2 ^ 53 - 1 <= shr_m mrs); [| lia].
        rewrite Hm, Z.shiftr_div_pow2 by lia.
        apply Z.div_le_lower_bound; [apply Z.pow_pos_nonneg; lia |].
        assert (Hb : 2 ^ 971 * (2 ^ 53 - 1) <= (2 ^ 54 - 1) * 2 ^ 970)
          by (vm_compute; discriminate).
        lia. }
      assert (Hbit : shr_r mrs = true).
      { rewrite Hr. change (971 - 1) with 970.
        apply Z.testbit_true; [lia |].
        assert (Hq : Zpos pq / 2 ^ 970 = 2 ^ 54 - 1).
        { assert (G1 : 2 ^ 54 - 1 <= Zpos pq / 2 ^ 970).
          { apply Z.div_le_lower_bound; [apply Z.pow_pos_nonneg; lia |].
            rewrite Z.mul_comm. exact HQ. }
          assert (G2 : Zpos pq / 2 ^ 970 < 2 ^ 54).
          { apply Z.div_lt_upper_bound; [apply Z.pow_pos_nonneg; lia |].
            change (2 ^ 970 * 2 ^ 54) with (2 ^ 1024). exact Hhi. }
          lia. }
        rewrite Hq. reflexivity. }
      subst m1. rewrite loc_rounds_up; [lia | exact Hbit |].
      rewrite Hmax. reflexivity. }
    rewrite Hup, Z.ltb_irrefl.
    destruct (Z.leb_spec (d - 53 + 1) 971); [lia | reflexivity].
  - destruct (m1 <? 2 ^ 53).
    + destruct (Z.leb_spec (d - 53) 971); [lia | reflexivity].
    + destruct (Z.leb_spec (d - 53 + 1) 971); [lia | reflexivity].
Qed.

(** So does a quotient of that size. *)
Lemma SFdiv_overflow (p q : positive) :
  (2 ^ 54 - 1) * 2 ^ 970 * Zpos q <= Zpos p ->
  SFdiv prec emax (S754_finite false p 0) (S754_finite false q 0)
  = S754_infinity false.
Proof.
  intros Hpq.
  assert (H1023 : 2 ^ 1023 < (2 ^ 54 - 1) * 2 ^ 970) by (vm_compute; reflexivity).
  set (B := (2 ^ 54 - 1) * 2 ^ 970) in *.
  unfold SFdiv, SFdiv_core_binary. cbn [Zdigits2 xorb].
  destruct (digits_bounds p) as (_ & Hp). destruct (digits_bounds q) as (Hq & _).
  set (d1 := Zpos (digits2_pos p)) in *. set (d2 := Zpos (digits2_pos q)) in *.
  assert (Hd : 1023 + d2 <= d1).
  { destruct (Z.le_gt_cases (1023 + d2) d1) as [H | H]; [exact H | exfalso].
    assert (H2 : 2 ^ d1 <= 2 ^ (1023 + (d2 - 1))) by (apply Z.pow_le_mono_r; lia).
    rewrite Z.pow_add_r in H2 by lia.
    assert (0 < 2 ^ (d2 - 1)) by (apply Z.pow_pos_nonneg; lia).
    set (T := 2 ^ 1023) in *. set (U := 2 ^ (d2 - 1)) in *. set (V := 2 ^ d1) in *.
    assert (HT : 0 < T) by (vm_compute; reflexivity).
    clearbody B T U V.
    assert (T * U <= T * Zpos q) by (apply Z.mul_le_mono_nonneg_l; lia).
    assert (T * Zpos q < B * Zpos q) by (apply Z.mul_lt_mono_pos_r; lia).
    lia. }
  replace (Z.min (fexp prec emax (d1 + 0 - (d2 + 0))) (0 - 0)) with 0
    by (unfold fexp, emin, prec, emax; lia).
  change (0 - 0 - 0) with 0. cbv iota.
  pose proof (Z_div_mod (Zpos p) (Zpos q) eq_refl) as Hdiv.
  destruct (Z.div_eucl (Zpos p) (Zpos q)) as [Q r]. destruct Hdiv as (HQ & Hr).
  apply binary_round_aux_overflow. fold B. clearbody B.
  destruct (Z.le_gt_cases B Q) as [H | H]; [exact H | exfalso].
  assert (Zpos q * Q <= Zpos q * (B - 1)) by (apply Z.mul_le_mono_nonneg_l; lia).
  lia.
Qed.

(** ** Decimals that round to infinity *)

Lemma overflows_spec (c : N) (e : Z) :
  overflows c e = false <-> below_overflow c e.
Proof.
  unfold below_overflow, pow_up, pow_down.
  assert (HB0 : 0 < (2 ^ 54 - 1) * 2 ^ 970) by (vm_compute; reflexivity).
  assert (HB : (2 ^ 54 - 1) * 2 ^ 970 < 10 ^ 401) by (vm_compute; reflexivity).
  destruct c as [| cp]; cbn [overflows Z.of_N].
  { split; [intros _ | reflexivity].
    assert (0 < 10 ^ Z.max (- e) 0) by (apply Z.pow_pos_nonneg; lia).
    set (B := (2 ^ 54 - 1) * 2 ^ 970) in *. clearbody B. nia. }
  set (B := (2 ^ 54 - 1) * 2 ^ 970) in *.
  destruct (Z.ltb_spec 400 e) as [He | He].
  - split; [discriminate | intros H; exfalso].
    replace (Z.max e 0) with e in * by lia.
    replace (Z.max (- e) 0) with 0 in * by lia.
    change (10 ^ 0) with 1 in *.
    assert (HT : 10 ^ 401 <= 10 ^ e) by (apply Z.pow_le_mono_r; lia).
    set (T := 10 ^ 401) in *. set (E := 10 ^ e) in *. clearbody B T E.
    assert (E <= Zpos cp * E) by nia.
    lia.
  - clear HB. clearbody B. destruct e as [| k | k].
    + change (Z.max 0 0) with 0. change (Z.max (- 0) 0) with 0.
      change (10 ^ 0) with 1. rewrite Z.leb_gt. lia.
    + replace (Z.max (Zpos k) 0) with (Zpos k) by lia.
      replace (Z.max (- Zpos k) 0) with 0 by lia.
      change (10 ^ 0) with 1. rewrite Z.leb_gt. lia.
    + replace (Z.max (Zneg k) 0) with 0 by lia.
      replace (Z.max (- Zneg k) 0) with (Zpos k) by lia.
      change (10 ^ 0) with 1. rewrite Z.leb_gt. lia.
Qed.

Lemma round_decimal_overflow (c : N) (e : Z) :
  overflows c e = true ->
  round_decimal c e = PrimFloat.infinity \/ round_decimal c e = PrimFloat.zero.
Proof.
  destruct c as [| p]; cbn [overflows round_decimal]; [discriminate |].
  destruct (400 <? e); [now left |].
  destruct (e + Z.log2 (Zpos p) + 1 <? -400); [now right |].
  intros H. left. unfold round_ratio.
  destruct e as [| k | k]; apply Z.leb_le in H; rewrite SFdiv_overflow; try reflexivity.
  - lia.
  - rewrite Pos2Z.inj_mul, Pos2Z.inj_pow. lia.
  - rewrite Pos2Z.inj_pow. exact H.
Qed.

(** A decimal that reads back as a finite number does not round to
    infinity. *)
Lemma reads_back_below (x : number) (m : positive) (e0 : Z) (c : N) (e : Z) :
  Prim2SF x = S754_finite false m e0 ->
  reads_back x c e = true -> below_overflow c e.
Proof.
  intros Hx Hback. apply overflows_spec.
  destruct (overflows c e) eqn:Hover; [exfalso | reflexivity].
  unfold reads_back in Hback. rewrite eqb_spec, Hx in Hback.
  destruct (round_decimal_overflow c e Hover) as [H | H]; rewrite H in Hback.
  - change (Prim2SF PrimFloat.infinity) with (S754_infinity false) in Hback.
    discriminate Hback.
  - change (Prim2SF PrimFloat.zero) with (S754_zero false) in Hback.
    discriminate Hback.
Qed.

Lemma below_step (c : N) (e : Z) :
  below_overflow (10 * c) e -> below_overflow c (e + 1).
Proof.
  unfold below_overflow. rewrite N2Z.inj_mul. change (Z.of_N 10) with 10.
  set (B := (2 ^ 54 - 1) * 2 ^ 970). clearbody B.
  pose proof (pow_up_pos e). pose proof (pow_down_pos (e + 1)).
  destruct (pow_step e) as [(-> & -> & ->) | (-> & -> & ->)]; nia.
Qed.

Lemma strip_zeros_below (fuel : nat) :
  forall (c : N) (e : Z),
    below_overflow c e ->
    below_overflow (fst (strip_zeros fuel c e)) (snd (strip_zeros fuel c e)).
Proof.
  induction fuel as [| fuel IH]; intros c e H; [exact H |].
  cbn [strip_zeros].
  destruct ((0 <? c) && (c mod 10 =? 0))%N eqn:E; [| exact H].
  apply andb_true_iff in E as [_ E]. apply N.eqb_eq in E.
  apply IH, below_step.
  replace (10 * (c / 10))%N with c; [exact H |].
  pose proof (N.div_mod c 10 ltac:(lia)). lia.
Qed.

Lemma shortest_from_below (x : number) (m : positive) (e0 : Z) (p q : positive)
  (n0 : Z) (fuel : nat) :
  Prim2SF x = S754_finite false m e0 ->
  Zpos p < (2 ^ 54 - 1) * 2 ^ 970 * Zpos q ->
  forall k : Z,
    below_overflow (fst (shortest_from fuel k x p q n0))
      (snd (shortest_from fuel k x p q n0)).
Proof.
  intros Hx Hp.
  induction fuel as [| fuel IH]; intros k.
  all: cbn [shortest_from].
  all: destruct (scaled_spec p q (k - n0)) as (Hnum & Hden).
  all: destruct (scaled p q (k - n0)) as [num den]; cbn [fst snd] in Hnum, Hden.
  all: pose proof (N.div_mod (Npos num) (Npos den) ltac:(lia)) as Hdm.
  all: set (lo := (Npos num / Npos den)%N) in *.
  all: set (r := (Npos num mod Npos den)%N) in *.
  all: assert (Hlo : below_overflow lo (n0 - k)).
  1, 3: unfold below_overflow; replace (n0 - k) with (- (k - n0)) by lia;
        rewrite pow_down_opp, pow_up_opp;
        pose proof (pow_up_pos (k - n0)); pose proof (pow_down_pos (k - n0));
        set (B := (2 ^ 54 - 1) * 2 ^ 970) in *; clearbody B;
        set (pu := pow_up (k - n0)) in *; set (pd := pow_down (k - n0)) in *;
        clearbody pu pd;
        assert (Z.of_N lo * pd * Zpos q < B * pu * Zpos q) by nia;
        nia.
  all: assert (Hhi : reads_back x (lo + 1) (n0 - k) = true ->
                     below_overflow (lo + 1)%N (n0 - k))
         by apply (reads_back_below x m e0 _ _ Hx).
  all: destruct (reads_back x (lo + 1) (n0 - k));
       [specialize (Hhi eq_refl) | rewrite andb_false_r].
  all: destruct (reads_back x lo (n0 - k)); cbn [andb].
  all: try destruct (negb (r =? 0)%N); cbn [andb].
  all: try (destruct (2 * r ?= Npos den)%N; [destruct (N.even lo) | |]);
       cbn [fst snd]; try assumption.
  all: apply IH.
Qed.

(** A finite number, as a fraction: at least [2^-1074] and below the
    magnitude that rounds to infinity. *)
Lemma finite_ratio (x : number) (s : bool) (m : positive) (e : Z) :
  Prim2SF x = S754_finite s m e ->
  let (p, q) := ratio m e in
  Zpos q <= Zpos p * 2 ^ 1074 /\
  Zpos p < (2 ^ 54 - 1) * 2 ^ 970 * Zpos q.
Proof.
  intros Hx. pose proof (Prim2SF_valid x) as Hvalid.
  rewrite Hx in Hvalid.
  cbn [valid_binary] in Hvalid. unfold bounded in Hvalid.
  apply andb_true_iff in Hvalid as [Hcanon Hmax].
  apply Z.leb_le in Hmax. unfold emax, prec in Hmax.
  assert (Hm : Zpos m < 2 ^ 53 /\ -1074 <= e).
  { unfold canonical_mantissa, fexp, SpecFloat.emin, prec, emax in Hcanon.
    apply Z.eqb_eq in Hcanon.
    destruct (digits_bounds m) as (_ & Hup).
    split; [| lia].
    apply Z.lt_le_trans with (2 ^ Zpos (digits2_pos m)); [exact Hup |].
    apply Z.pow_le_mono_r; lia. }
  destruct Hm as (Hm & He).
  assert (HB : (2 ^ 54 - 1) * 2 ^ 970 = (2 * 2 ^ 53 - 1) * 2 ^ 970)
    by (vm_compute; reflexivity).
  assert (H971 : 2 ^ 971 = 2 * 2 ^ 970) by (vm_compute; reflexivity).
  rewrite HB. clear HB.
  assert (H970 : 0 < 2 ^ 970) by (vm_compute; reflexivity).
  assert (H1074 : 0 < 2 ^ 1074) by (vm_compute; reflexivity).
  assert (H53 : 1 <= 2 ^ 53) by (vm_compute; discriminate).
  unfold ratio. destruct e as [| k | k].
  - set (S53 := 2 ^ 53) in *. set (S970 := 2 ^ 970) in *.
    set (S1074 := 2 ^ 1074) in *. clearbody S53 S970 S1074. split; nia.
  - rewrite Pos2Z.inj_mul, Pos2Z.inj_pow.
    assert (Hk : 2 ^ Zpos k <= 2 ^ 971) by (apply Z.pow_le_mono_r; lia).
    assert (H0 : 0 < 2 ^ Zpos k) by (apply Z.pow_pos_nonneg; lia).
    rewrite H971 in Hk.
    set (S53 := 2 ^ 53) in *. set (S970 := 2 ^ 970) in *.
    set (S1074 := 2 ^ 1074) in *. set (K := 2 ^ Zpos k) in *.
    clearbody S53 S970 S1074 K.
    split; [nia |].
    assert (Zpos m * K <= (S53 - 1) * (2 * S970)) by nia.
    nia.
  - rewrite Pos2Z.inj_pow.
    assert (Hk : 2 ^ Zpos k <= 2 ^ 1074) by (apply Z.pow_le_mono_r; lia).
    assert (H0 : 0 < 2 ^ Zpos k) by (apply Z.pow_pos_nonneg; lia).
    set (S53 := 2 ^ 53) in *. set (S970 := 2 ^ 970) in *.
    set (S1074 := 2 ^ 1074) in *. set (K := 2 ^ Zpos k) in *.
    clearbody S53 S970 S1074 K.
    split; [nia |].
    assert (Zpos m * 1 <= (2 * S53 - 1) * S970 * 1) by nia.
    nia.
Qed.

(** The decimal a finite number prints as does not round to infinity. *)
Lemma shortest_decimal_below (x : number) (m : positive) (e : Z) :
  Prim2SF x = S754_finite false m e ->
  below_overflow (fst (shortest_decimal x m e)) (snd (shortest_decimal x m e)).
Proof.
  intros Hx. pose proof (finite_ratio x false m e Hx) as Hratio.
  unfold shortest_decimal. destruct (ratio m e) as [p q].
  destruct Hratio as (_ & Hp).
  pose proof (shortest_from_below x m e p q (decimal_exponent p q) 16 Hx Hp 1) as H.
  destruct (shortest_from 16 1 x p q (decimal_exponent p q)) as [c e'].
  now apply strip_zeros_below.
Qed.

Lemma below_flat (c : N) (k : Z) :
  0 <= k -> below_overflow c k -> below_overflow (c * 10 ^ Z.to_N k) 0.
Proof.
  intros Hk. unfold below_overflow, pow_up, pow_down.
  replace (Z.max k 0) with k by lia.
  replace (Z.max (- k) 0) with 0 by lia.
  change (Z.max 0 0) with 0. change (Z.max (- 0) 0) with 0.
  change (10 ^ 0) with 1.
  rewrite N2Z.inj_mul, N2Z.inj_pow, Z2N.id by exact Hk.
  change (Z.of_N 10) with 10. lia.
Qed.

(** A decimal near a finite number, and below the magnitude that rounds to
    infinity, is kept as it is. *)
Lemma classify_kept (p q : positive) (c : N) (e : Z) :
  near p q c e ->
  Zpos q <= Zpos p * 2 ^ 1074 ->
  below_overflow c e ->
  classify_decimal false c e = Finite false c e.
Proof.
  intros (Hc & Hle & Hlt) Hsmall Hbelow.
  apply overflows_spec in Hbelow as Hover.
  destruct c as [| cp]; [cbn in Hc; lia |]. cbn [Z.of_N] in *.
  unfold pow_up, pow_down in Hle, Hlt. clear Hbelow.
  pose proof I as Hbig.
  assert (Hunder : underflows (Npos cp) e = false).
  { cbn [underflows]. clear Hbig Hle.
    pose proof (Z.log2_nonneg (Zpos cp)) as HL0.
    destruct e as [| k | k].
    - destruct (Z.ltb_spec (0 + Z.log2 (Zpos cp) + 1) (-400)); [lia | reflexivity].
    - destruct (Z.ltb_spec (Zpos k + Z.log2 (Zpos cp) + 1) (-400)); [lia | reflexivity].
    - replace (Z.max (Zneg k) 0) with 0 in * by lia.
      replace (Z.max (- Zneg k) 0) with (Zpos k) in * by lia.
      change (10 ^ 0) with 1 in *.
      assert (H10 : 10 ^ Zpos k < Zpos cp * 2 ^ 1075).
      { replace (2 ^ 1075) with (2 * 2 ^ 1074) by (vm_compute; reflexivity).
        assert (HW : 0 < 2 ^ 1074) by (apply Z.pow_pos_nonneg; lia).
        set (W := 2 ^ 1074) in *. set (E := 10 ^ Zpos k) in *. clearbody W E.
        assert (Zpos p * E < 2 * Zpos cp * (Zpos p * W)) by nia.
        nia. }
      clear Hlt Hsmall.
      destruct (Z.ltb_spec (Zneg k + Z.log2 (Zpos cp) + 1) (-400)) as [Hl | Hl].
      + exfalso.
        destruct (Z.log2_spec (Zpos cp) ltac:(lia)) as (_ & Hup).
        rewrite <- Z.add_1_r in Hup.
        assert (Hk : 402 <= Zpos k) by lia.
        assert (H2 : 2 ^ (Z.log2 (Zpos cp) + 1) <= 2 ^ (Zpos k - 401))
          by (apply Z.pow_le_mono_r; lia).
        assert (H5 : 5 ^ 402 <= 5 ^ Zpos k) by (apply Z.pow_le_mono_r; lia).
        assert (Hn : 2 ^ 674 < 5 ^ 402) by (vm_compute; reflexivity).
        assert (Hsplit : 10 ^ Zpos k = 2 ^ Zpos k * 5 ^ Zpos k).
        { change 10 with (2 * 5). apply Z.pow_mul_l. }
        assert (Hadd : 2 ^ (Zpos k - 401) * 2 ^ 1075 = 2 ^ Zpos k * 2 ^ 674).
        { rewrite <- !Z.pow_add_r by lia. f_equal. lia. }
        assert (H2k : 0 < 2 ^ Zpos k) by (apply Z.pow_pos_nonneg; lia).
        assert (HW : 0 < 2 ^ 1075) by (apply Z.pow_pos_nonneg; lia).
        rewrite Hsplit in H10.
        set (A := 2 ^ Zpos k) in *. set (F := 5 ^ Zpos k) in *.
        set (W := 2 ^ 1075) in *. set (U := 2 ^ (Zpos k - 401)) in *.
        set (L := 2 ^ (Z.log2 (Zpos cp) + 1)) in *.
        set (S674 := 2 ^ 674) in *. set (F402 := 5 ^ 402) in *.
        clearbody A F W U L S674 F402.
        assert (A * F < U * W) by nia.
        assert (A * F < A * S674) by lia.
        nia.
      + apply Z.leb_gt. exact H10. }
  unfold classify_decimal. now rewrite Hover, Hunder.
Qed.

(** ** Numbers and converted amounts, once formatted *)

Lemma not_zero_of_finite (x : number) (s : bool) (m : positive) (e : Z) :
  Prim2SF x = S754_finite s m e -> PrimFloat.is_zero x = false.
Proof.
  unfold Prim2SF. destruct (PrimFloat.is_nan x); [discriminate |].
  destruct (PrimFloat.is_zero x); [discriminate | reflexivity].
Qed.

(** A finite number other than a zero is formatted from the text it prints
    as. *)
Lemma format_number_text (l : locale) (x : number) (s : bool) (m : positive) (e : Z) :
  Prim2SF x = S754_finite s m e ->
  format l (VNumber x) = format l (VString (Number_toString x)).
Proof.
  intros Hx. unfold format, ToIntlMathematicalValue. cbn [ToNumber].
  now rewrite (not_zero_of_finite x s m e Hx).
Qed.

(** The decimal a positive finite number prints as is formatted as it is,
    rounded to three decimals. *)
Lemma format_printed (l : locale) (x : number) (m : positive) (e : Z) :
  Prim2SF x = S754_finite false m e ->
  exists n : N,
    nearest_decimal 3 (fst (printed x)) (snd (printed x)) n /\
    format l (VNumber x) = format_magnitude l 3 n.
Proof.
  intros Hx.
  assert (Habs : Prim2SF (PrimFloat.abs x) = S754_finite false m e)
    by (now rewrite abs_spec, Hx).
  rewrite (format_number_text l x false m e Hx).
  unfold printed, Number_toString. rewrite Hx. cbn [sign_text append].
  unfold toString_finite.
  pose proof (shortest_decimal_near (PrimFloat.abs x) m e) as Hnear.
  pose proof (shortest_decimal_below (PrimFloat.abs x) m e Habs) as Hbelow.
  pose proof (finite_ratio x false m e Hx) as Hratio.
  destruct (ratio m e) as [p q]. destruct Hratio as (Hsmall & _).
  specialize (Hnear Hsmall).
  destruct (shortest_decimal (PrimFloat.abs x) m e) as [c k].
  cbn [fst snd] in *.
  assert (Hc : (1 <= c)%N) by (destruct Hnear as (Hc & _); lia).
  destruct (render_decimal_reads c k Hc) as (Hwhite & ip & fp & e' & Hlit & Hval).
  unfold format, ToIntlMathematicalValue.
  rewrite (StringIntlMV_literal _ false ip fp e' Hwhite Hlit).
  destruct Hval as [(-> & ->) | (Hk & -> & ->)].
  - rewrite (classify_kept p q c k Hnear Hsmall Hbelow).
    exists (round_half_expand 3 c k). split; [apply round_half_expand_nearest | reflexivity].
  - rewrite (classify_kept p q _ 0 (near_flat p q c k Hk Hnear) Hsmall
               (below_flat c k Hk Hbelow)).
    exists (round_half_expand 3 (c * 10 ^ Z.to_N k) 0). split; [| reflexivity].
    apply nearest_decimal_flat; [exact Hk | apply round_half_expand_nearest].
Qed.

(** ** Properties of the handlers *)

Import JSNumber JSValue App.

Section HandlerFacts.

Variable host_locale : Intl.locale.
Variable currencyToFlagCode : string -> option flag_data.

Local Abbreviation updateExchangeRate := (App.updateExchangeRate host_locale).
Local Abbreviation changeFlag := (App.changeFlag currencyToFlagCode).
Local Abbreviation buttonSwap_click := (App.buttonSwap_click host_locale).
Local Abbreviation selectElement_change :=
  (App.selectElement_change host_locale currencyToFlagCode).
Local Abbreviation handleConvert_resume := (App.handleConvert_resume host_locale).
Local Abbreviation step := (App.step host_locale currencyToFlagCode).
Local Abbreviation run := (App.run host_locale currencyToFlagCode).

(** Projections of the setters, without unfolding the handlers. *)
Ltac page_simpl :=
  cbn [set_input set_selects set_images set_text set_isFetching
       set_conversionRate set_amounts
       inputSourceCurrency_value selectSourceCurrency_value
       selectTargetCurrency_value imageSourceCurrency_src
       imageTargetCurrency_src exchangeRateText_textContent isFetching
       conversionRate sourceCurrentValue targetCurrentValue
       page in_flight trace] in *.

(** The recomputation writes the two amounts and the status text, nothing
    else. *)
Lemma updateExchangeRate_frame (s : state) :
  let s' := updateExchangeRate s in
  inputSourceCurrency_value s' = inputSourceCurrency_value s /\
  selectSourceCurrency_value s' = selectSourceCurrency_value s /\
  selectTargetCurrency_value s' = selectTargetCurrency_value s /\
  imageSourceCurrency_src s' = imageSourceCurrency_src s /\
  imageTargetCurrency_src s' = imageTargetCurrency_src s /\
  isFetching s' = isFetching s /\
  conversionRate s' = conversionRate s.
Proof. repeat split. Qed.

Lemma updateExchangeRate_amounts (s : state) :
  let source := or_else (parseFloat (inputSourceCurrency_value s)) PrimFloat.zero in
  sourceCurrentValue (updateExchangeRate s) = source /\
  targetCurrentValue (updateExchangeRate s)
  = VString (toFixed 2 (js_mul (VNumber source) (conversionRate s))).
Proof. split; reflexivity. Qed.

(** Changing a flag touches the two images only. *)
Lemma changeFlag_frame (r : role) (s : state) :
  let s' := changeFlag r s in
  inputSourceCurrency_value s' = inputSourceCurrency_value s /\
  selectSourceCurrency_value s' = selectSourceCurrency_value s /\
  selectTargetCurrency_value s' = selectTargetCurrency_value s /\
  exchangeRateText_textContent s' = exchangeRateText_textContent s /\
  isFetching s' = isFetching s /\
  conversionRate s' = conversionRate s /\
  sourceCurrentValue s' = sourceCurrentValue s /\
  targetCurrentValue s' = targetCurrentValue s.
Proof.
  unfold App.changeFlag.
  destruct r; [destruct (currencyToFlagCode (selectSourceCurrency_value s))
              | destruct (currencyToFlagCode (selectTargetCurrency_value s))];
    repeat split.
Qed.

Lemma zero_as_text : ToString (VNumber PrimFloat.zero) = "0".
Proof. reflexivity. Qed.

Lemma zero_text_parses : or_else (parseFloat "0") PrimFloat.zero = PrimFloat.zero.
Proof. reflexivity. Qed.

(** The page after a dropdown changed. *)
Lemma selectElement_change_fields (r : role) (s : state) :
  let s' := selectElement_change r s in
  isFetching s' = false /\
  inputSourceCurrency_value s' = "0" /\
  sourceCurrentValue s' = PrimFloat.zero /\
  conversionRate s' = conversionRate s /\
  selectSourceCurrency_value s' = selectSourceCurrency_value s /\
  selectTargetCurrency_value s' = selectTargetCurrency_value s.
Proof.
  cbv zeta. unfold App.selectElement_change.
  set (s3 := updateExchangeRate _).
  destruct (changeFlag_frame r s3) as (Hi & Hs & Ht & _ & Hf & Hc & Hsrc & _).
  fold s3 in Hi, Hs, Ht, Hf, Hc, Hsrc.
  rewrite Hi, Hs, Ht, Hf, Hc, Hsrc.
  subst s3. repeat split.
Qed.

(** [C6] A change of either dropdown, from any page state and for any chosen
    code, leaves [isFetching] false and the amount reset to 0: the field
    reads "0" and [sourceCurrentValue] is 0. *)
Theorem select_change_invalidates_rate (w : world) (r : role) (code : string) :
  let s' := page (step w (SelectChange r code)) in
  isFetching s' = false /\
  inputSourceCurrency_value s' = "0" /\
  sourceCurrentValue s' = PrimFloat.zero.
Proof.
  cbv zeta. cbn [App.step page].
  match goal with |- context [App.selectElement_change _ _ r ?s] =>
    destruct (selectElement_change_fields r s) as (Hf & Hi & Hsrc & _) end.
  auto.
Qed.

(** [C10] A change of either dropdown keeps the number stored in
    [conversionRate]: the stale rate stays in the page, with [isFetching]
    cleared and the amount reset, and no request is issued. *)
Theorem select_change_keeps_rate_value (w : world) (r : role) (code : string) :
  let w' := step w (SelectChange r code) in
  conversionRate (page w') = conversionRate (page w) /\
  isFetching (page w') = false /\
  inputSourceCurrency_value (page w') = "0" /\
  in_flight w' = in_flight w.
Proof.
  cbv zeta. cbn [App.step page in_flight].
  match goal with |- context [App.selectElement_change _ _ r ?s] =>
    destruct (selectElement_change_fields r s) as (Hf & Hi & _ & Hc & _) end.
  rewrite Hc, Hf, Hi. destruct r; repeat split.
Qed.

(** [C2] From any page with [isFetching] set and the rate [R] held, a click
    on the swap button exchanges the two selected codes, replaces the rate by
    [1 / R], keeps [isFetching] set, and issues no request. *)
Theorem swap_inverts_valid_rate (w : world) (R : number) :
  isFetching (page w) = true ->
  conversionRate (page w) = VNumber R ->
  let w' := step w SwapClick in
  selectSourceCurrency_value (page w') = selectTargetCurrency_value (page w) /\
  selectTargetCurrency_value (page w') = selectSourceCurrency_value (page w) /\
  conversionRate (page w') = VNumber (PrimFloat.div PrimFloat.one R) /\
  isFetching (page w') = true /\
  in_flight w' = in_flight w /\
  trace w' = trace w.
Proof.
  intros Hvalid Hrate. cbv zeta. cbn [App.step page in_flight trace].
  unfold App.buttonSwap_click. page_simpl. rewrite Hvalid, Hrate.
  match goal with |- context [App.updateExchangeRate _ ?s] =>
    destruct (updateExchangeRate_frame s) as (_ & Hs & Ht & _ & _ & Hf & Hc);
    rewrite Hs, Ht, Hf, Hc
  end.
  page_simpl. repeat split; auto.
Qed.

(** [X5] When the request of [handleConvert] settles in the [catch] block
    ([fetch] rejected, the body was not JSON, or it parsed to [null]), the
    rate, [isFetching], both amounts, the amount field and the selections
    are what they were, and the status text shows the error. *)
Lemma catch_keeps_rate_and_amounts
  (w : world) (request : nat) (online : bool) (o : fetch_outcome) :
  raises o = true ->
  (request < List.length (in_flight w))%nat ->
  let w' := step w (Settle request online o) in
  conversionRate (page w') = conversionRate (page w) /\
  isFetching (page w') = isFetching (page w) /\
  sourceCurrentValue (page w') = sourceCurrentValue (page w) /\
  targetCurrentValue (page w') = targetCurrentValue (page w) /\
  inputSourceCurrency_value (page w') = inputSourceCurrency_value (page w) /\
  selectSourceCurrency_value (page w') = selectSourceCurrency_value (page w) /\
  selectTargetCurrency_value (page w') = selectTargetCurrency_value (page w) /\
  exchangeRateText_textContent (page w')
  = (if online then "Error fetching exchange rate!" else "No internet connection!") /\
  trace w' = (trace w ++ [ConsoleLog "Error fetching exchange rate!"])%list.
Proof.
  intros Hraise Hpending. cbv zeta. cbn [App.step].
  destruct (nth_error (in_flight w) request) eqn:Hnth.
  2:{ apply nth_error_None in Hnth. lia. }
  assert (Hcatch : handleConvert_resume online o (page w)
                   = handleConvert_catch online (page w)).
  { destruct o as [| |[|rate]]; try reflexivity. discriminate Hraise. }
  rewrite Hcatch. unfold handleConvert_catch. cbn [page trace].
  destruct online; repeat split.
Qed.

Lemma blank_amount_not_positive (s : state) :
  inputSourceCurrency_value s = "" -> amount_not_positive s = true.
Proof. unfold amount_not_positive. intros ->. reflexivity. Qed.



Lemma remove_nth_last {A} (l : list A) (x : A) :
  remove_nth (List.length l) (l ++ [x])%list = l.
Proof. induction l as [|y l IH]; cbn; [reflexivity | now rewrite IH]. Qed.

(** [C9] A request is issued for the pair (S1, T1); a dropdown then changes;
    the answer to the old request then arrives with a rate.  The handler
    stores that rate and sets [isFetching], although the page now shows the
    new pair: the request in flight was the one for (S1, T1), and nothing
    compares the pair again. *)
Theorem stale_response_overwrites_rate
  (w : world) (r : role) (code : string) (online : bool) (rate : value) :
  amount_not_positive (page w) = false ->
  let S1 := selectSourceCurrency_value (page w) in
  let T1 := selectTargetCurrency_value (page w) in
  let w1 := step w (ConvertClick true) in
  let w2 := step w1 (SelectChange r code) in
  let w3 := step w2 (Settle (List.length (in_flight w)) online (Parsed (DataWith rate))) in
  nth_error (in_flight w2) (List.length (in_flight w)) = Some (pair_url S1 T1) /\
  selectSourceCurrency_value (page w3)
  = match r with Source => code | Target => S1 end /\
  selectTargetCurrency_value (page w3)
  = match r with Source => T1 | Target => code end /\
  conversionRate (page w3) = rate /\
  isFetching (page w3) = true /\
  in_flight w3 = in_flight w.
Proof.
  unfold amount_not_positive. intros Hpos. cbv zeta.
  assert (H1 : step w (ConvertClick true)
               = World (set_text "Fetching exchange rate, please wait..." (page w))
                   (in_flight w ++
                      [pair_url (selectSourceCurrency_value (page w))
                         (selectTargetCurrency_value (page w))])%list
                   (trace w ++
                      [Fetch (pair_url (selectSourceCurrency_value (page w))
                                (selectTargetCurrency_value (page w)))])%list).
  { cbn [App.step]. unfold convert, handleConvert_begin. rewrite Hpos. reflexivity. }
  rewrite H1. clear H1.
  set (url := pair_url _ _).
  cbn [App.step page in_flight trace].
  assert (Hnth : nth_error (in_flight w ++ [url])%list (List.length (in_flight w)) = Some url).
  { rewrite nth_error_app2 by lia. now rewrite Nat.sub_diag. }
  rewrite Hnth. cbn [handleConvert_resume App.handleConvert_resume page in_flight].
  rewrite remove_nth_last.
  match goal with |- context [App.selectElement_change _ _ r ?s] =>
    destruct (selectElement_change_fields r s) as (_ & _ & _ & _ & Hs & Ht);
    set (s2 := App.selectElement_change host_locale currencyToFlagCode r s) in *
  end.
  match goal with |- context [App.updateExchangeRate _ ?s] =>
    destruct (updateExchangeRate_frame s) as (_ & Hs' & Ht' & _ & _ & Hf & Hc);
    rewrite Hs', Ht', Hf, Hc
  end.
  cbn [set_isFetching set_conversionRate selectSourceCurrency_value
       selectTargetCurrency_value isFetching conversionRate].
  rewrite Hs, Ht. destruct r; repeat split.
Qed.

(** Typing into the amount field while [isFetching] is set recomputes the
    amounts from the typed text, whatever its sign. *)
Lemma typed_amount_is_recomputed (w : world) (text : string) :
  isFetching (page w) = true ->
  let a := or_else (parseFloat text) PrimFloat.zero in
  let s' := page (step w (InputText text)) in
  inputSourceCurrency_value s' = text /\
  sourceCurrentValue s' = a /\
  targetCurrentValue s'
  = VString (toFixed 2 (js_mul (VNumber a) (conversionRate (page w)))) /\
  conversionRate s' = conversionRate (page w) /\
  isFetching s' = true.
Proof.
  intros Hvalid. cbv zeta. cbn [App.step page].
  unfold App.inputSourceCurrency_input.
  set (s0 := set_input text (page w)).
  assert (Hf0 : isFetching s0 = true) by exact Hvalid.
  rewrite Hf0. cbn [andb].
  set (s1 := if js_gt _ _ then updateExchangeRate s0 else s0).
  assert (H1 : inputSourceCurrency_value s1 = text /\
               conversionRate s1 = conversionRate (page w) /\
               isFetching s1 = true).
  { subst s1. destruct (js_gt _ _); [| now repeat split].
    destruct (updateExchangeRate_frame s0) as (Hi & _ & _ & _ & _ & Hf & Hc).
    rewrite Hi, Hf, Hc. now repeat split. }
  destruct H1 as (Hi1 & Hc1 & Hf1). rewrite Hf1.
  set (s2 := if String.eqb _ _ then set_input "" s1 else s1).
  assert (H2 : inputSourceCurrency_value s2 = text /\
               conversionRate s2 = conversionRate (page w) /\
               isFetching s2 = true).
  { subst s2. destruct (String.eqb_spec (inputSourceCurrency_value s1) "") as [E | E].
    - page_simpl. rewrite <- Hi1, E. now repeat split.
    - now repeat split. }
  destruct H2 as (Hi2 & Hc2 & Hf2).
  destruct (updateExchangeRate_frame s2) as (Hi & _ & _ & _ & _ & Hf & Hc).
  destruct (updateExchangeRate_amounts s2) as (Hsrc & Htgt).
  rewrite Hi, Hf, Hc, Hsrc, Htgt, Hi2, Hc2, Hf2. repeat split.
Qed.

(** [C1] With a rate [r > 0] held, the recomputation reads the amount
    [a >= 0] off the field (a blank or unreadable field counts as 0), keeps
    it in [sourceCurrentValue], and sets [targetCurrentValue] to the text of
    the binary64 product [a * r] rounded to two decimals: the hundredth
    nearest to the product, spelled with exactly two decimals and without a
    minus sign. *)
Theorem update_rounds_product_to_two_decimals (s : state) (r : number) :
  let a := or_else (parseFloat (inputSourceCurrency_value s)) PrimFloat.zero in
  PrimFloat.leb PrimFloat.zero a = true ->
  conversionRate s = VNumber r ->
  PrimFloat.ltb PrimFloat.zero r = true ->
  sourceCurrentValue (updateExchangeRate s) = a /\
  exists out : string,
    targetCurrentValue (updateExchangeRate s) = VString out /\
    rounded_to_hundredths (PrimFloat.mul a r) out /\
    negative_text out = false.
Proof.
  intros a Ha Hrate Hr.
  destruct (updateExchangeRate_amounts s) as (Hsrc & Htgt).
  split; [exact Hsrc |].
  exists (toFixed 2 (PrimFloat.mul a r)). split; [| split].
  - rewrite Htgt, Hrate. reflexivity.
  - apply toFixed_rounds.
  - now apply toFixed_not_negative.
Qed.

(** [C3] as the code has it: for every finite value that is [+0] or
    positive, [formatCurrency] applied to the number shows the decimal the
    number prints as, rounded to the nearest thousandth (the larger one on a
    tie): the integer digits in groups of three counted from the right, with
    the separator of the locale between the groups, then the decimals that
    are left once trailing zeros are dropped, and no decimal separator when
    none is left.  Applied to a converted amount, the text [toFixed(2)]
    produced, it shows the hundredth nearest to the value in the same way,
    so with at most two decimals and not with exactly two; a value of
    [10^21] or more is converted to the text the number prints as, and is
    shown as the number is. *)
Theorem formatCurrency_groups_and_trims (x : number) :
  finite_not_negative x = true ->
  (exists n : N,
     nearest_decimal 3 (fst (printed x)) (snd (printed x)) n /\
     shows_scaled host_locale 3 n (App.formatCurrency host_locale (VNumber x))) /\
  (if below_1e21 x
   then exists h : N,
          hundredths x h /\
          shows_scaled host_locale 2 h
            (App.formatCurrency host_locale (VString (toFixed 2 x)))
   else toFixed 2 x = ToString (VNumber x) /\
        App.formatCurrency host_locale (VString (toFixed 2 x))
        = App.formatCurrency host_locale (VNumber x)).
Proof.
  unfold finite_not_negative, App.formatCurrency. intros Hfinite.
  destruct (Prim2SF x) as [s | s | | s m e] eqn:Hx; try discriminate Hfinite.
  - (* +0 *)
    apply negb_true_iff in Hfinite. subst s.
    assert (E : x = PrimFloat.zero).
    { rewrite <- (SF2Prim_Prim2SF x), Hx. reflexivity. }
    subst x. split.
    + exists 0%N. split; [vm_compute; split; [discriminate | reflexivity] |].
      apply (format_magnitude_shown host_locale 3 0).
    + change (below_1e21 PrimFloat.zero) with true. cbv iota.
      exists 0%N. split; [reflexivity |].
      apply (format_magnitude_shown host_locale 2 0).
  - apply negb_true_iff in Hfinite. subst s. split.
    + destruct (format_printed host_locale x m e Hx) as (n & Hn & ->).
      exists n. split; [exact Hn | apply format_magnitude_shown].
    + unfold below_1e21, hundredths, toFixed. rewrite Hx.
      destruct (ratio m e) as [p q].
      destruct (Pos.pow 10 21 * q <=? p)%positive eqn:Hbig; cbn [negb].
      * assert (Htext : sign_text false ++ toString_finite (PrimFloat.abs x) m e
                        = Number_toString x).
        { unfold Number_toString. now rewrite Hx. }
        rewrite Htext. split; [reflexivity |].
        symmetry. apply (format_number_text host_locale x false m e Hx).
      * exists (nearest_scaled 2 p q). split; [apply nearest_scaled_nearest |].
        rewrite (format_fixed host_locale false (nearest_scaled 2 p q)
                   (nearest_scaled_bound p q Hbig)).
        apply format_magnitude_shown.
Qed.

(** Two clicks on the swap button with a rate [R] held leave the binary64
    value [1 / (1 / R)] as the rate. *)
Lemma swap_twice_rate (w : world) (R : number) :
  isFetching (page w) = true ->
  conversionRate (page w) = VNumber R ->
  conversionRate (page (step (step w SwapClick) SwapClick))
  = VNumber (PrimFloat.div PrimFloat.one (PrimFloat.div PrimFloat.one R)).
Proof.
  intros Hvalid Hrate. cbn [App.step page].
  assert (Hswap : forall s x,
    isFetching s = true -> conversionRate s = VNumber x ->
    isFetching (buttonSwap_click s) = true /\
    conversionRate (buttonSwap_click s) = VNumber (PrimFloat.div PrimFloat.one x)).
  { intros s x Hf Hc. unfold App.buttonSwap_click. page_simpl. rewrite Hf, Hc.
    match goal with |- context [App.updateExchangeRate _ ?s'] =>
      destruct (updateExchangeRate_frame s') as (_ & _ & _ & _ & _ & Hf' & Hc');
      rewrite Hf', Hc'
    end.
    page_simpl. split; [exact Hf | reflexivity]. }
  destruct (Hswap (page w) R Hvalid Hrate) as (Hf1 & Hc1).
  now destruct (Hswap _ _ Hf1 Hc1).
Qed.

(** Two clicks on the swap button put the two selected codes back. *)
Lemma swap_twice_restores_selection (w : world) :
  let w' := step (step w SwapClick) SwapClick in
  selectSourceCurrency_value (page w') = selectSourceCurrency_value (page w) /\
  selectTargetCurrency_value (page w') = selectTargetCurrency_value (page w) /\
  isFetching (page w') = isFetching (page w) /\
  in_flight w' = in_flight w.
Proof.
  cbv zeta. cbn [App.step page in_flight trace].
  assert (Hswap : forall s,
    selectSourceCurrency_value (buttonSwap_click s) = selectTargetCurrency_value s /\
    selectTargetCurrency_value (buttonSwap_click s) = selectSourceCurrency_value s /\
    isFetching (buttonSwap_click s) = isFetching s).
  { intros s. unfold App.buttonSwap_click.
    match goal with |- context [App.updateExchangeRate _ ?s'] =>
      destruct (updateExchangeRate_frame s') as (_ & Hs & Ht & _ & _ & Hf & _);
      rewrite Hs, Ht, Hf
    end.
    page_simpl. destruct (isFetching s) eqn:E; page_simpl; repeat split; exact E. }
  destruct (Hswap (page w)) as (H1 & H2 & H3).
  destruct (Hswap (buttonSwap_click (page w))) as (H4 & H5 & H6).
  rewrite H4, H5, H6, H1, H2, H3. repeat split.
Qed.

(** [C8] From any page with [isFetching] set and a rate [R] held, with
    [2^-1021 <= R < 2^1022], two clicks on the swap button put both selected
    codes back, keep [isFetching] set, issue no request, and leave a rate
    whose exact value differs from that of [R] by at most [R * 2^-52]. *)
Theorem swap_twice_restores_ordinary_rate (w : world) (R : number) :
  isFetching (page w) = true ->
  conversionRate (page w) = VNumber R ->
  ordinary_rate R = true ->
  let w' := step (step w SwapClick) SwapClick in
  selectSourceCurrency_value (page w') = selectSourceCurrency_value (page w) /\
  selectTargetCurrency_value (page w') = selectTargetCurrency_value (page w) /\
  isFetching (page w') = true /\
  in_flight w' = in_flight w /\
  exists R' : number,
    conversionRate (page w') = VNumber R' /\
    within_epsilon R' R = true.
Proof.
  intros Hvalid Hrate Hrange.
  destruct (swap_twice_restores_selection w) as (Hs & Ht & Hf & Hq).
  pose proof (swap_twice_rate w R Hvalid Hrate) as Hc.
  cbv zeta. rewrite Hs, Ht, Hf, Hq, Hc.
  refine (conj eq_refl (conj eq_refl (conj Hvalid (conj eq_refl _)))).
  eexists. split; [reflexivity |]. now apply reciprocal_twice.
Qed.

(** Recomputing twice is recomputing once. *)
Lemma updateExchangeRate_twice (s : state) :
  updateExchangeRate (updateExchangeRate s) = updateExchangeRate s.
Proof. reflexivity. Qed.

Lemma set_input_same (s : state) : set_input (inputSourceCurrency_value s) s = s.
Proof. now destruct s. Qed.

(** The two blocks of the [input] handler amount to one recomputation when
    [isFetching] is set, and to nothing otherwise. *)
Lemma inputSourceCurrency_input_once (s : state) :
  App.inputSourceCurrency_input host_locale s
  = if isFetching s then updateExchangeRate s else s.
Proof.
  unfold App.inputSourceCurrency_input.
  destruct (isFetching s) eqn:Hf; cbn [andb].
  - destruct (js_gt _ _).
    + change (isFetching (updateExchangeRate s)) with (isFetching s). rewrite Hf.
      change (inputSourceCurrency_value (updateExchangeRate s))
        with (inputSourceCurrency_value s).
      destruct (String.eqb_spec (inputSourceCurrency_value s) "") as [E | E].
      * rewrite <- E at 1.
        change (set_input (inputSourceCurrency_value s) (updateExchangeRate s))
          with (set_input (inputSourceCurrency_value (updateExchangeRate s))
                  (updateExchangeRate s)).
        rewrite set_input_same. apply updateExchangeRate_twice.
      * apply updateExchangeRate_twice.
    + rewrite Hf.
      destruct (String.eqb_spec (inputSourceCurrency_value s) "") as [E | E].
      * rewrite <- E at 1. now rewrite set_input_same.
      * reflexivity.
  - now rewrite Hf.
Qed.

(** [X1] Typing into the amount field recomputes the amounts once from the
    typed text when [isFetching] is set, whatever the text (the test of line
    88 changes nothing), and only stores the text when it is not; no request
    is issued and nothing is alerted. *)
Theorem input_recomputes_once (w : world) (text : string) :
  let s := set_input text (page w) in
  let w' := step w (InputText text) in
  page w' = (if isFetching (page w) then updateExchangeRate s else s) /\
  in_flight w' = in_flight w /\
  trace w' = trace w.
Proof.
  cbv zeta. cbn [App.step page in_flight trace].
  rewrite inputSourceCurrency_input_once. repeat split.
Qed.


(** [handleConvert] with an amount that passes the test of line 111. *)
Lemma convert_with_amount (online : bool) (w : world) :
  amount_not_positive (page w) = false ->
  convert online w
  = if online
    then World (set_text "Fetching exchange rate, please wait..." (page w))
           (in_flight w ++
              [pair_url (selectSourceCurrency_value (page w))
                 (selectTargetCurrency_value (page w))])%list
           (trace w ++
              [Fetch (pair_url (selectSourceCurrency_value (page w))
                        (selectTargetCurrency_value (page w)))])%list
    else World (set_text "No internet connection!" (page w))
           (in_flight w)
           (trace w ++
              [Alert "You are offline. Please check your internet connection."])%list.
Proof.
  unfold amount_not_positive, convert, handleConvert_begin. intros ->.
  destruct online; cbn [negb fetched flat_map List.app]; [reflexivity |].
  now rewrite List.app_nil_r.
Qed.

(** [X3] With an amount that passes the test of line 111 and no connection,
    [handleConvert] alerts, shows that there is no connection and returns:
    no request is issued and nothing else on the page changes.  The Enter
    key does what the button does. *)
Theorem convert_offline_issues_no_request (w : world) :
  amount_not_positive (page w) = false ->
  let w' := step w (ConvertClick false) in
  page w' = set_text "No internet connection!" (page w) /\
  in_flight w' = in_flight w /\
  trace w'
  = (trace w ++ [Alert "You are offline. Please check your internet connection."])%list /\
  step w (EnterKey false) = w'.
Proof.
  intros Hpos. cbv zeta. cbn [App.step].
  rewrite (convert_with_amount false w Hpos). repeat split.
Qed.

(** [X4] With an amount that passes the test of line 111 and a connection,
    [handleConvert] issues exactly one request, for the pair selected at
    that moment, and shows the waiting text; the rate, [isFetching] and the
    amounts stay as they were while the request is in flight.  The Enter key
    does what the button does. *)
Theorem convert_online_requests_selected_pair (w : world) :
  amount_not_positive (page w) = false ->
  let url :=
    "https://v6.exchangerate-api.com/v6/b20b342878a7581b47213640/pair/"
    ++ selectSourceCurrency_value (page w) ++ "/"
    ++ selectTargetCurrency_value (page w) in
  let w' := step w (ConvertClick true) in
  page w' = set_text "Fetching exchange rate, please wait..." (page w) /\
  in_flight w' = (in_flight w ++ [url])%list /\
  trace w' = (trace w ++ [Fetch url])%list /\
  step w (EnterKey true) = w'.
Proof.
  intros Hpos. cbv zeta. cbn [App.step].
  rewrite (convert_with_amount true w Hpos). repeat split.
Qed.

(** What a handler leaves of the two dropdowns and the two images. *)
Lemma updateExchangeRate_selection (r : role) (s : state) :
  select_value r (updateExchangeRate s) = select_value r s /\
  image_src r (updateExchangeRate s) = image_src r s.
Proof. destruct r; split; reflexivity. Qed.

Lemma buttonSwap_click_selection (r : role) (s : state) :
  select_value r (buttonSwap_click s) = select_value (other r) s /\
  image_src r (buttonSwap_click s) = image_src (other r) s.
Proof.
  unfold App.buttonSwap_click. cbv zeta. page_simpl.
  destruct (isFetching s), r; split; reflexivity.
Qed.

Lemma inputSourceCurrency_input_selection (r : role) (s : state) :
  select_value r (App.inputSourceCurrency_input host_locale s) = select_value r s /\
  image_src r (App.inputSourceCurrency_input host_locale s) = image_src r s.
Proof.
  rewrite inputSourceCurrency_input_once.
  destruct (isFetching s), r; split; reflexivity.
Qed.

Lemma handleConvert_begin_selection (r : role) (online : bool) (s : state) :
  select_value r (fst (handleConvert_begin online s)) = select_value r s /\
  image_src r (fst (handleConvert_begin online s)) = image_src r s.
Proof.
  unfold handleConvert_begin.
  destruct (js_le _ _), online, r; split; reflexivity.
Qed.

Lemma handleConvert_resume_selection
  (r : role) (online : bool) (o : fetch_outcome) (s : state) :
  select_value r (fst (handleConvert_resume online o s)) = select_value r s /\
  image_src r (fst (handleConvert_resume online o s)) = image_src r s.
Proof.
  destruct o as [| | [| rate]], r; split; reflexivity.
Qed.

(** The change handler shows the flag of the chosen code when the table has
    the code, and leaves the image alone when it has not. *)
Lemma selectElement_change_selection (r : role) (s : state) :
  select_value Source (selectElement_change r s) = select_value Source s /\
  select_value Target (selectElement_change r s) = select_value Target s /\
  image_src r (selectElement_change r s)
  = match currencyToFlagCode (select_value r s) with
    | Some flagData => flag_url flagData
    | None => image_src r s
    end /\
  image_src (other r) (selectElement_change r s) = image_src (other r) s.
Proof.
  unfold App.selectElement_change, App.changeFlag. cbv zeta.
  destruct r; cbn [select_value image_src other]; page_simpl.
  - change (selectSourceCurrency_value (updateExchangeRate _))
      with (selectSourceCurrency_value s).
    destruct (currencyToFlagCode (selectSourceCurrency_value s));
      repeat split.
  - change (selectTargetCurrency_value (updateExchangeRate _))
      with (selectTargetCurrency_value s).
    destruct (currencyToFlagCode (selectTargetCurrency_value s));
      repeat split.
Qed.

(** [X8] A change of a dropdown to a code the table has shows that code's
    flag in the dropdown's image; a code the table lacks leaves the image
    as it was, next to the new code.  The other image is never touched. *)
Theorem select_change_sets_flag (w : world) (r : role) (code : string) :
  let w' := step w (SelectChange r code) in
  select_value r (page w') = code /\
  select_value (other r) (page w') = select_value (other r) (page w) /\
  image_src r (page w')
  = match currencyToFlagCode code with
    | Some flagData => "https://flagcdn.com/w640/" ++ flag flagData ++ ".png"
    | None => image_src r (page w)
    end /\
  image_src (other r) (page w') = image_src (other r) (page w).
Proof.
  cbv zeta. cbn [App.step page].
  match goal with |- context [App.selectElement_change _ _ r ?s] =>
    destruct (selectElement_change_selection r s) as (Hs & Ht & Hi & Ho)
  end.
  rewrite Hi, Ho. destruct r; cbn [other]; rewrite ?Hs, ?Ht; repeat split.
Qed.

Lemma step_keeps_flags (w : world) (e : event) :
  offered currencyToFlagCode e = true ->
  flags_match currencyToFlagCode (page w) = true ->
  flags_match currencyToFlagCode (page (step w e)) = true.
Proof.
  assert (Hsame : forall s s' : state,
    (forall r, select_value r s' = select_value r s /\ image_src r s' = image_src r s) ->
    flags_match currencyToFlagCode s' = flags_match currencyToFlagCode s).
  { intros s s' H. unfold flags_match, shows_flag.
    destruct (H Source) as [-> ->]. now destruct (H Target) as [-> ->]. }
  intros Hoff Hflags. destruct e as [| text | online | online | r code | request online o].
  - cbn [App.step page]. unfold flags_match, shows_flag in *.
    destruct (buttonSwap_click_selection Source (page w)) as [-> ->].
    destruct (buttonSwap_click_selection Target (page w)) as [-> ->].
    cbn [other]. now rewrite andb_comm.
  - cbn [App.step page]. rewrite <- Hflags.
    rewrite (Hsame (set_input text (page w))).
    + apply Hsame. intros r. destruct r; split; reflexivity.
    + intros r. apply inputSourceCurrency_input_selection.
  - cbn [App.step]. unfold convert.
    pose proof (fun r => handleConvert_begin_selection r online (page w)) as H.
    destruct (handleConvert_begin online (page w)) as [s1 es1].
    cbn [page fst] in *. rewrite <- Hflags. now apply Hsame.
  - cbn [App.step]. unfold convert.
    pose proof (fun r => handleConvert_begin_selection r online (page w)) as H.
    destruct (handleConvert_begin online (page w)) as [s1 es1].
    cbn [page fst] in *. rewrite <- Hflags. now apply Hsame.
  - cbn [offered] in Hoff.
    destruct (currencyToFlagCode code) as [flagData |] eqn:Hcode; [| discriminate].
    cbn [App.step page].
    match goal with |- context [App.selectElement_change _ _ r ?s] =>
      destruct (selectElement_change_selection r s) as (Hs & Ht & Hi & Ho)
    end.
    unfold flags_match, shows_flag in *.
    apply andb_true_iff in Hflags as [Hsrc Htgt].
    rewrite Hs, Ht.
    destruct r; cbn [other select_value image_src] in *; page_simpl;
      rewrite Hi, Ho, Hcode, String.eqb_refl.
    + exact Htgt.
    + rewrite andb_true_r. exact Hsrc.
  - cbn [App.step].
    destruct (nth_error (in_flight w) request); [| exact Hflags].
    pose proof (fun r => handleConvert_resume_selection r online o (page w)) as H.
    destruct (handleConvert_resume online o (page w)) as [s1 es1].
    cbn [page fst] in *. rewrite <- Hflags. now apply Hsame.
Qed.

(** [X9] Once the two images show the flags of the two selected codes, they
    do so after every sequence of events in which the codes picked are
    codes of the table: a swap exchanges the images with the codes, a change
    sets the image of the changed dropdown, and no other handler touches
    them. *)
Theorem flags_follow_selection (w : world) (es : list event) :
  forallb (offered currencyToFlagCode) es = true ->
  flags_match currencyToFlagCode (page w) = true ->
  flags_match currencyToFlagCode (page (run w es)) = true.
Proof.
  revert w. induction es as [| e es IH]; intros w Hoff Hflags; [exact Hflags |].
  cbn [forallb] in Hoff. apply andb_true_iff in Hoff as [He Hes].
  unfold App.run. cbn [fold_left]. apply IH; [exact Hes |].
  now apply step_keeps_flags.
Qed.


(** The recomputation of an amount that reads as nothing, zero or no number:
    the source amount is 0, and the output is what [toFixed] makes of
    [0 * rate]. *)
Lemma updateExchangeRate_without_amount (s : state) :
  truthy (parseFloat (inputSourceCurrency_value s)) = false ->
  let shown := finite_number (ToNumber (conversionRate s)) in
  sourceCurrentValue (updateExchangeRate s) = PrimFloat.zero /\
  targetCurrentValue (updateExchangeRate s)
  = VString (if shown then "0.00" else "NaN") /\
  exchangeRateText_textContent (updateExchangeRate s)
  = "0 " ++ selectSourceCurrency_value s ++ " " ++ LF ++ "    = "
    ++ (if shown then "0" else nan_symbol host_locale)
    ++ " " ++ selectTargetCurrency_value s.
Proof.
  intros Hamount. cbv zeta.
  unfold App.updateExchangeRate, App.formatCurrency. page_simpl.
  unfold or_else. rewrite Hamount. unfold js_mul. cbn [ToNumber].
  rewrite toFixed_zero_product.
  destruct (format_zero host_locale) as (H0 & H00 & Hnan).
  rewrite H0.
  destruct (finite_number (ToNumber (conversionRate s))); [rewrite H00 | rewrite Hnan];
    repeat split.
Qed.

(** [X10] After a change of a dropdown the page shows zero amounts for the
    new pair: the source amount is 0, and the output is 0.00 (shown as 0)
    when the stored rate is a finite number, NaN when it is not. *)
Theorem select_change_shows_zero_amounts (w : world) (r : role) (code : string) :
  let s' := page (step w (SelectChange r code)) in
  let shown := finite_number (ToNumber (conversionRate (page w))) in
  sourceCurrentValue s' = PrimFloat.zero /\
  targetCurrentValue s' = VString (if shown then "0.00" else "NaN") /\
  exchangeRateText_textContent s'
  = "0 " ++ selectSourceCurrency_value s' ++ " " ++ LF ++ "    = "
    ++ (if shown then "0" else nan_symbol host_locale)
    ++ " " ++ selectTargetCurrency_value s'.
Proof.
  cbv zeta. cbn [App.step page].
  match goal with |- context [App.selectElement_change _ _ r ?s] =>
    destruct (selectElement_change_fields r s)
      as (_ & _ & _ & _ & Hs & Ht);
    rewrite Hs, Ht; set (s0 := s)
  end.
  unfold App.selectElement_change. cbv zeta.
  match goal with |- context [App.changeFlag _ r ?s] =>
    destruct (changeFlag_frame r s)
      as (_ & _ & _ & Htext & _ & _ & Hsrc & Htgt);
    rewrite Htext, Hsrc, Htgt
  end.
  match goal with |- context [App.updateExchangeRate _ ?s] =>
    destruct (updateExchangeRate_without_amount s eq_refl) as (H1 & H2 & H3);
    rewrite H1, H2, H3
  end.
  page_simpl. subst s0. destruct r; page_simpl; repeat split.
Qed.

(** [X2] With a rate held, an amount field that reads as nothing, as zero or
    as no number at all counts as 0: the source amount is 0 and the output
    0.00 (NaN when the stored rate is not a finite number). *)
Theorem amount_without_value_counts_as_zero (w : world) (text : string) :
  isFetching (page w) = true ->
  truthy (parseFloat text) = false ->
  let s' := page (step w (InputText text)) in
  sourceCurrentValue s' = PrimFloat.zero /\
  targetCurrentValue s'
  = VString (if finite_number (ToNumber (conversionRate (page w))) then "0.00" else "NaN").
Proof.
  intros Hvalid Hamount. cbv zeta. cbn [App.step page].
  rewrite inputSourceCurrency_input_once. page_simpl. rewrite Hvalid.
  destruct (updateExchangeRate_without_amount (set_input text (page w)) Hamount)
    as (H1 & H2 & _).
  rewrite H1, H2. split; reflexivity.
Qed.

(** Without a rate, every event but an answer that carries one leaves the
    page without a rate. *)
Lemma step_without_rate (w : world) (e : event) :
  answers_with_rate e = false ->
  without_rate (page w) -> without_rate (page (step w e)).
Proof.
  intros He (Hf & Hc & Hsrc & Htgt).
  assert (Hupdate : forall s : state,
    isFetching s = false -> conversionRate s = VNumber PrimFloat.zero ->
    truthy (parseFloat (inputSourceCurrency_value s)) = false ->
    without_rate (updateExchangeRate s)).
  { intros s Hf' Hc' Hamount.
    destruct (updateExchangeRate_without_amount s Hamount) as (H1 & H2 & _).
    unfold without_rate. rewrite H1, H2, Hc'.
    change (isFetching (updateExchangeRate s)) with (isFetching s).
    change (conversionRate (updateExchangeRate s)) with (conversionRate s).
    rewrite Hf', Hc'. repeat split. right. reflexivity. }
  destruct e as [| text | online | online | r code | request online o].
  - cbn [App.step page]. unfold App.buttonSwap_click. cbv zeta. page_simpl.
    rewrite Hf. apply Hupdate; page_simpl; try assumption.
    destruct Htgt as [-> | ->]; reflexivity.
  - cbn [App.step page]. rewrite inputSourceCurrency_input_once. page_simpl.
    rewrite Hf. repeat split; assumption.
  - cbn [App.step]. unfold convert, handleConvert_begin.
    destruct (js_le _ _); [| destruct online]; cbn [negb page];
      repeat split; assumption.
  - cbn [App.step]. unfold convert, handleConvert_begin.
    destruct (js_le _ _); [| destruct online]; cbn [negb page];
      repeat split; assumption.
  - cbn [App.step page]. unfold App.selectElement_change. cbv zeta.
    match goal with |- context [App.changeFlag _ r ?s] =>
      destruct (changeFlag_frame r s)
        as (_ & _ & _ & _ & Hf' & Hc' & Hsrc' & Htgt');
      assert (Hs : without_rate s)
    end.
    { apply Hupdate; destruct r; page_simpl; try assumption; reflexivity. }
    unfold without_rate. rewrite Hf', Hc', Hsrc', Htgt'. exact Hs.
  - cbn [App.step].
    destruct (nth_error (in_flight w) request); [| repeat split; assumption].
    destruct o as [| | [| rate]]; [| | | discriminate He];
      cbn [App.handleConvert_resume handleConvert_catch page];
      repeat split; assumption.
Qed.

(** [X12] From the freshly loaded page, as long as no answer with a rate has
    arrived, [isFetching] stays false, the rate stays the 0 of line 49 (a
    swap does not invert it), and the two amounts stay zero, whatever the
    user types, picks, swaps or asks for. *)
Theorem no_rate_before_first_answer
  (input image_source image_target text : string) (es : list event) :
  forallb (fun e => negb (answers_with_rate e)) es = true ->
  let s := page (run (initial input image_source image_target text) es) in
  isFetching s = false /\
  conversionRate s = VNumber PrimFloat.zero /\
  sourceCurrentValue s = PrimFloat.zero /\
  (targetCurrentValue s = VNumber PrimFloat.zero \/
   targetCurrentValue s = VString "0.00").
Proof.
  intros Hes. cbv zeta.
  change (without_rate (page (run (initial input image_source image_target text) es))).
  assert (H0 : without_rate (page (initial input image_source image_target text))).
  { repeat split. left. reflexivity. }
  revert H0 Hes. generalize (initial input image_source image_target text).
  induction es as [| e es IH]; intros w Hw Hes; [exact Hw |].
  cbn [forallb] in Hes. apply andb_true_iff in Hes as [He Hes].
  unfold App.run. cbn [fold_left]. apply IH; [| exact Hes].
  apply step_without_rate; [| exact Hw]. now destruct (answers_with_rate e).
Qed.

(** [X14] A swap exchanges the two flag images, writes the previous output
    into the amount field and reads the source amount back from it; it
    leaves [isFetching] as it was, issues no request and shows no alert. *)
Theorem swap_carries_output_forward (w : world) :
  let w' := step w SwapClick in
  let carried := ToString (targetCurrentValue (page w)) in
  imageSourceCurrency_src (page w') = imageTargetCurrency_src (page w) /\
  imageTargetCurrency_src (page w') = imageSourceCurrency_src (page w) /\
  inputSourceCurrency_value (page w') = carried /\
  sourceCurrentValue (page w') = or_else (parseFloat carried) PrimFloat.zero /\
  isFetching (page w') = isFetching (page w) /\
  in_flight w' = in_flight w /\
  trace w' = trace w.
Proof.
  cbv zeta. cbn [App.step page in_flight trace].
  unfold App.buttonSwap_click. cbv zeta. page_simpl.
  destruct (isFetching (page w)) eqn:Hf; repeat split; exact Hf.
Qed.

(** [X15] Without a fetched rate ([isFetching] false) a swap exchanges the two
    codes and leaves [conversionRate] alone: the rate is not inverted. *)
Theorem swap_without_rate_keeps_rate (w : world) :
  isFetching (page w) = false ->
  let w' := step w SwapClick in
  conversionRate (page w') = conversionRate (page w) /\
  isFetching (page w') = false /\
  selectSourceCurrency_value (page w') = selectTargetCurrency_value (page w) /\
  selectTargetCurrency_value (page w') = selectSourceCurrency_value (page w).
Proof.
  intros Hf. cbv zeta. cbn [App.step page].
  unfold App.buttonSwap_click. cbv zeta. page_simpl. rewrite Hf.
  repeat split. exact Hf.
Qed.

(** [X16] A swap after a recomputation reads the output back as the new source
    amount: for an output [x.toFixed(2)] in fixed-point notation, the
    hundredths [n] it spells, rounded to the nearest binary64 number (0 when
    that is zero). *)
Theorem swap_reads_output_back (w : world) (x : number) :
  targetCurrentValue (page w) = VString (toFixed 2 x) ->
  below_1e21 x = true ->
  exists (neg : bool) (n : N),
    toFixed 2 x = sign_text neg ++ fixed_digits 2 n /\
    inputSourceCurrency_value (page (step w SwapClick)) = toFixed 2 x /\
    sourceCurrentValue (page (step w SwapClick))
    = or_else (signed neg (round_decimal n (-2))) PrimFloat.zero.
Proof.
  intros Htgt Hx.
  destruct (format_converted host_locale x Hx) as (neg & n & Htext & _).
  exists neg, n. split; [exact Htext |].
  cbn [App.step page]. unfold App.buttonSwap_click. cbv zeta. page_simpl.
  rewrite Htgt. cbn [ToString].
  assert (Hread : forall s : state,
    inputSourceCurrency_value s = toFixed 2 x ->
    inputSourceCurrency_value (updateExchangeRate s) = toFixed 2 x /\
    sourceCurrentValue (updateExchangeRate s)
    = or_else (signed neg (round_decimal n (-2))) PrimFloat.zero).
  { intros s Hs. split; [exact Hs |].
    destruct (updateExchangeRate_amounts s) as (-> & _).
    rewrite Hs, Htext. now rewrite parseFloat_fixed. }
  destruct (isFetching (page w)); apply Hread; reflexivity.
Qed.


(** An answer that carries a rate: the success path of [handleConvert]. *)
Lemma settle_with_rate
  (w : world) (request : nat) (online : bool) (rate : value) :
  (request < List.length (in_flight w))%nat ->
  step w (Settle request online (Parsed (DataWith rate)))
  = World (updateExchangeRate (set_isFetching true (set_conversionRate rate (page w))))
      (remove_nth request (in_flight w)) (trace w).
Proof.
  intros Hpending. cbn [App.step].
  destruct (nth_error (in_flight w) request) eqn:Hnth.
  2:{ apply nth_error_None in Hnth. lia. }
  cbn [App.handleConvert_resume]. now rewrite List.app_nil_r.
Qed.

(** [X6] The amounts shown when the rate arrives are computed from what the
    amount field holds at that moment: a text typed while the request was
    pending replaces the amount the request was issued with.  The rate is
    stored whatever it is, [isFetching] is set, and the request is no longer
    pending. *)
Theorem answer_uses_amount_typed_meanwhile
  (w : world) (text : string) (online : bool) (rate : value) :
  amount_not_positive (page w) = false ->
  let w1 := step w (ConvertClick true) in
  let w2 := step w1 (InputText text) in
  let w3 := step w2 (Settle (List.length (in_flight w)) online (Parsed (DataWith rate))) in
  let a := or_else (parseFloat text) PrimFloat.zero in
  conversionRate (page w3) = rate /\
  isFetching (page w3) = true /\
  sourceCurrentValue (page w3) = a /\
  targetCurrentValue (page w3) = VString (toFixed 2 (js_mul (VNumber a) rate)) /\
  in_flight w3 = in_flight w /\
  trace w3 = trace w1.
Proof.
  intros Hpos. cbv zeta.
  set (w1 := step w (ConvertClick true)).
  assert (Hw1 : in_flight w1
                = (in_flight w ++
                     [pair_url (selectSourceCurrency_value (page w))
                        (selectTargetCurrency_value (page w))])%list).
  { subst w1. cbn [App.step]. now rewrite (convert_with_amount true w Hpos). }
  set (w2 := step w1 (InputText text)).
  assert (Hw2 : in_flight w2 = in_flight w1 /\ trace w2 = trace w1 /\
                inputSourceCurrency_value (page w2) = text).
  { subst w2. cbn [App.step page in_flight trace].
    rewrite inputSourceCurrency_input_once. page_simpl.
    destruct (isFetching (page w1)); repeat split. }
  destruct Hw2 as (Hq & Ht & Hfield).
  rewrite settle_with_rate by (rewrite Hq, Hw1, List.length_app; cbn; lia).
  cbn [page in_flight trace]. rewrite Hq, Hw1, remove_nth_last.
  destruct (updateExchangeRate_amounts
              (set_isFetching true (set_conversionRate rate (page w2)))) as (Hsrc & Htgt).
  rewrite Hsrc, Htgt. page_simpl. rewrite Hfield, Ht. repeat split.
Qed.

(** [X7] Nothing keeps a second request from being issued while one is
    pending, and every answer with a rate is stored as it arrives: when the
    answer to the older of two requests arrives last, its rate is the one
    the page keeps. *)
Theorem last_answer_wins (w : world) (online1 online2 : bool) (older newer : value) :
  amount_not_positive (page w) = false ->
  let n := List.length (in_flight w) in
  let url := pair_url (selectSourceCurrency_value (page w))
               (selectTargetCurrency_value (page w)) in
  let w2 := step (step w (ConvertClick true)) (ConvertClick true) in
  let w3 := step w2 (Settle (S n) online1 (Parsed (DataWith newer))) in
  let w4 := step w3 (Settle n online2 (Parsed (DataWith older))) in
  in_flight w2 = (in_flight w ++ [url; url])%list /\
  conversionRate (page w3) = newer /\
  in_flight w3 = (in_flight w ++ [url])%list /\
  conversionRate (page w4) = older /\
  isFetching (page w4) = true /\
  in_flight w4 = in_flight w.
Proof.
  intros Hpos. cbv zeta. cbn [App.step].
  rewrite (convert_with_amount true w Hpos).
  rewrite convert_with_amount by exact Hpos.
  cbn [page in_flight trace]. page_simpl.
  set (url := pair_url _ _). set (l := in_flight w).
  rewrite <- List.app_assoc. cbn [List.app].
  assert (H1 : nth_error (l ++ [url; url])%list (S (List.length l)) = Some url).
  { rewrite nth_error_app2 by lia.
    replace (S (List.length l) - List.length l)%nat with 1%nat by lia. reflexivity. }
  rewrite H1. cbn [App.handleConvert_resume page in_flight trace].
  assert (H2 : remove_nth (S (List.length l)) (l ++ [url; url])%list = (l ++ [url])%list).
  { change (l ++ [url; url])%list with (l ++ [url] ++ [url])%list.
    rewrite List.app_assoc.
    replace (S (List.length l)) with (List.length (l ++ [url])%list)
      by (rewrite List.length_app; cbn; lia).
    apply remove_nth_last. }
  rewrite H2.
  assert (H3 : nth_error (l ++ [url])%list (List.length l) = Some url).
  { rewrite nth_error_app2 by lia. now rewrite Nat.sub_diag. }
  rewrite H3. cbn [App.handleConvert_resume page in_flight trace].
  rewrite remove_nth_last. repeat split.
Qed.

(** [X11] Right after a change of a dropdown the amount field reads 0, so
    [handleConvert] refuses to ask for the rate of the new pair until an
    amount is typed: it alerts, issues no request and leaves the page as the
    change left it. *)
Theorem convert_refused_after_select_change
  (w : world) (r : role) (code : string) (online : bool) :
  let w1 := step w (SelectChange r code) in
  let w2 := step w1 (ConvertClick online) in
  page w2 = page w1 /\
  in_flight w2 = in_flight w /\
  trace w2 = (trace w ++ [Alert "Please enter a valid amount."])%list.
Proof.
  cbv zeta. set (w1 := step w (SelectChange r code)).
  assert (Hfield : inputSourceCurrency_value (page w1) = "0").
  { subst w1. cbn [App.step page].
    match goal with |- context [App.selectElement_change _ _ r ?s] =>
      now destruct (selectElement_change_fields r s)
        as (_ & -> & _)
    end. }
  assert (Hflight : in_flight w1 = in_flight w /\ trace w1 = trace w)
    by (split; reflexivity).
  destruct Hflight as [Hq Ht].
  cbn [App.step]. unfold convert, handleConvert_begin. rewrite Hfield.
  change (js_le (VString "0") (VNumber PrimFloat.zero)) with true. cbv iota.
  cbn [page in_flight trace fetched flat_map].
  rewrite List.app_nil_r, Hq, Ht. repeat split.
Qed.

(** The source amount a recomputation stores is a number. *)
Lemma or_else_zero_not_nan (x : number) :
  PrimFloat.is_nan (or_else x PrimFloat.zero) = false.
Proof.
  unfold or_else, truthy.
  destruct (PrimFloat.is_zero x); [reflexivity |].
  destruct (PrimFloat.is_nan x) eqn:E; [reflexivity | exact E].
Qed.

Lemma step_source_amount (w : world) (e : event) :
  sourceCurrentValue (page (step w e)) = sourceCurrentValue (page w) \/
  exists text : string,
    sourceCurrentValue (page (step w e)) = or_else (parseFloat text) PrimFloat.zero.
Proof.
  destruct e as [| text | online | online | r code | request online o].
  - right. eexists. cbn [App.step page]. unfold App.buttonSwap_click. cbv zeta.
    reflexivity.
  - cbn [App.step page]. rewrite inputSourceCurrency_input_once. page_simpl.
    destruct (isFetching (page w)); [right; eexists | left]; reflexivity.
  - left. cbn [App.step]. unfold convert, handleConvert_begin.
    destruct (js_le _ _); [| destruct online]; reflexivity.
  - left. cbn [App.step]. unfold convert, handleConvert_begin.
    destruct (js_le _ _); [| destruct online]; reflexivity.
  - right. exists "0". cbn [App.step page].
    match goal with |- context [App.selectElement_change _ _ r ?s] =>
      now destruct (selectElement_change_fields r s)
        as (_ & _ & -> & _)
    end.
  - cbn [App.step]. destruct (nth_error (in_flight w) request); [| now left].
    destruct o as [| | [| rate]]; [left | left | left | right; eexists];
      reflexivity.
Qed.

(** [X13] Whatever happens to the freshly loaded page, the source amount it
    holds is never [NaN]: an amount field that does not read as a number
    counts as 0. *)
Theorem source_amount_is_never_NaN
  (input image_source image_target text : string) (es : list event) :
  PrimFloat.is_nan
    (sourceCurrentValue (page (run (initial input image_source image_target text) es)))
  = false.
Proof.
  assert (H0 : PrimFloat.is_nan
                 (sourceCurrentValue (page (initial input image_source image_target text)))
               = false) by reflexivity.
  revert H0. generalize (initial input image_source image_target text).
  induction es as [| e es IH]; intros w Hw; [exact Hw |].
  unfold App.run. cbn [fold_left]. apply IH.
  destruct (step_source_amount w e) as [-> | (t & ->)];
    [exact Hw | apply or_else_zero_not_nan].
Qed.

End HandlerFacts.


(** With 100 in the field and the rate 56 held, the recomputation spells
    5600.00. *)
Lemma update_rounds_product_example :
  sourceCurrentValue (App.updateExchangeRate en_US (page Example.converted))
  = 100%float /\
  exists out : string,
    targetCurrentValue (App.updateExchangeRate en_US (page Example.converted))
    = VString out /\
    rounded_to_hundredths (100 * 56)%float out /\
    negative_text out = false.
Proof.
  apply (update_rounds_product_to_two_decimals en_US (page Example.converted) 56%float);
    reflexivity.
Defined.

(** The rate 56 for USD/PHP, swapped: PHP/USD at 1/56, without a request. *)
Lemma swap_inverts_rate_example :
  let w' := Example.step Example.converted SwapClick in
  selectSourceCurrency_value (page w') = "PHP" /\
  selectTargetCurrency_value (page w') = "USD" /\
  conversionRate (page w') = VNumber (1 / 56)%float /\
  isFetching (page w') = true /\
  in_flight w' = in_flight Example.converted /\
  trace w' = trace Example.converted.
Proof.
  apply (swap_inverts_valid_rate en_US Example.table Example.converted 56%float);
    reflexivity.
Defined.

(** The request of the example page fails: the page keeps what it held. *)
Lemma catch_example :
  let w := Example.run Example.fresh [InputText "100"; ConvertClick true] in
  let w' := Example.step w (Settle 0 true FetchRejected) in
  conversionRate (page w') = conversionRate (page w) /\
  isFetching (page w') = isFetching (page w) /\
  sourceCurrentValue (page w') = sourceCurrentValue (page w) /\
  targetCurrentValue (page w') = targetCurrentValue (page w) /\
  inputSourceCurrency_value (page w') = inputSourceCurrency_value (page w) /\
  selectSourceCurrency_value (page w') = selectSourceCurrency_value (page w) /\
  selectTargetCurrency_value (page w') = selectTargetCurrency_value (page w) /\
  exchangeRateText_textContent (page w') = "Error fetching exchange rate!" /\
  trace w' = (trace w ++ [ConsoleLog "Error fetching exchange rate!"])%list.
Proof.
  apply (catch_keeps_rate_and_amounts en_US Example.table
           (Example.run Example.fresh [InputText "100"; ConvertClick true])
           0 true FetchRejected).
  - reflexivity.
  - vm_compute. apply le_n.
Defined.

(** USD/PHP is requested, the target becomes EUR, and the answer 56 for
    USD/PHP is stored as the rate of USD/EUR. *)
Lemma stale_response_example :
  let w := Example.step Example.fresh (InputText "100") in
  let w1 := Example.step w (ConvertClick true) in
  let w2 := Example.step w1 (SelectChange Target "EUR") in
  let w3 := Example.step w2 (Settle 0 true (Parsed (DataWith (VNumber 56%float)))) in
  nth_error (in_flight w2) 0 = Some (pair_url "USD" "PHP") /\
  selectSourceCurrency_value (page w3) = "USD" /\
  selectTargetCurrency_value (page w3) = "EUR" /\
  conversionRate (page w3) = VNumber 56%float /\
  isFetching (page w3) = true /\
  in_flight w3 = [].
Proof.
  apply (stale_response_overwrites_rate en_US Example.table
           (Example.step Example.fresh (InputText "100"))
           Target "EUR" true (VNumber 56%float)).
  reflexivity.
Defined.

(** The number 5600, and 5600 as a converted amount. *)
Lemma formatCurrency_example :
  finite_not_negative 5600%float = true /\
  (exists n : N,
     nearest_decimal 3 (fst (printed 5600%float)) (snd (printed 5600%float)) n /\
     shows_scaled en_US 3 n (App.formatCurrency en_US (VNumber 5600%float))) /\
  (if below_1e21 5600%float
   then exists h : N,
          hundredths 5600%float h /\
          shows_scaled en_US 2 h
            (App.formatCurrency en_US (VString (toFixed 2 5600%float)))
   else toFixed 2 5600%float = ToString (VNumber 5600%float) /\
        App.formatCurrency en_US (VString (toFixed 2 5600%float))
        = App.formatCurrency en_US (VNumber 5600%float)).
Proof.
  split; [reflexivity |].
  apply (formatCurrency_groups_and_trims en_US 5600%float). reflexivity.
Defined.

(** The rate 56 for USD/PHP, swapped twice: USD/PHP again, at a rate within
    the tolerance of 56. *)
Lemma swap_twice_example :
  let w' := Example.step (Example.step Example.converted SwapClick) SwapClick in
  selectSourceCurrency_value (page w')
  = selectSourceCurrency_value (page Example.converted) /\
  selectTargetCurrency_value (page w')
  = selectTargetCurrency_value (page Example.converted) /\
  isFetching (page w') = true /\
  in_flight w' = in_flight Example.converted /\
  exists R' : number,
    conversionRate (page w') = VNumber R' /\
    within_epsilon R' 56%float = true.
Proof.
  apply (swap_twice_restores_ordinary_rate en_US Example.table
           Example.converted 56%float);
    vm_compute; reflexivity.
Defined.

(** [C3] as stated fails: after typing 100 and receiving the rate 56 the
    page shows 5,600 and not 5,600.00, although the amount it holds is the
    text 5600.00. *)
Lemma converted_amount_shown_without_decimals :
  targetCurrentValue (page Example.converted) = VString "5600.00" /\
  App.formatCurrency en_US (targetCurrentValue (page Example.converted)) = "5,600" /\
  exchangeRateText_textContent (page Example.converted)
  = "100 USD " ++ LF ++ "    = 5,600 PHP" /\
  App.formatCurrency en_US (targetCurrentValue (page Example.converted)) <> "5,600.00".
Proof.
  assert (Hshown : App.formatCurrency en_US (targetCurrentValue (page Example.converted))
                   = "5,600") by (vm_compute; reflexivity).
  repeat split; try (vm_compute; reflexivity).
  rewrite Hshown. discriminate.
Qed.


(** [C5] on the code: with the rate 56 held, typing -5 recomputes the
    amounts; the output is -280.00 and is shown as -280. *)
Theorem negative_amount_gives_negative_output :
  let w := Example.step Example.converted (InputText "-5") in
  inputSourceCurrency_value (page w) = "-5" /\
  sourceCurrentValue (page w) = (-5)%float /\
  targetCurrentValue (page w) = VString "-280.00" /\
  exchangeRateText_textContent (page w) = "-5 USD " ++ LF ++ "    = -280 PHP".
Proof. repeat apply conj; vm_compute; reflexivity. Qed.

(** Around the example rate the double swap is exact; from the smallest
    positive rate it ends at 0. *)
Lemma swap_twice_rate_examples :
  conversionRate (page (Example.run Example.converted [SwapClick; SwapClick]))
  = VNumber 56%float /\
  PrimFloat.div 1 (PrimFloat.div 1 (round_decimal 5 (-324))) = 0%float.
Proof. repeat apply conj; vm_compute; reflexivity. Qed.

(** [C8] as stated fails at the largest finite rate: its reciprocal is
    subnormal, the reciprocal of that overflows, and two clicks on the swap
    button leave [Infinity] where [1.7976931348623157e308] was held. *)
Lemma swap_twice_loses_largest_rate :
  let R := parseFloat "1.7976931348623157e308" in
  let w := Example.run Example.fresh
             [InputText "100"; ConvertClick true;
              Settle 0 true (Parsed (DataWith (VNumber R)))] in
  let w' := Example.run w [SwapClick; SwapClick] in
  Prim2SF R = S754_finite false 9007199254740991 971 /\
  isFetching (page w) = true /\
  conversionRate (page w) = VNumber R /\
  in_flight w = [] /\
  conversionRate (page w') = VNumber PrimFloat.infinity /\
  within_epsilon PrimFloat.infinity R = false.
Proof. repeat apply conj; vm_compute; reflexivity. Qed.

(** [C4] on the code: the page holds the rate 56 and the output 5600.00;
    the user asks for the rate again and the service answers with a
    well-formed body that has no [conversion_rate] (its error answer).
    Nothing is raised, so the [catch] block is not reached: the held rate is
    replaced by [undefined], [isFetching] stays set, the output becomes NaN,
    and the status text shows a conversion, not an error. *)
Theorem unusable_answer_overwrites_rate :
  let w := Example.step Example.converted (ConvertClick true) in
  let w' := Example.step w (Settle 0 true (Parsed (DataWith VUndefined))) in
  conversionRate (page w) = VNumber 56%float /\
  targetCurrentValue (page w) = VString "5600.00" /\
  in_flight w = [pair_url "USD" "PHP"] /\
  conversionRate (page w') = VUndefined /\
  isFetching (page w') = true /\
  targetCurrentValue (page w') = VString "NaN" /\
  exchangeRateText_textContent (page w') = "100 USD " ++ LF ++ "    = NaN PHP" /\
  trace w' = trace w.
Proof. repeat apply conj; vm_compute; reflexivity. Qed.

(** ** The options of the dropdowns *)

Lemma appendOptions_map (entries : list (string * flag_data))
  (options : list option_element) :
  appendOptions entries options
  = (options
     ++ map (fun entry => OptionElement (fst entry) (name (snd entry))) entries)%list.
Proof.
  unfold appendOptions. revert options.
  induction entries as [| [currency flagCode] entries IH]; intros options.
  - cbn. now rewrite List.app_nil_r.
  - cbn [fold_left map fst snd]. rewrite IH, <- List.app_assoc. reflexivity.
Qed.

Lemma property_of_entry (entries : list (string * flag_data))
  (currency : string) (flagCode : flag_data) :
  NoDup (map fst entries) ->
  In (currency, flagCode) entries ->
  property entries currency = Some flagCode.
Proof.
  induction entries as [| [c f] entries IH]; intros Hnodup Hin; [contradiction |].
  cbn [map fst] in Hnodup. inversion Hnodup as [| ? ? Hnotin Hrest]; subst.
  cbn [property]. destruct Hin as [Heq | Hin].
  - inversion Heq; subst. now rewrite String.eqb_refl.
  - destruct (String.eqb_spec c currency) as [-> | _].
    + exfalso. apply Hnotin. apply in_map_iff. now exists (currency, flagCode).
    + now apply IH.
Qed.

(** [X17] The loop of lines 203 to 208 appends, after the options a dropdown
    already has, one option per currency of the table, in the table's
    order; each carries a code for which [changeFlag] finds the flag data,
    and is labelled with that currency's name. *)
Theorem appended_options_have_flag_data
  (entries : list (string * flag_data)) (options : list option_element) :
  NoDup (map fst entries) ->
  exists added : list option_element,
    appendOptions entries options = (options ++ added)%list /\
    map option_value added = map fst entries /\
    Forall (fun o =>
              exists flagData,
                property entries (option_value o) = Some flagData /\
                option_textContent o = name flagData /\
                forall r, offered (property entries) (SelectChange r (option_value o))
                          = true)
           added.
Proof.
  intros Hnodup.
  exists (map (fun entry => OptionElement (fst entry) (name (snd entry))) entries).
  split; [apply appendOptions_map |]. split.
  - rewrite map_map. apply map_ext. reflexivity.
  - apply Forall_forall. intros o Ho. apply in_map_iff in Ho as ([c f] & <- & Hin).
    exists f. cbn [option_value option_textContent fst snd offered].
    rewrite (property_of_entry entries c f Hnodup Hin). repeat split.
Qed.

(** ** The handlers on the example page *)

(** 100 typed into the fresh page, no connection: an alert, no request. *)
Lemma convert_offline_example :
  let w := Example.step Example.fresh (InputText "100") in
  let w' := Example.step w (ConvertClick false) in
  page w' = set_text "No internet connection!" (page w) /\
  in_flight w' = in_flight w /\
  trace w'
  = (trace w ++ [Alert "You are offline. Please check your internet connection."])%list /\
  Example.step w (EnterKey false) = w'.
Proof.
  apply (convert_offline_issues_no_request en_US Example.table
           (Example.step Example.fresh (InputText "100"))).
  reflexivity.
Defined.

(** 100 typed into the fresh page, with a connection: one request for
    USD/PHP. *)
Lemma convert_online_example :
  let w := Example.step Example.fresh (InputText "100") in
  let url :=
    "https://v6.exchangerate-api.com/v6/b20b342878a7581b47213640/pair/"
    ++ selectSourceCurrency_value (page w) ++ "/"
    ++ selectTargetCurrency_value (page w) in
  let w' := Example.step w (ConvertClick true) in
  page w' = set_text "Fetching exchange rate, please wait..." (page w) /\
  in_flight w' = (in_flight w ++ [url])%list /\
  trace w' = (trace w ++ [Fetch url])%list /\
  Example.step w (EnterKey true) = w'.
Proof.
  apply (convert_online_requests_selected_pair en_US Example.table
           (Example.step Example.fresh (InputText "100"))).
  reflexivity.
Defined.

(** 100 is typed and the rate asked for; 250 is typed while the request is
    pending; the answer 56 converts 250. *)
Lemma answer_uses_amount_example :
  let w := Example.step Example.fresh (InputText "100") in
  let w1 := Example.step w (ConvertClick true) in
  let w2 := Example.step w1 (InputText "250") in
  let w3 := Example.step w2
              (Settle (List.length (in_flight w)) true
                 (Parsed (DataWith (VNumber 56%float)))) in
  let a := or_else (parseFloat "250") PrimFloat.zero in
  conversionRate (page w3) = VNumber 56%float /\
  isFetching (page w3) = true /\
  sourceCurrentValue (page w3) = a /\
  targetCurrentValue (page w3)
  = VString (toFixed 2 (js_mul (VNumber a) (VNumber 56%float))) /\
  in_flight w3 = in_flight w /\
  trace w3 = trace w1.
Proof.
  apply (answer_uses_amount_typed_meanwhile en_US Example.table
           (Example.step Example.fresh (InputText "100"))
           "250" true (VNumber 56%float)).
  reflexivity.
Defined.

(** Two requests for USD/PHP; the answer 57 to the second arrives before the
    answer 56 to the first, and 56 is kept. *)
Lemma last_answer_example :
  let w := Example.step Example.fresh (InputText "100") in
  let n := List.length (in_flight w) in
  let url := pair_url (selectSourceCurrency_value (page w))
               (selectTargetCurrency_value (page w)) in
  let w2 := Example.step (Example.step w (ConvertClick true)) (ConvertClick true) in
  let w3 := Example.step w2 (Settle (S n) true (Parsed (DataWith (VNumber 57%float)))) in
  let w4 := Example.step w3 (Settle n true (Parsed (DataWith (VNumber 56%float)))) in
  in_flight w2 = (in_flight w ++ [url; url])%list /\
  conversionRate (page w3) = VNumber 57%float /\
  in_flight w3 = (in_flight w ++ [url])%list /\
  conversionRate (page w4) = VNumber 56%float /\
  isFetching (page w4) = true /\
  in_flight w4 = in_flight w.
Proof.
  apply (last_answer_wins en_US Example.table
           (Example.step Example.fresh (InputText "100"))
           true true (VNumber 56%float) (VNumber 57%float)).
  reflexivity.
Defined.

(** The fresh page shows the flags of USD and PHP, and still shows the
    flags of its two codes after a change to EUR, a swap, a conversion and
    another change. *)
Lemma flags_follow_selection_example :
  flags_match Example.table
    (page (Example.run Example.fresh
             [SelectChange Target "EUR"; SwapClick; InputText "5";
              ConvertClick true;
              Settle 0 true (Parsed (DataWith (VNumber 56%float)));
              SelectChange Source "PHP"]))
  = true.
Proof.
  apply (flags_follow_selection en_US Example.table Example.fresh
           [SelectChange Target "EUR"; SwapClick; InputText "5";
            ConvertClick true;
            Settle 0 true (Parsed (DataWith (VNumber 56%float)));
            SelectChange Source "PHP"]);
    reflexivity.
Defined.

(** With the rate 56 held, the text abc counts as the amount 0. *)
Lemma amount_without_value_example :
  let s' := page (Example.step Example.converted (InputText "abc")) in
  sourceCurrentValue s' = PrimFloat.zero /\
  targetCurrentValue s'
  = VString (if finite_number (ToNumber (conversionRate (page Example.converted)))
             then "0.00" else "NaN").
Proof.
  apply (amount_without_value_counts_as_zero en_US Example.table
           Example.converted "abc");
    reflexivity.
Defined.

(** Swaps, typing, a change and a failed request on the fresh page: still
    no rate and zero amounts. *)
Lemma no_rate_example :
  let s := page (Example.run (initial "" "https://flagcdn.com/w640/us.png"
                                "https://flagcdn.com/w640/ph.png" "")
                   [SwapClick; InputText "7"; SelectChange Source "EUR";
                    InputText "7"; ConvertClick true;
                    Settle 0 true FetchRejected; SwapClick]) in
  isFetching s = false /\
  conversionRate s = VNumber PrimFloat.zero /\
  sourceCurrentValue s = PrimFloat.zero /\
  (targetCurrentValue s = VNumber PrimFloat.zero \/
   targetCurrentValue s = VString "0.00").
Proof.
  apply (no_rate_before_first_answer en_US Example.table
           "" "https://flagcdn.com/w640/us.png" "https://flagcdn.com/w640/ph.png" ""
           [SwapClick; InputText "7"; SelectChange Source "EUR";
            InputText "7"; ConvertClick true;
            Settle 0 true FetchRejected; SwapClick]).
  reflexivity.
Defined.

(** A swap on the fresh page: PHP/USD, and the rate is still the 0 of line
    49. *)
Lemma swap_without_rate_example :
  let w' := Example.step Example.fresh SwapClick in
  conversionRate (page w') = conversionRate (page Example.fresh) /\
  isFetching (page w') = false /\
  selectSourceCurrency_value (page w') = selectTargetCurrency_value (page Example.fresh) /\
  selectTargetCurrency_value (page w') = selectSourceCurrency_value (page Example.fresh).
Proof.
  apply (swap_without_rate_keeps_rate en_US Example.table Example.fresh).
  reflexivity.
Defined.

(** After 100 USD were converted at 56, a swap reads 5600.00 back. *)
Lemma swap_reads_output_back_example :
  exists (neg : bool) (n : N),
    toFixed 2 5600%float = sign_text neg ++ fixed_digits 2 n /\
    inputSourceCurrency_value (page (Example.step Example.converted SwapClick))
    = toFixed 2 5600%float /\
    sourceCurrentValue (page (Example.step Example.converted SwapClick))
    = or_else (signed neg (round_decimal n (-2))) PrimFloat.zero.
Proof.
  apply (swap_reads_output_back en_US Example.table Example.converted 5600%float);
    vm_compute; reflexivity.
Defined.

(** The three sample entries give an empty dropdown three options. *)
Lemma appended_options_example :
  exists added : list option_element,
    appendOptions sample_entries [] = ([] ++ added)%list /\
    map option_value added = map fst sample_entries /\
    Forall (fun o =>
              exists flagData,
                property sample_entries (option_value o) = Some flagData /\
                option_textContent o = name flagData /\
                forall r, offered (property sample_entries)
                            (SelectChange r (option_value o)) = true)
           added.
Proof.
  apply (appended_options_have_flag_data sample_entries []).
  unfold sample_entries. cbn [map fst].
  repeat (constructor; [cbn; intuition discriminate |]). constructor.
Defined.

(** ** The conversions on sample texts and numbers *)

Example parseFloat_samples :
  map parseFloat ["100"; "  12.5px"; "-5"; ".5"; "1e3"; "5600.00"]
  = [100; 12.5; -5; 0.5; 1000; 5600]%float /\
  map (fun t => PrimFloat.is_nan (parseFloat t)) [""; "abc"; "."; "-"]
  = [true; true; true; true].
Proof. repeat apply conj; vm_compute; reflexivity. Qed.

Example StringToNumber_samples :
  map StringToNumber [""; " 42 "; "-5"; "0x10"; "1e3"; "5600.00"]
  = [0; 42; -5; 16; 1000; 5600]%float /\
  map (fun t => PrimFloat.is_nan (StringToNumber t)) ["abc"; "12.5px"; "1 2"]
  = [true; true; true].
Proof. repeat apply conj; vm_compute; reflexivity. Qed.

Example Number_toString_samples :
  map (fun t => Number_toString (parseFloat t))
    ["100"; "0.1"; "1e21"; "1e-7"; "0.000001"; "123456789012345680000"; "-0"]
  = ["100"; "0.1"; "1e+21"; "1e-7"; "0.000001"; "123456789012345680000"; "0"] /\
  Number_toString (parseFloat "0.1" + parseFloat "0.2")%float
  = "0.30000000000000004" /\
  Number_toString (1 / 3)%float = "0.3333333333333333".
Proof. repeat apply conj; vm_compute; reflexivity. Qed.

Example toFixed_samples :
  map (fun t => toFixed 2 (parseFloat t))
    ["5600"; "0"; "0.005"; "1.005"; "8.345"; "10.235"; "-0.001"; "999.995";
     "1e21"; "abc"]
  = ["5600.00"; "0.00"; "0.01"; "1.00"; "8.35"; "10.23"; "-0.00"; "1000.00";
     "1e+21"; "NaN"].
Proof. vm_compute. reflexivity. Qed.

Example format_samples :
  map (fun t => Intl.format en_US (VString t))
    ["5600.00"; "100"; "-280.00"; "0.10"; "1234567.891"; "999.9995"; "NaN"]
  = ["5,600"; "100"; "-280"; "0.1"; "1,234,567.891"; "1,000"; "NaN"] /\
  map (fun x => Intl.format en_US (VNumber x)) [5600; 1234.5; 0.03125; -5]%float
  = ["5,600"; "1,234.5"; "0.031"; "-5"].
Proof. repeat apply conj; vm_compute; reflexivity. Qed.

(** Texts of the amount field: blank or a number not above zero, and the
    others. *)
Example number_not_positive_samples :
  map number_not_positive
    [""; "  "; "0"; "-5"; " -5 "; "0.00"; "-0.5"; "-1e3"; "0e5"; "-Infinity"; "0x0"; "1e-400"]
  = [true; true; true; true; true; true; true; true; true; true; true; true] /\
  map number_not_positive ["5"; "0.01"; "abc"; "-5abc"; "0x10"; "Infinity"; "5 5"]
  = [false; false; false; false; false; false; false].
Proof. repeat apply conj; vm_compute; reflexivity. Qed.
